(** * JSON Schema References: reference resolution over parsed JSON trees

    A shallow embedding of [src/extension.ts]: the JSON Pointer codec
    ([parseJsonPointer]), the reference locator ([resolveUri]), the tree
    navigator ([findTargetNode]), the metadata extractor
    ([extractSchemaMetadata]), the bulk scanner ([validateDocument],
    [findAllRefs], [validateReference]) and the point lookup
    ([resolveReference], [getRefNodeAtPosition], [resolveTargetDocument]).

    Conventions.
    - A JavaScript string is a [string]: a sequence of code units below 256.
    - [undefined] results are [None]; a rejected [openTextDocument] promise,
      the one failure the source catches, is [None] as well.
    - A call that can throw returns a [Completion]: [vscode.Uri.parse] and
      [vscode.Uri.file] throw a [UriError] on what the [Uri] constructor
      refuses, and the source calls them outside any [try]. The throw runs
      through every caller; for an [async] function it is the rejection of
      its promise.
    - The calls into [vscode], [path] and [jsonc-parser] are operations of the
      classes [Platform], [Editor] and [Workspace]; the extension's own code
      is written over them. *)

From Stdlib Require Import String Ascii List ZArith NArith Lia Bool.
Import ListNotations.
Open Scope string_scope.

(** ** Completions and numbers *)

(** How a call ends: with a value, or with a thrown error (its message). *)
Inductive Completion (A : Type) : Type :=
| Normal (a : A)
| Throw (error : string).

Arguments Normal {A} a.
Arguments Throw {A} error.

Definition bind {A B : Type} (c : Completion A) (k : A -> Completion B)
    : Completion B :=
  match c with
  | Normal a => k a
  | Throw e => Throw e
  end.

Notation "x <- c ;; k" := (bind c (fun x => k))
  (at level 61, c at next level, right associativity).

(** The numbers [Number] gives for a text of decimal digits: an integer a
    double holds, or [Infinity]. *)
Inductive JsNumber : Type :=
| Finite (n : N)
| Infinity.

Coercion Finite : N >-> JsNumber.
Bind Scope N_scope with JsNumber.

(** ** JavaScript string primitives used by the extension *)

Module Js.

(** Truthiness of a string: [!s] holds exactly for the empty string. *)
Definition isEmpty (s : string) : bool :=
  match s with
  | EmptyString => true
  | String _ _ => false
  end.

(** White space removed by [String.prototype.trim], among code units < 256:
    TAB, LF, VT, FF, CR, SPACE and NBSP. *)
Definition isWhiteSpace (c : ascii) : bool :=
  match nat_of_ascii c with
  | 9 | 10 | 11 | 12 | 13 | 32 | 160 => true
  | _ => false
  end.

Fixpoint trimStart (s : string) : string :=
  match s with
  | EmptyString => EmptyString
  | String c r => if isWhiteSpace c then trimStart r else s
  end.

Fixpoint trimEnd (s : string) : string :=
  match s with
  | EmptyString => EmptyString
  | String c r =>
      match trimEnd r with
      | EmptyString => if isWhiteSpace c then EmptyString else String c EmptyString
      | r' => String c r'
      end
  end.

(** [s.trim()] *)
Definition trim (s : string) : string := trimEnd (trimStart s).

Fixpoint indexOfFrom (c : ascii) (s : string) (i : Z) : Z :=
  match s with
  | EmptyString => (-1)%Z
  | String d r => if Ascii.eqb d c then i else indexOfFrom c r (i + 1)%Z
  end.

(** [s.indexOf(c)] for a one-character needle; [-1] when absent. *)
Definition indexOf (c : ascii) (s : string) : Z := indexOfFrom c s 0%Z.

Fixpoint drop (n : nat) (s : string) : string :=
  match n, s with
  | O, _ => s
  | S _, EmptyString => EmptyString
  | S n', String _ r => drop n' r
  end.

Fixpoint take (n : nat) (s : string) : string :=
  match n, s with
  | O, _ => EmptyString
  | S _, EmptyString => EmptyString
  | S n', String c r => String c (take n' r)
  end.

(** [s.slice(start)] and [s.slice(start, stop)] at non-negative indices, the
    only ones the extension passes. *)
Definition sliceFrom (s : string) (start : Z) : string :=
  drop (Z.to_nat start) s.

Definition slice (s : string) (start stop : Z) : string :=
  take (Z.to_nat (stop - start)) (drop (Z.to_nat start) s).

(** [s.startsWith(c)] for a one-character prefix. *)
Definition startsWith (c : ascii) (s : string) : bool :=
  match s with
  | String d _ => Ascii.eqb d c
  | EmptyString => false
  end.

(** [s.split(sep)] for a one-character separator; the empty string splits
    into one empty piece. *)
Fixpoint split (sep : ascii) (s : string) : list string :=
  match s with
  | EmptyString => [EmptyString]
  | String c r =>
      if Ascii.eqb c sep then EmptyString :: split sep r
      else match split sep r with
           | h :: t => String c h :: t
           | [] => [String c EmptyString]
           end
  end.

(** [s.replace(/ab/g, r)] for a two-character literal pattern [ab]: matches
    are taken left to right and do not overlap. *)
Fixpoint replace2 (a b r : ascii) (s : string) : string :=
  match s with
  | EmptyString => EmptyString
  | String c1 t =>
      match t with
      | EmptyString => String c1 EmptyString
      | String c2 t' =>
          if Ascii.eqb c1 a && Ascii.eqb c2 b
          then String r (replace2 a b r t')
          else String c1 (replace2 a b r t)
      end
  end.

(** The class [\d]. *)
Definition isDigit (c : ascii) : bool :=
  let n := nat_of_ascii c in (48 <=? n)%nat && (n <=? 57)%nat.

Fixpoint allDigits (s : string) : bool :=
  match s with
  | EmptyString => true
  | String c r => isDigit c && allDigits r
  end.

(** [/^\d+$/.test(s)] *)
Definition testDigits (s : string) : bool :=
  negb (isEmpty s) && allDigits s.

Fixpoint numberFrom (acc : N) (s : string) : N :=
  match s with
  | EmptyString => acc
  | String c r => numberFrom (10 * acc + (N_of_ascii c - 48))%N r
  end.

(** The double nearest to the integer [n], ties going to the even
    significand of 53 bits; from 2^1024 on it is [Infinity]. *)
Definition roundToDouble (n : N) : JsNumber :=
  if (n <? 2 ^ 53)%N then Finite n
  else
    let e := (N.size n - 53)%N in
    let q := N.shiftr n e in
    let r := (n - N.shiftl q e)%N in
    let half := N.shiftl 1 (e - 1) in
    let q' := if (half <? r)%N || ((r =? half)%N && N.odd q) then (q + 1)%N else q in
    let v := N.shiftl q' e in
    if (2 ^ 1024 <=? v)%N then Infinity else Finite v.

(** [Number(s)] on a string of decimal digits: the double nearest to the
    integer the digits denote. (ECMAScript lets an engine round a literal of
    more than twenty significant digits less exactly; V8, which runs the
    extension, rounds exactly.) *)
Definition Number (s : string) : JsNumber := roundToDouble (numberFrom 0%N s).

(** [c] belongs to [[a-zA-Z]]. *)
Definition isAlpha (c : ascii) : bool :=
  let n := nat_of_ascii c in
  ((65 <=? n)%nat && (n <=? 90)%nat) || ((97 <=? n)%nat && (n <=? 122)%nat).

End Js.

(** ** Pointer codec *)

(** A path segment of [jsonc-parser]'s [JSONPath]: [string | number]. *)
Inductive Segment : Type :=
| SegStr (s : string)
| SegNum (n : JsNumber).

Definition tilde : ascii := "~"%char.
Definition slash : ascii := "/"%char.

(** [segment.replace(/~1/g, '/').replace(/~0/g, '~')] *)
Definition unescapeSegment (segment : string) : string :=
  Js.replace2 tilde "0"%char tilde (Js.replace2 tilde "1"%char slash segment).

(** The callback mapped over the pieces in [parseJsonPointer]. *)
Definition decodeSegment (segment : string) : Segment :=
  let unescaped := unescapeSegment segment in
  if Js.testDigits unescaped then SegNum (Js.Number unescaped) else SegStr unescaped.

(** [parseJsonPointer], lines 210-227 (and its copy, lines 470-487). *)
Definition parseJsonPointer (pointer : string) : list Segment :=
  if Js.isEmpty pointer then []
  else
    let normalized :=
      if Js.startsWith slash pointer then Js.sliceFrom pointer 1 else pointer in
    if Js.isEmpty normalized then []
    else map decodeSegment (Js.split slash normalized).

(** *** The decoder as the specification words it *)

(** Strip one leading [/] if present. *)
Definition stripLeadingSlash (p : string) : string :=
  match p with
  | String c r => if Ascii.eqb c slash then r else p
  | EmptyString => EmptyString
  end.

(** One left-to-right pass reading [~1] as [/] and [~0] as [~]. *)
Fixpoint unescapeOnePass (s : string) : string :=
  match s with
  | EmptyString => EmptyString
  | String c1 t =>
      match t with
      | EmptyString => String c1 EmptyString
      | String c2 t' =>
          if Ascii.eqb c1 tilde && Ascii.eqb c2 "1"%char
          then String slash (unescapeOnePass t')
          else if Ascii.eqb c1 tilde && Ascii.eqb c2 "0"%char
          then String tilde (unescapeOnePass t')
          else String c1 (unescapeOnePass t)
      end
  end.

(** All-digit segments become indices, the others stay strings. *)
Definition toSegment (s : string) : Segment :=
  match s with
  | EmptyString => SegStr s
  | String _ _ => if Js.allDigits s then SegNum (Js.Number s) else SegStr s
  end.

Definition decodeSpec (p : string) : list Segment :=
  match stripLeadingSlash p with
  | EmptyString => []
  | rest => map (fun seg => toSegment (unescapeOnePass seg)) (Js.split slash rest)
  end.

(** Escaping of a segment for the symmetric encoder of the specification:
    [~] becomes [~0] and [/] becomes [~1]. *)
Fixpoint escapeSegment (s : string) : string :=
  match s with
  | EmptyString => EmptyString
  | String c r =>
      if Ascii.eqb c tilde then String tilde (String "0"%char (escapeSegment r))
      else if Ascii.eqb c slash then String tilde (String "1"%char (escapeSegment r))
      else String c (escapeSegment r)
  end.

(** ** Data model *)

(** [NodeType] of [jsonc-parser]. *)
Inductive NodeType : Type :=
| ObjectT | ArrayT | PropertyT | StringT | NumberT | BooleanT | NullT.

Definition NodeType_eqb (a b : NodeType) : bool :=
  match a, b with
  | ObjectT, ObjectT | ArrayT, ArrayT | PropertyT, PropertyT
  | StringT, StringT | NumberT, NumberT | BooleanT, BooleanT
  | NullT, NullT => true
  | _, _ => false
  end.

(** The [value] a scalar node carries. Number literals are kept as integers:
    the extension never computes with them. *)
Inductive JsonValue : Type :=
| JString (s : string)
| JNumber (z : Z)
| JBool (b : bool)
| JNull.

(** [Node] of [jsonc-parser]: [type], [value?], [offset], [length] (here
    [len]) and [children?]. An absent [children] array is the empty list: the
    source reads it only through [children?.[i]], [children ?? []] and
    [if (node.children)], which treat the two alike. The [parent]
    back-reference is not stored; [findNodeAtOffset] hands it out. *)
#[warnings="-register-all"]
Inductive Node : Type :=
| mkNode (type : NodeType) (value : option JsonValue) (offset len : nat)
         (children : list Node).

Definition type (n : Node) : NodeType := let 'mkNode t _ _ _ _ := n in t.
Definition value (n : Node) : option JsonValue := let 'mkNode _ v _ _ _ := n in v.
Definition offset (n : Node) : nat := let 'mkNode _ _ o _ _ := n in o.
Definition len (n : Node) : nat := let 'mkNode _ _ _ l _ := n in l.
Definition children (n : Node) : list Node := let 'mkNode _ _ _ _ c := n in c.

(** [children?.[i]] *)
Definition child (n : Node) (i : nat) : option Node := nth_error (children n) i.

(** Decimal text of an integer, as [String(n)] prints it. *)
Fixpoint digitsOf (fuel : nat) (n : N) (acc : string) : string :=
  match fuel with
  | O => acc
  | S fuel' =>
      let acc' := String (ascii_of_N (48 + n mod 10)) acc in
      if (n <? 10)%N then acc' else digitsOf fuel' (n / 10)%N acc'
  end.

Definition decimalOf (z : Z) : string :=
  let n := Z.abs_N z in
  let body := digitsOf (S (N.to_nat (N.log2 n))) n EmptyString in
  if (z <? 0)%Z then String "-"%char body else body.

(** [String(v ?? '')] *)
Definition stringOfValue (v : option JsonValue) : string :=
  match v with
  | None | Some JNull => EmptyString
  | Some (JString s) => s
  | Some (JNumber z) => decimalOf z
  | Some (JBool true) => "true"
  | Some (JBool false) => "false"
  end.

(** [v === s] for a string literal [s]. *)
Definition valueIs (v : option JsonValue) (s : string) : bool :=
  match v with
  | Some (JString t) => String.eqb t s
  | _ => false
  end.

(** [vscode.Uri]: its five components. *)
Record Uri : Type := mkUri {
  scheme : string;
  authority : string;
  path : string;
  query : string;
  fragment : string
}.

Record Position : Type := mkPosition { line : nat; character : nat }.

Record Range : Type := mkRangeRaw { start : Position; stop : Position }.

Definition Position_leb (a b : Position) : bool :=
  (line a <? line b)%nat || ((line a =? line b)%nat && (character a <=? character b)%nat).

(** [new vscode.Range(a, b)]: the two positions, swapped when [a] is after [b]. *)
Definition mkRange (a b : Position) : Range :=
  if Position_leb a b then mkRangeRaw a b else mkRangeRaw b a.

(** [vscode.TextDocument], as far as the extension reads it. *)
Record TextDocument : Type := mkTextDocument {
  uri : Uri;
  languageId : string;
  version : nat;
  getText : string
}.

Inductive DiagnosticSeverity : Type := Error | Warning | Information | Hint.

Record Diagnostic : Type := mkDiagnostic {
  range : Range;
  message : string;
  severity : DiagnosticSeverity
}.

Record SchemaMetadata : Type := mkSchemaMetadata {
  title : option string;
  description : option string;
  type_ : option string
}.

Definition emptyMetadata : SchemaMetadata := mkSchemaMetadata None None None.

(** [Omit<ResolvedReference, 'refValue' | 'sourceRange'>] *)
Record TargetInfo : Type := mkTargetInfo {
  targetUri : Uri;
  targetDocument : TextDocument;
  targetRange : Range;
  metadata : SchemaMetadata;
  pointerDisplay : string;
  pointerFragment : option string
}.

Record ResolvedReference : Type := mkResolvedReference {
  refValue : string;
  sourceRange : Range;
  resolved :> TargetInfo
}.

(** ** The services the extension calls *)

(** [vscode.Uri] and Node's [path]. [Uri.parse] and [Uri.file] end in a
    throw when the [Uri] constructor refuses the components. *)
Class Platform : Type := {
  Uri_parse : string -> Completion Uri;
  Uri_file : string -> Completion Uri;
  fsPath : Uri -> string;
  path_isAbsolute : string -> bool;
  path_dirname : string -> string;
  path_resolve : string -> string -> string
}.

(** [jsonc-parser] and the text services of a [TextDocument].
    [findNodeAtOffset] returns the node together with its [parent]. *)
Class Editor : Type := {
  parseTree : string -> option Node;
  findNodeAtLocation : Node -> list Segment -> option Node;
  findNodeAtOffset : Node -> nat -> bool -> option (Node * option Node);
  positionAt : string -> nat -> Position;
  offsetAt : string -> Position -> nat
}.

(** [vscode.workspace.openTextDocument]: [None] is a rejected promise. *)
Class Workspace : Type := {
  openTextDocument : Uri -> option TextDocument
}.

(** ** Reference locator *)

Definition isSchemeChar (c : ascii) : bool :=
  Js.isAlpha c || Ascii.eqb c "+"%char || Ascii.eqb c "-"%char || Ascii.eqb c "."%char.

Fixpoint schemeTail (s : string) : bool :=
  match s with
  | EmptyString => false
  | String c r => if isSchemeChar c then schemeTail r else String.prefix "://" s
  end.

(** [/^[a-zA-Z][a-zA-Z+\-.]*:\/\//.test(s)] *)
Definition matchesUriScheme (s : string) : bool :=
  match s with
  | EmptyString => false
  | String c r => Js.isAlpha c && schemeTail r
  end.

(** [/^[a-zA-Z]:[\\/]/.test(s)] *)
Definition matchesWindowsDrive (s : string) : bool :=
  match s with
  | String c (String d (String e _)) =>
      Js.isAlpha c && Ascii.eqb d ":"%char
      && (Ascii.eqb e "\"%char || Ascii.eqb e slash)
  | _ => false
  end.

Section Locator.
Context {P : Platform}.

(** [resolveUri], lines 184-208 (and its copy, lines 444-468). *)
Definition resolveUri (document : TextDocument) (filePart : string)
    : Completion (option Uri) :=
  if Js.isEmpty filePart then Normal (Some (uri document))
  else if matchesUriScheme filePart then
    parsed <- Uri_parse filePart ;;
    Normal (if String.eqb (scheme parsed) "file" then Some parsed else None)
  else if path_isAbsolute filePart then
    target <- Uri_file filePart ;;
    Normal (Some target)
  else if matchesWindowsDrive filePart then
    target <- Uri_file filePart ;;
    Normal (Some target)
  else
    let baseDir := path_dirname (fsPath (uri document)) in
    target <- Uri_file (path_resolve baseDir filePart) ;;
    Normal (Some target).

End Locator.

(** The two halves of a trimmed reference, as [validateReference] and
    [resolveTargetDocument] both compute them. *)
Definition hashIndexOf (trimmed : string) : Z := Js.indexOf "#"%char trimmed.

Definition filePartOf (trimmed : string) : string :=
  let hashIndex := hashIndexOf trimmed in
  if (hashIndex >=? 0)%Z then Js.slice trimmed 0 hashIndex else trimmed.

Definition pointerPartOf (trimmed : string) : string :=
  let hashIndex := hashIndexOf trimmed in
  if (hashIndex >=? 0)%Z then Js.sliceFrom trimmed (hashIndex + 1) else EmptyString.

(** ** Tree navigator *)

Section Navigator.
Context {E : Editor}.

(** The part of [findTargetNode] after the parse, lines 239-252. *)
Definition locateIn (root : Node) (pointerSegments : list Segment) : option Node :=
  match pointerSegments with
  | [] => Some root
  | _ :: _ =>
      match findNodeAtLocation root pointerSegments with
      | None => None
      | Some located =>
          match NodeType_eqb (type located) PropertyT, child located 1 with
          | true, Some valueNode => Some valueNode
          | _, _ => Some located
          end
      end
  end.

(** [findTargetNode], lines 229-253 (and its copy, lines 489-513). *)
Definition findTargetNode (document : TextDocument)
    (pointerSegments : list Segment) : option Node :=
  match parseTree (getText document) with
  | None => None
  | Some root => locateIn root pointerSegments
  end.

End Navigator.

(** ** Metadata extractor *)

(** [types.join(' | ')] *)
Definition joinTypes (types : list string) : string := String.concat " | " types.

(** The string elements of a [type] array, lines 547-549. *)
Definition stringElements (valueNode : Node) : list string :=
  map (fun c => stringOfValue (value c))
      (filter (fun c => NodeType_eqb (type c) StringT) (children valueNode)).

(** One turn of the loop over the properties, lines 523-557. *)
Definition extractStep (metadata : SchemaMetadata) (property : Node) : SchemaMetadata :=
  match NodeType_eqb (type property) PropertyT, child property 0 with
  | true, Some keyNode =>
      match child property 1 with
      | None => metadata
      | Some valueNode =>
          if valueIs (value keyNode) "title" then
            if NodeType_eqb (type valueNode) StringT
            then mkSchemaMetadata (Some (stringOfValue (value valueNode)))
                                  (description metadata) (type_ metadata)
            else metadata
          else if valueIs (value keyNode) "description" then
            if NodeType_eqb (type valueNode) StringT
            then mkSchemaMetadata (title metadata)
                                  (Some (stringOfValue (value valueNode)))
                                  (type_ metadata)
            else metadata
          else if valueIs (value keyNode) "type" then
            if NodeType_eqb (type valueNode) StringT
            then mkSchemaMetadata (title metadata) (description metadata)
                                  (Some (stringOfValue (value valueNode)))
            else if NodeType_eqb (type valueNode) ArrayT then
              let types := stringElements valueNode in
              match types with
              | [] => metadata
              | _ :: _ => mkSchemaMetadata (title metadata) (description metadata)
                                           (Some (joinTypes types))
              end
            else metadata
          else metadata
      end
  | _, _ => metadata
  end.

(** [extractSchemaMetadata], lines 515-561. *)
Definition extractSchemaMetadata (targetNode : Node) : SchemaMetadata :=
  if negb (NodeType_eqb (type targetNode) ObjectT) then emptyMetadata
  else fold_left extractStep (children targetNode) emptyMetadata.

(** *** The extractor as the specification words it *)

(** The value node of the property [p] when [p] is a property named [key]. *)
Definition propertyNamed (key : string) (p : Node) : option Node :=
  match NodeType_eqb (type p) PropertyT, child p 0, child p 1 with
  | true, Some k, Some v => if valueIs (value k) key then Some v else None
  | _, _, _ => None
  end.

(** What a value node gives for [title] and [description]: its text when it
    is a string. *)
Definition textOf (v : Node) : option string :=
  if NodeType_eqb (type v) StringT then Some (stringOfValue (value v)) else None.

(** What a value node gives for [type]: its text when it is a string, its
    string elements joined when it is an array holding some, else nothing. *)
Definition typeOf (v : Node) : option string :=
  if NodeType_eqb (type v) StringT then Some (stringOfValue (value v))
  else if NodeType_eqb (type v) ArrayT then
    match stringElements v with
    | [] => None
    | ts => Some (joinTypes ts)
    end
  else None.

(** The last property of [props], in document order, named [key] whose value
    [read] accepts. *)
Fixpoint lastSetting (key : string) (read : Node -> option string)
    (props : list Node) : option string :=
  match props with
  | [] => None
  | p :: rest =>
      match lastSetting key read rest with
      | Some s => Some s
      | None =>
          match propertyNamed key p with
          | Some v => read v
          | None => None
          end
      end
  end.

Definition extractSpec (node : Node) : SchemaMetadata :=
  match type node with
  | ObjectT =>
      mkSchemaMetadata (lastSetting "title" textOf (children node))
                       (lastSetting "description" textOf (children node))
                       (lastSetting "type" typeOf (children node))
  | _ => emptyMetadata
  end.

(** The first of two optional settings that is present. *)
Definition orElse (a b : option string) : option string :=
  match a with
  | Some _ => a
  | None => b
  end.

(** What the property [p] sets for [key], if anything. *)
Definition setting (key : string) (read : Node -> option string) (p : Node)
    : option string :=
  match propertyNamed key p with
  | Some v => read v
  | None => None
  end.

(** ** Reference scanner *)

Definition dquote : string := String (ascii_of_nat 34) EmptyString.

Section Scanner.
Context {P : Platform} {E : Editor} {W : Workspace}.

(** The range of [node] in [document], built three times in
    [validateReference] and once in [resolveReference]. *)
Definition nodeRange (document : TextDocument) (node : Node) : Range :=
  mkRange (positionAt (getText document) (offset node))
          (positionAt (getText document) (offset node + len node)).

(** [validateReference], lines 120-182. The diagnostics array is threaded
    through: the result is the array after the call. A throw of [resolveUri]
    is not caught. *)
Definition validateReference (document : TextDocument) (node : Node)
    (refValue : string) (diagnostics : list Diagnostic)
    : Completion (list Diagnostic) :=
  let trimmed := Js.trim refValue in
  let hashIndex := Js.indexOf "#"%char trimmed in
  let filePart :=
    if (hashIndex >=? 0)%Z then Js.slice trimmed 0 hashIndex else trimmed in
  let pointerPart :=
    if (hashIndex >=? 0)%Z then Js.sliceFrom trimmed (hashIndex + 1)
    else EmptyString in
  targetUri <- resolveUri document filePart ;;
  match targetUri with
  | None =>
      Normal
        (diagnostics
           ++ [mkDiagnostic (nodeRange document node)
                 ("Cannot resolve reference: " ++ dquote ++ refValue ++ dquote)%string
                 Error])%list
  | Some targetUri =>
      match openTextDocument targetUri with
      | None =>
          Normal
            (diagnostics
               ++ [mkDiagnostic (nodeRange document node)
                     ("File not found: " ++ dquote
                        ++ (if Js.isEmpty filePart then "current file"
                            else filePart)
                        ++ dquote)%string
                     Error])%list
      | Some targetDocument =>
          if negb (Js.isEmpty pointerPart) then
            let pointerSegments := parseJsonPointer pointerPart in
            match findTargetNode targetDocument pointerSegments with
            | None =>
                Normal
                  (diagnostics
                     ++ [mkDiagnostic (nodeRange document node)
                           ("Invalid JSON pointer: " ++ dquote ++ "#"
                              ++ pointerPart ++ dquote)%string
                           Error])%list
            | Some _ => Normal diagnostics
            end
          else Normal diagnostics
      end
  end.

(** The check of one node, lines 101-110. *)
Definition checkNode (document : TextDocument) (node : Node)
    (diagnostics : list Diagnostic) : Completion (list Diagnostic) :=
  if NodeType_eqb (type node) PropertyT
     && valueIs (match child node 0 with Some k => value k | None => None end) "$ref"
  then
    match child node 1 with
    | Some valueNode =>
        if NodeType_eqb (type valueNode) StringT then
          let refValue := stringOfValue (value valueNode) in
          if negb (Js.isEmpty (Js.trim refValue))
          then validateReference document valueNode refValue diagnostics
          else Normal diagnostics
        else Normal diagnostics
    | None => Normal diagnostics
    end
  else Normal diagnostics.

(** [findAllRefs], lines 92-118: the node is checked, then each child in
    turn, every call extending the same array; a throw ends the walk. *)
Fixpoint findAllRefs (document : TextDocument) (node : Node)
    (diagnostics : list Diagnostic) {struct node}
    : Completion (list Diagnostic) :=
  match checkNode document node diagnostics with
  | Throw e => Throw e
  | Normal diagnostics1 =>
      match node with
      | mkNode _ _ _ _ cs =>
          (fix each (cs : list Node) (ds : list Diagnostic) {struct cs} :=
             match cs with
             | [] => Normal ds
             | c :: cs' =>
                 match findAllRefs document c ds with
                 | Throw e => Throw e
                 | Normal ds' => each cs' ds'
                 end
             end) cs diagnostics1
      end
  end.

(** [validateDocument], lines 76-90: the list handed to
    [diagnosticCollection.set] for the document; on a throw the promise is
    rejected and nothing is set. *)
Definition validateDocument (document : TextDocument)
    : Completion (list Diagnostic) :=
  let text := getText document in
  match parseTree text with
  | None => Normal []
  | Some root => findAllRefs document root []
  end.

End Scanner.

(** *** The scan as the specification words it *)

(** The three messages of a finding (section 4.5, steps a to c). *)
Definition cannotResolveMessage (raw : string) : string :=
  "Cannot resolve reference: " ++ dquote ++ raw ++ dquote.

Definition fileNotFoundMessage (filePart : string) : string :=
  match filePart with
  | EmptyString => "File not found: " ++ dquote ++ "current file" ++ dquote
  | _ => "File not found: " ++ dquote ++ filePart ++ dquote
  end.

Definition invalidPointerMessage (pointerPart : string) : string :=
  "Invalid JSON pointer: " ++ dquote ++ "#" ++ pointerPart ++ dquote.

(** Depth-first pre-order listing of a tree. *)
Fixpoint preorder (node : Node) : list Node :=
  node ::
  match node with
  | mkNode _ _ _ _ cs =>
      (fix each (cs : list Node) : list Node :=
         match cs with
         | [] => []
         | c :: cs' => (preorder c ++ each cs')%list
         end) cs
  end.

(** The reference a node bears: the value node and raw text of a [$ref]
    property whose value is a non-blank string. *)
Definition referenceOf (node : Node) : option (Node * string) :=
  match type node, child node 0, child node 1 with
  | PropertyT, Some keyNode, Some valueNode =>
      match value keyNode, type valueNode with
      | Some (JString k), StringT =>
          let raw := stringOfValue (value valueNode) in
          if String.eqb k "$ref" && negb (String.eqb (Js.trim raw) EmptyString)
          then Some (valueNode, raw) else None
      | _, _ => None
      end
  | _, _, _ => None
  end.

(** The findings of the nodes of a list, one node after the other; the
    first throw ends the run. *)
Fixpoint gather {A B : Type} (f : A -> Completion (list B)) (l : list A)
    : Completion (list B) :=
  match l with
  | [] => Normal []
  | a :: rest =>
      here <- f a ;;
      there <- gather f rest ;;
      Normal (here ++ there)%list
  end.

Section ScanSpec.
Context {P : Platform} {E : Editor} {W : Workspace}.

(** The classification of one raw reference: the message of its finding,
    if any (steps a to d of the scanner), unless the locator throws. *)
Definition classify (document : TextDocument) (raw : string)
    : Completion (option string) :=
  let trimmed := Js.trim raw in
  located <- resolveUri document (filePartOf trimmed) ;;
  Normal
    match located with
    | None => Some (cannotResolveMessage raw)
    | Some target =>
        match openTextDocument target with
        | None => Some (fileNotFoundMessage (filePartOf trimmed))
        | Some targetDoc =>
            match pointerPartOf trimmed with
            | EmptyString => None
            | pointerPart =>
                match findTargetNode targetDoc (parseJsonPointer pointerPart) with
                | None => Some (invalidPointerMessage pointerPart)
                | Some _ => None
                end
            end
        end
    end.

(** The findings of one node: at most one. *)
Definition findingsAt (document : TextDocument) (node : Node)
    : Completion (list Diagnostic) :=
  match referenceOf node with
  | None => Normal []
  | Some (valueNode, raw) =>
      message <- classify document raw ;;
      Normal
        match message with
        | None => []
        | Some msg => [mkDiagnostic (nodeRange document valueNode) msg Error]
        end
  end.

Definition scanSpec (document : TextDocument) : Completion (list Diagnostic) :=
  match parseTree (getText document) with
  | None => Normal []
  | Some root => gather (findingsAt document) (preorder root)
  end.

End ScanSpec.

(** ** Reference lookup *)

Section Lookup.
Context {P : Platform} {E : Editor} {W : Workspace}.

(** [getRefNodeAtPosition], lines 369-396. *)
Definition getRefNodeAtPosition (document : TextDocument) (position : Position)
    : option Node :=
  let text := getText document in
  match parseTree text with
  | None => None
  | Some root =>
      let offset := offsetAt text position in
      match findNodeAtOffset root offset true with
      | None => None
      | Some (node, parent) =>
          if negb (NodeType_eqb (type node) StringT) then None
          else
            match parent with
            | None => None
            | Some propertyNode =>
                if negb (NodeType_eqb (type propertyNode) PropertyT) then None
                else
                  match child propertyNode 0 with
                  | None => None
                  | Some keyNode =>
                      if negb (valueIs (value keyNode) "$ref") then None
                      else Some node
                  end
            end
      end
  end.

(** [resolveTargetDocument], lines 398-442. A throw of [resolveUri] is not
    caught. *)
Definition resolveTargetDocument (document : TextDocument) (refValue : string)
    : Completion (option TargetInfo) :=
  let trimmed := Js.trim refValue in
  let hashIndex := Js.indexOf "#"%char trimmed in
  let filePart :=
    if (hashIndex >=? 0)%Z then Js.slice trimmed 0 hashIndex else trimmed in
  let pointerPart :=
    if (hashIndex >=? 0)%Z then Js.sliceFrom trimmed (hashIndex + 1)
    else EmptyString in
  let pointerDisplay :=
    if negb (Js.isEmpty pointerPart) then "#" ++ pointerPart else EmptyString in
  targetUri <- resolveUri document filePart ;;
  Normal
    match targetUri with
    | None => None
    | Some targetUri =>
        match openTextDocument targetUri with
        | None => None
        | Some targetDocument =>
            let pointerSegments := parseJsonPointer pointerPart in
            match findTargetNode targetDocument pointerSegments with
            | None => None
            | Some targetNode =>
                let targetRange := nodeRange targetDocument targetNode in
                let metadata := extractSchemaMetadata targetNode in
                Some (mkTargetInfo targetUri targetDocument targetRange metadata
                        pointerDisplay
                        (if Js.isEmpty pointerPart then None else Some pointerPart))
            end
        end
    end.

(** [resolveReference], lines 335-367. *)
Definition resolveReference (document : TextDocument) (position : Position)
    : Completion (option ResolvedReference) :=
  match getRefNodeAtPosition document position with
  | None => Normal None
  | Some node =>
      let refValue := stringOfValue (value node) in
      if Js.isEmpty (Js.trim refValue) then Normal None
      else
        resolvedTarget <- resolveTargetDocument document refValue ;;
        Normal
          match resolvedTarget with
          | None => None
          | Some resolvedTarget =>
              let sourceRange := nodeRange document node in
              Some (mkResolvedReference refValue sourceRange resolvedTarget)
          end
  end.

End Lookup.

(** ** The tree primitives of the parser library *)

Module Jsonc.

(** Modelled from the spec: the locate-by-path primitive
    ([findNodeAtLocation] of the parser library, which is not under
    [src/]), section 4.3. On an object a string segment selects the
    property whose key equals the segment and descends into its value node;
    on an array an integer segment selects the child at that index; a segment
    that does not resolve gives no node. *)
Fixpoint findNodeAtLocation (node : Node) (path : list Segment) : option Node :=
  match path with
  | [] => Some node
  | segment :: rest =>
      match segment, type node with
      | SegStr key, ObjectT =>
          match
            (fix select (props : list Node) : option Node :=
               match props with
               | [] => None
               | p :: props' =>
                   match propertyNamed key p with
                   | Some v => Some v
                   | None => select props'
                   end
               end) (children node)
          with
          | Some v => findNodeAtLocation v rest
          | None => None
          end
      | SegNum (Finite index), ArrayT =>
          match nth_error (children node) (N.to_nat index) with
          | Some c => findNodeAtLocation c rest
          | None => None
          end
      | _, _ => None
      end
  end.

(** [node] covers the offset [target]; its right bound counts when asked. *)
Definition contains (node : Node) (target : nat) (includeRightBound : bool) : bool :=
  ((offset node <=? target)%nat && (target <? offset node + len node)%nat)
  || (includeRightBound && (target =? offset node + len node)%nat).

(** Modelled from the spec: the find-at-offset primitive ([findNodeAtOffset]
    of the parser library, which is not under [src/]), section 4.6 step 1:
    the innermost node covering the offset, the rightmost one among siblings
    that both cover it. The node comes with its parent. *)
Fixpoint findAtOffset (parent : option Node) (node : Node) (target : nat)
    (includeRightBound : bool) {struct node} : option (Node * option Node) :=
  if contains node target includeRightBound then
    match
      match node with
      | mkNode _ _ _ _ cs =>
          (fix scan (cs : list Node) : option (Node * option Node) :=
             match cs with
             | [] => None
             | c :: cs' =>
                 match scan cs' with
                 | Some r => Some r
                 | None => findAtOffset (Some node) c target includeRightBound
                 end
             end) cs
      end
    with
    | Some r => Some r
    | None => Some (node, parent)
    end
  else None.

Definition findNodeAtOffset (root : Node) (target : nat) (includeRightBound : bool)
    : option (Node * option Node) :=
  findAtOffset None root target includeRightBound.

End Jsonc.

(** ** A POSIX host

    Node's [path.posix] and [vscode.Uri] on a non-Windows host, for the
    concrete runs below. The [Uri] constructor validates its components and
    throws a [UriError] on what it refuses. Percent-escapes are decoded as
    far as a [string] can hold the result: an escape of a character above
    U+00FF stays as written. *)

Module Posix.

(** [path.isAbsolute]: a non-empty path starting with [/]. *)
Definition isAbsolute (p : string) : bool := Js.startsWith slash p.

Fixpoint dropWhile (f : ascii -> bool) (l : list ascii) : list ascii :=
  match l with
  | [] => []
  | c :: l' => if f c then dropWhile f l' else l
  end.

Definition isSlash (c : ascii) : bool := Ascii.eqb c slash.

(** [path.dirname]: scanning from the end and never looking at index 0,
    trailing slashes and then the last name are passed over; the slash met
    next ends the directory. *)
Definition dirname (p : string) : string :=
  match p with
  | EmptyString => "."
  | String c0 rest =>
      let hasRoot := isSlash c0 in
      let afterSlashes := dropWhile isSlash (rev (list_ascii_of_string rest)) in
      let afterName := dropWhile (fun c => negb (isSlash c)) afterSlashes in
      match afterName with
      | [] => if hasRoot then "/" else "."
      | _ :: _ =>
          let stop := List.length afterName in
          if hasRoot && (stop =? 1)%nat then "//" else Js.take stop p
      end
  end.

(** One segment of [normalizeString]: empty and [.] segments vanish, [..]
    removes the segment before it (or stays, above the root of a relative
    path). The stack holds the kept segments, last first. *)
Definition normalizeStep (allowAboveRoot : bool) (stack : list string)
    (seg : string) : list string :=
  if String.eqb seg EmptyString || String.eqb seg "." then stack
  else if String.eqb seg ".." then
    match stack with
    | [] => if allowAboveRoot then [".."] else []
    | top :: below =>
        if String.eqb top ".." then ".." :: stack else below
    end
  else seg :: stack.

Definition normalizeString (p : string) (allowAboveRoot : bool) : string :=
  String.concat "/"
    (rev (fold_left (normalizeStep allowAboveRoot) (Js.split slash p) [])).

(** [path.resolve(from, to)] with working directory [cwd]: the arguments are
    taken from the right until an absolute one is met. *)
Definition resolve (cwd from to : string) : string :=
  let step (acc : string * bool) (p : string) : string * bool :=
    let '(resolvedPath, resolvedAbsolute) := acc in
    if resolvedAbsolute then acc
    else if Js.isEmpty p then acc
    else (p ++ "/" ++ resolvedPath, Js.startsWith slash p) in
  let '(resolvedPath, resolvedAbsolute) :=
    fold_left step [to; from; cwd] (EmptyString, false) in
  let normalized := normalizeString resolvedPath (negb resolvedAbsolute) in
  if resolvedAbsolute then "/" ++ normalized
  else if Js.isEmpty normalized then "." else normalized.

(** The path of a [Uri] of scheme [file], [http] or [https] starts with [/]. *)
Definition referenceResolution (sch p : string) : string :=
  if String.eqb sch "https" || String.eqb sch "http" || String.eqb sch "file" then
    match p with
    | EmptyString => "/"
    | String c _ => if isSlash c then p else "/" ++ p
    end
  else p.

(** The three messages of a [UriError]. *)
Definition illegalSchemeError : string :=
  "[UriError]: Scheme contains illegal characters.".

Definition authorityPathError : string :=
  "[UriError]: If a URI contains an authority component, then the path component must either be empty or begin with a slash ("
  ++ dquote ++ "/" ++ dquote ++ ") character".

Definition doubleSlashError : string :=
  "[UriError]: If a URI does not contain an authority component, then the path cannot begin with two slash characters ("
  ++ dquote ++ "//" ++ dquote ++ ")".

(** The class [\w] and the scheme pattern [/^\w[\w\d+.-]*$/]. *)
Definition isWord (c : ascii) : bool :=
  Js.isAlpha c || Js.isDigit c || Ascii.eqb c "_"%char.

Fixpoint schemeRest (s : string) : bool :=
  match s with
  | EmptyString => true
  | String c r =>
      (isWord c || Ascii.eqb c "+"%char || Ascii.eqb c "."%char
       || Ascii.eqb c "-"%char) && schemeRest r
  end.

Definition schemeLegal (sch : string) : bool :=
  match sch with
  | EmptyString => false
  | String c r => isWord c && schemeRest r
  end.

(** The [Uri] constructor, not strict: an empty scheme becomes [file], the
    path is made to start with [/] where the scheme asks for it, and the
    components are validated. *)
Definition construct (sch auth p qry frag : string) : Completion Uri :=
  let sch := if Js.isEmpty sch then "file" else sch in
  let p := referenceResolution sch p in
  if negb (schemeLegal sch) then Throw illegalSchemeError
  else
    match p with
    | EmptyString => Normal (mkUri sch auth p qry frag)
    | String _ _ =>
        if negb (Js.isEmpty auth) then
          if Js.startsWith slash p then Normal (mkUri sch auth p qry frag)
          else Throw authorityPathError
        else
          if String.prefix "//" p then Throw doubleSlashError
          else Normal (mkUri sch auth p qry frag)
    end.

(** [Uri.file]: a leading [//] introduces the authority of a UNC share. *)
Definition file (p : string) : Completion Uri :=
  let '(auth, p') :=
    if String.prefix "//" p then
      let tail := Js.drop 2 p in
      let idx := Js.indexOf slash tail in
      if (idx <? 0)%Z then (tail, "/")
      else (Js.take (Z.to_nat idx) tail,
            let r := Js.drop (Z.to_nat idx) tail in
            if Js.isEmpty r then "/" else r)
    else (EmptyString, p) in
  construct "file" auth p' EmptyString EmptyString.

(** The value of a hexadecimal digit. *)
Definition hexValue (c : ascii) : option N :=
  let n := N_of_ascii c in
  if Js.isDigit c then Some (n - 48)%N
  else if (97 <=? n)%N && (n <=? 102)%N then Some (n - 87)%N
  else if (65 <=? n)%N && (n <=? 70)%N then Some (n - 55)%N
  else None.

Definition byteOf (g : ascii * ascii) : option N :=
  match hexValue (fst g), hexValue (snd g) with
  | Some h, Some l => Some (16 * h + l)%N
  | _, _ => None
  end.

Definition groupText (g : ascii * ascii) : string :=
  String "%"%char (String (fst g) (String (snd g) EmptyString)).

Definition inRange (lo hi b : N) : bool := (lo <=? b)%N && (b <=? hi)%N.

(** A continuation byte of UTF-8. *)
Definition isContinuation (b : N) : bool := inRange 128 191 b.

(** The first two bytes of a well-formed sequence of three, and of four. *)
Definition leadsThree (b b2 : N) : bool :=
  ((b =? 224)%N && inRange 160 191 b2)
  || (inRange 225 236 b && isContinuation b2)
  || ((b =? 237)%N && inRange 128 159 b2)
  || (inRange 238 239 b && isContinuation b2).

Definition leadsFour (b b2 : N) : bool :=
  ((b =? 240)%N && inRange 144 191 b2)
  || (inRange 241 243 b && isContinuation b2)
  || ((b =? 244)%N && inRange 128 143 b2).

(** The text a run of escapes encodes in UTF-8, when the bytes are well
    formed: a character up to U+00FF is decoded, the escapes of a character
    above stay as written. *)
Fixpoint decodeUtf8 (run : list ((ascii * ascii) * N)) : option string :=
  match run with
  | [] => Some EmptyString
  | (g, b) :: rest =>
      if (b <? 128)%N then
        option_map (String (ascii_of_N b)) (decodeUtf8 rest)
      else
        match rest with
        | (g2, b2) :: rest2 =>
            if inRange 194 223 b && isContinuation b2 then
              option_map
                (append
                   (if (b <=? 195)%N
                    then String (ascii_of_N (64 * (b - 192) + (b2 - 128))) EmptyString
                    else groupText g ++ groupText g2))
                (decodeUtf8 rest2)
            else
              match rest2 with
              | (g3, b3) :: rest3 =>
                  if leadsThree b b2 && isContinuation b3 then
                    option_map
                      (append (groupText g ++ groupText g2 ++ groupText g3))
                      (decodeUtf8 rest3)
                  else
                    match rest3 with
                    | (g4, b4) :: rest4 =>
                        if leadsFour b b2 && isContinuation b3
                           && isContinuation b4
                        then
                          option_map
                            (append (groupText g ++ groupText g2
                                     ++ groupText g3 ++ groupText g4))
                            (decodeUtf8 rest4)
                        else None
                    | [] => None
                    end
              | [] => None
              end
        | [] => None
        end
  end.

Fixpoint bytesOf (run : list (ascii * ascii))
    : option (list ((ascii * ascii) * N)) :=
  match run with
  | [] => Some []
  | g :: rest =>
      match byteOf g, bytesOf rest with
      | Some b, Some bs => Some ((g, b) :: bs)
      | _, _ => None
      end
  end.

(** [decodeURIComponentGraceful] on a run of escapes: the run is decoded as
    a whole; when that fails its first escape stays as written and the rest
    is tried again. *)
Fixpoint decodeRun (run : list (ascii * ascii)) : string :=
  match run with
  | [] => EmptyString
  | g :: rest =>
      match match bytesOf run with
            | Some bs => decodeUtf8 bs
            | None => None
            end with
      | Some text => text
      | None => groupText g ++ decodeRun rest
      end
  end.

Definition isAlnum (c : ascii) : bool := Js.isAlpha c || Js.isDigit c.

(** [percentDecode]: every maximal run of [%xx] groups is replaced by its
    graceful decoding; [pending] is the run read so far. *)
Fixpoint percentDecodeFrom (pending : list (ascii * ascii)) (s : string) : string :=
  match s with
  | EmptyString => decodeRun pending
  | String c t =>
      match t with
      | String a (String b r) =>
          if Ascii.eqb c "%"%char && isAlnum a && isAlnum b
          then percentDecodeFrom (pending ++ [(a, b)]) r
          else decodeRun pending ++ String c (percentDecodeFrom [] t)
      | _ => decodeRun pending ++ String c (percentDecodeFrom [] t)
      end
  end.

Definition percentDecode (s : string) : string := percentDecodeFrom [] s.

(** The longest prefix of [s] free of the characters [stop] accepts, and
    what follows it. *)
Fixpoint span (stop : ascii -> bool) (s : string) : string * string :=
  match s with
  | EmptyString => (EmptyString, EmptyString)
  | String c r =>
      if stop c then (EmptyString, s)
      else let '(a, b) := span stop r in (String c a, b)
  end.

Definition oneOf (set : string) (c : ascii) : bool :=
  existsb (Ascii.eqb c) (list_ascii_of_string set).

Definition isLineEnd (c : ascii) : bool :=
  Ascii.eqb c "010"%char || Ascii.eqb c "013"%char.

(** [Uri.parse], not strict: scheme, authority, path, query and fragment
    as the generic URI syntax delimits them (the fragment ends with its
    line), each but the scheme percent-decoded, then the constructor. *)
Definition parse (s : string) : Completion Uri :=
  let '(pre, rest) := span (oneOf ":/?#") s in
  let '(sch, rest1) :=
    match pre, rest with
    | String _ _, String c r => if Ascii.eqb c ":"%char then (pre, r) else (EmptyString, s)
    | _, _ => (EmptyString, s)
    end in
  let '(auth, rest2) :=
    if String.prefix "//" rest1 then span (oneOf "/?#") (Js.drop 2 rest1)
    else (EmptyString, rest1) in
  let '(pth, rest3) := span (oneOf "?#") rest2 in
  let '(qry, rest4) :=
    match rest3 with
    | String c r => if Ascii.eqb c "?"%char then span (oneOf "#") r else (EmptyString, rest3)
    | EmptyString => (EmptyString, rest3)
    end in
  let frag :=
    match rest4 with
    | String c r => if Ascii.eqb c "#"%char then fst (span isLineEnd r) else EmptyString
    | EmptyString => EmptyString
    end in
  construct sch (percentDecode auth) (percentDecode pth) (percentDecode qry)
            (percentDecode frag).

Definition toLower (c : ascii) : ascii :=
  let n := nat_of_ascii c in
  if (65 <=? n)%nat && (n <=? 90)%nat then ascii_of_nat (n + 32) else c.

(** [uri.fsPath] on a non-Windows host. *)
Definition fsPathOf (u : Uri) : string :=
  if negb (Js.isEmpty (authority u)) && (1 <? String.length (path u))%nat
     && String.eqb (scheme u) "file"
  then "//" ++ authority u ++ path u
  else
    match path u with
    | String c0 (String c1 (String c2 r)) =>
        if isSlash c0 && Js.isAlpha c1 && Ascii.eqb c2 ":"%char
        then String (toLower c1) (String c2 r)
        else path u
    | _ => path u
    end.

(** The identity of a plain absolute path: what [Uri.file] returns for a
    path that starts with one slash only. *)
Definition fileUri (p : string) : Uri :=
  mkUri "file" EmptyString p EmptyString EmptyString.

Definition platform (cwd : string) : Platform := {|
  Uri_parse := parse;
  Uri_file := file;
  fsPath := fsPathOf;
  path_isAbsolute := isAbsolute;
  path_dirname := dirname;
  path_resolve := resolve cwd
|}.

End Posix.

(** ** A small workspace for concrete runs

    Seven one-line documents under [/work] on the POSIX host, with the
    trees the parser gives for their texts. *)

Module Fixture.

(** A JSON string literal without escapes. *)
Definition q (s : string) : string := dquote ++ s ++ dquote.

(** The node of the string literal [q s] at [off]. *)
Definition strNode (off : nat) (s : string) : Node :=
  mkNode StringT (Some (JString s)) off (String.length s + 2) [].

Definition numNode (off : nat) (z : Z) : Node :=
  mkNode NumberT (Some (JNumber z)) off (String.length (decimalOf z)) [].

(** A property spans from the start of its key to the end of its value. *)
Definition propNode (k v : Node) : Node :=
  mkNode PropertyT None (offset k) (offset v + len v - offset k) [k; v].

Definition objNode (off l : nat) (props : list Node) : Node :=
  mkNode ObjectT None off l props.

Definition arrNode (off l : nat) (items : list Node) : Node :=
  mkNode ArrayT None off l items.

(** [{"$ref":"b.json#/x"}] *)
Definition textA : string := "{" ++ q "$ref" ++ ":" ++ q "b.json#/x" ++ "}".
Definition keyA : Node := strNode 1 "$ref".
Definition refA : Node := strNode 8 "b.json#/x".
Definition treeA : Node := objNode 0 20 [propNode keyA refA].

(** [{"x":{"title":"Foo","type":["string","null"]}}] *)
Definition textB : string :=
  "{" ++ q "x" ++ ":{" ++ q "title" ++ ":" ++ q "Foo" ++ "," ++ q "type" ++ ":["
      ++ q "string" ++ "," ++ q "null" ++ "]}}".
Definition schemaB : Node :=
  objNode 5 40
    [propNode (strNode 6 "title") (strNode 14 "Foo");
     propNode (strNode 20 "type")
              (arrNode 27 17 [strNode 28 "string"; strNode 37 "null"])].
Definition treeB : Node := objNode 0 46 [propNode (strNode 1 "x") schemaB].

(** [{}], stored in a file named [$ref]. *)
Definition textR : string := "{}".
Definition treeR : Node := objNode 0 2 [].

(** [{"a":{"b":[1,2,3]}}] *)
Definition textT : string := "{" ++ q "a" ++ ":{" ++ q "b" ++ ":[1,2,3]}}".
Definition two : Node := numNode 13 2.
Definition treeT : Node :=
  objNode 0 19
    [propNode (strNode 1 "a")
       (objNode 5 13
          [propNode (strNode 6 "b")
                    (arrNode 10 7 [numNode 11 1; two; numNode 15 3])])].

(** [{"$ref":"./missing.json"}] and [{"$ref":"#/nope"}] *)
Definition textM : string := "{" ++ q "$ref" ++ ":" ++ q "./missing.json" ++ "}".
Definition treeM : Node := objNode 0 25 [propNode keyA (strNode 8 "./missing.json")].
Definition textN : string := "{" ++ q "$ref" ++ ":" ++ q "#/nope" ++ "}".
Definition treeN : Node := objNode 0 17 [propNode keyA (strNode 8 "#/nope")].

(** [{"$ref":"file:////x.json"}]: a file URI with four slashes. *)
Definition textU : string := "{" ++ q "$ref" ++ ":" ++ q "file:////x.json" ++ "}".
Definition refU : Node := strNode 8 "file:////x.json".
Definition treeU : Node := objNode 0 26 [propNode keyA refU].

Definition parses : list (string * Node) :=
  [(textA, treeA); (textB, treeB); (textR, treeR); (textT, treeT);
   (textM, treeM); (textN, treeN); (textU, treeU)].

(** The parser on the texts of the fixture, and on the empty text, which
    has no tree; no other text is parsed here. *)
Definition parseText (text : string) : option Node :=
  option_map snd (find (fun e => String.eqb (fst e) text) parses).

(** Positions in a one-line text. *)
Definition positionIn (text : string) (off : nat) : Position :=
  mkPosition 0 (Nat.min off (String.length text)).

Definition offsetIn (text : string) (p : Position) : nat :=
  if (line p =? 0)%nat then Nat.min (character p) (String.length text)
  else String.length text.

#[export] Instance editor : Editor := {|
  parseTree := parseText;
  findNodeAtLocation := Jsonc.findNodeAtLocation;
  findNodeAtOffset := Jsonc.findNodeAtOffset;
  positionAt := positionIn;
  offsetAt := offsetIn
|}.

#[export] Instance platform : Platform := Posix.platform "/work".

Definition docAt (p text : string) : TextDocument :=
  mkTextDocument (Posix.fileUri p) "json" 1 text.

Definition docA : TextDocument := docAt "/work/a.json" textA.
Definition docB : TextDocument := docAt "/work/b.json" textB.
Definition docR : TextDocument := docAt "/work/$ref" textR.
Definition docT : TextDocument := docAt "/work/t.json" textT.
Definition docM : TextDocument := docAt "/work/m.json" textM.
Definition docN : TextDocument := docAt "/work/n.json" textN.
Definition docU : TextDocument := docAt "/work/u.json" textU.

Definition Uri_eqb (a b : Uri) : bool :=
  String.eqb (scheme a) (scheme b) && String.eqb (authority a) (authority b)
  && String.eqb (path a) (path b) && String.eqb (query a) (query b)
  && String.eqb (fragment a) (fragment b).

Definition files : list TextDocument :=
  [docA; docB; docR; docT; docM; docN; docU].

#[export] Instance workspace : Workspace := {|
  openTextDocument := fun u => find (fun d => Uri_eqb (uri d) u) files
|}.

(** The same workspace after [b.json] was deleted. *)
Definition workspaceWithoutB : Workspace := {|
  openTextDocument := fun u =>
    find (fun d => Uri_eqb (uri d) u) [docA; docR; docT; docM; docN; docU]
|}.

End Fixture.

(** ** Predicates used in the statements *)

(** The outcome of the locator when it takes what a [Uri] call gives. *)
Definition found (c : Completion Uri) : Completion (option Uri) :=
  target <- c ;;
  Normal (Some target).

(** The path the locator hands to [Uri.file] for a file part that is
    neither empty nor a [scheme://] text. *)
Definition pathTaken {P : Platform} (document : TextDocument)
    (filePart : string) : string :=
  if path_isAbsolute filePart || matchesWindowsDrive filePart then filePart
  else path_resolve (path_dirname (fsPath (uri document))) filePart.

(** The exact integer a text of digits denotes. *)
Definition digitsValue (s : string) : N := Js.numberFrom 0%N s.

(** The text made of [n] zeros. *)
Fixpoint zeros (n : nat) : string :=
  match n with
  | O => EmptyString
  | S n' => String "0"%char (zeros n')
  end.

(** Every character of [s] is white space. *)
Fixpoint allWhiteSpace (s : string) : bool :=
  match s with
  | EmptyString => true
  | String c r => Js.isWhiteSpace c && allWhiteSpace r
  end.

(** [s] holds no occurrence of [c]. *)
Fixpoint lacks (c : ascii) (s : string) : bool :=
  match s with
  | EmptyString => true
  | String d r => negb (Ascii.eqb d c) && lacks c r
  end.


(** ** The workspace at a later time *)

(** A document object of the same text at a later version. *)
Definition later (d : TextDocument) : TextDocument :=
  mkTextDocument (uri d) (languageId d) (S (version d)) (getText d).

(** [Fixture.workspace] with every document at a later version. *)
Definition workspaceLater : Workspace := {|
  openTextDocument := fun u =>
    option_map later (openTextDocument (Workspace := Fixture.workspace) u)
|}.


(** [node] is the node found at [position], a string whose parent is a
    property of key [$ref]. *)
Definition refStringAt {E : Editor} (document : TextDocument)
    (position : Position) (node : Node) : Prop :=
  exists root propertyNode keyNode,
    parseTree (getText document) = Some root
    /\ findNodeAtOffset root (offsetAt (getText document) position) true
       = Some (node, Some propertyNode)
    /\ type node = StringT
    /\ type propertyNode = PropertyT
    /\ child propertyNode 0 = Some keyNode
    /\ value keyNode = Some (JString "$ref").


(** ** Presentation: hover and go-to-definition

    A hover text can hold the ellipsis U+2026, which is no code unit below
    256: the presenter works on texts as lists of code units. *)

Definition Text : Type := list N.

(** The code units of a [string]. *)
Definition units (s : string) : Text := map N_of_ascii (list_ascii_of_string s).

Definition backslash : N := 92%N.
Definition newline : N := 10%N.
Definition ellipsis : N := 8230%N.

(** The class of the pattern in [escapeMarkdown]: the fifteen characters
    backslash, backquote, star, underscore, braces, brackets, parentheses,
    hash, plus, minus, exclamation mark and dot. *)
Definition isMarkdownSpecial (c : N) : bool :=
  existsb (N.eqb c) (units "\`*_{}[]()#+-!.").

(** [escapeMarkdown], lines 563-565: every character of the class gets a
    backslash before it. *)
Fixpoint escapeMarkdown (text : Text) : Text :=
  match text with
  | [] => []
  | c :: r =>
      if isMarkdownSpecial c then backslash :: c :: escapeMarkdown r
      else c :: escapeMarkdown r
  end.

(** [text.slice(0, stop)] for any integer [stop]: a negative one counts from
    the end, and both are clamped to the text. *)
Definition sliceTo (text : Text) (stop : Z) : Text :=
  let n := Z.of_nat (List.length text) in
  let e := if (stop <? 0)%Z then Z.max (n + stop) 0 else Z.min stop n in
  firstn (Z.to_nat e) text.

(** [truncateText], lines 567-569, for an integer [max]. *)
Definition truncateText (text : Text) (max : Z) : Text :=
  if (Z.of_nat (List.length text) >? max)%Z
  then (sliceTo text (max - 1) ++ [ellipsis])%list
  else text.

(** The default of the parameter [max]. *)
Definition defaultMax : Z := 280%Z.

(** [vscode.MarkdownString], as far as the extension sets it. *)
Record MarkdownString : Type := mkMarkdownString {
  mdValue : Text;
  isTrusted : bool;
  supportThemeIcons : bool
}.

(** [markdown.appendMarkdown(value)] *)
Definition appendMarkdown (markdown : MarkdownString) (value : Text) : MarkdownString :=
  mkMarkdownString (mdValue markdown ++ value)%list (isTrusted markdown)
                   (supportThemeIcons markdown).

(** [vscode.Hover] *)
Record Hover : Type := mkHover {
  contents : MarkdownString;
  hoverRange : Range
}.

(** [vscode.DefinitionLink] *)
Module DefinitionLink.
Record t : Type := make {
  originSelectionRange : Range;
  targetUri : Uri;
  targetRange : Range;
  targetSelectionRange : Range
}.
End DefinitionLink.

(** What the presenter calls besides: [path.basename], [uri.with] for the
    fragment, and [uri.toString(skipEncoding)]. *)
Class Presenter : Type := {
  path_basename : string -> string;
  Uri_with_fragment : Uri -> string -> Uri;
  Uri_toString : Uri -> bool -> string
}.

(** [lines.join('\n')] *)
Fixpoint joinLines (lines : list Text) : Text :=
  match lines with
  | [] => []
  | [l] => l
  | l :: rest => (l ++ newline :: joinLines rest)%list
  end.

(** A string is truthy when it is present and not empty. *)
Definition truthy (s : option string) : bool :=
  match s with
  | Some (String _ _) => true
  | _ => false
  end.

Definition titleLabel : Text := units "- **Title:** ".
Definition descriptionLabel : Text := units "- **Description:** ".
Definition typeLabel : Text := units "- **Type:** ".
Definition noMetadataNotice : Text := units "_No schema metadata available._".
Definition hoverFooter : Text :=
  (newline :: newline :: units "Cmd+Click to open the referenced schema.")%list.

(** One detail line, built alike for the three fields, lines 284-302. *)
Definition detailLine (label : Text) (field : option string) : list Text :=
  match field with
  | Some (String _ _ as s) =>
      [(label ++ escapeMarkdown (truncateText (units s) defaultMax))%list]
  | _ => []
  end.

(** The array [detailLines], lines 283-302. *)
Definition detailLines (m : SchemaMetadata) : list Text :=
  (detailLine titleLabel (title m)
   ++ detailLine descriptionLabel (description m)
   ++ detailLine typeLabel (type_ m))%list.

Section Presentation.
Context {P : Platform} {E : Editor} {W : Workspace} {V : Presenter}.

(** The text [header], lines 270-273. *)
Definition hoverHeader (info : ResolvedReference) : string :=
  let fileLabel := path_basename (fsPath (targetUri info)) in
  if negb (Js.isEmpty (pointerDisplay info))
  then fileLabel ++ pointerDisplay info
  else fileLabel.

(** The link target [linkUri], lines 275-277. *)
Definition hoverLinkUri (info : ResolvedReference) : Uri :=
  match pointerFragment info with
  | Some (String _ _ as f) => Uri_with_fragment (targetUri info) f
  | _ => targetUri info
  end.

(** The markdown of a hover, lines 268-310. *)
Definition hoverMarkdown (info : ResolvedReference) : MarkdownString :=
  let markdown := mkMarkdownString [] true true in
  let markdown :=
    appendMarkdown markdown
      (units "[" ++ escapeMarkdown (units (hoverHeader info)) ++ units "]("
       ++ units (Uri_toString (hoverLinkUri info) true)
       ++ units ")" ++ [newline; newline])%list in
  let lines := detailLines (metadata info) in
  let markdown :=
    match lines with
    | [] => appendMarkdown markdown noMetadataNotice
    | _ :: _ => appendMarkdown markdown (joinLines lines)
    end in
  appendMarkdown markdown hoverFooter.

(** [provideHover], lines 258-313. *)
Definition provideHover (document : TextDocument) (position : Position)
    : Completion (option Hover) :=
  info <- resolveReference document position ;;
  Normal
    match info with
    | None => None
    | Some info => Some (mkHover (hoverMarkdown info) (sourceRange info))
    end.

(** [provideDefinition], lines 315-333. *)
Definition provideDefinition (document : TextDocument) (position : Position)
    : Completion (option (list DefinitionLink.t)) :=
  info <- resolveReference document position ;;
  Normal
    match info with
    | None => None
    | Some info =>
        Some [DefinitionLink.make (sourceRange info) (targetUri info)
                (targetRange info) (targetRange info)]
    end.

End Presentation.


(** ** Further predicates and readings used in the statements *)

(** How Markdown reads an escaped text: a backslash before a character of
    the class stands for that character. *)
Fixpoint unescapeMarkdown (text : Text) : Text :=
  match text with
  | [] => []
  | c :: r =>
      match r with
      | [] => [c]
      | d :: r' =>
          if N.eqb c backslash && isMarkdownSpecial d
          then d :: unescapeMarkdown r'
          else c :: unescapeMarkdown r
      end
  end.

(** The number of characters of the class in a text. *)
Definition specialCount (text : Text) : nat :=
  List.length (filter isMarkdownSpecial text).

(** The encoder the specification pairs with the decoder (section 4.1):
    each segment is escaped ([~] to [~0], then [/] to [~1]; an index is
    written in decimal) and preceded by a slash. *)
Definition encodeSegment (seg : Segment) : string :=
  match seg with
  | SegStr s => escapeSegment s
  | SegNum (Finite n) => decimalOf (Z.of_N n)
  | SegNum Infinity => "Infinity"
  end.

Fixpoint encodePointer (p : list Segment) : string :=
  match p with
  | [] => EmptyString
  | seg :: rest => "/" ++ encodeSegment seg ++ encodePointer rest
  end.

(** A segment the decoder gives back as it was: an index below 2^53, which
    a double holds exactly, or a string that is not all digits. *)
Definition plainSegment (seg : Segment) : bool :=
  match seg with
  | SegStr s => negb (Js.testDigits s)
  | SegNum (Finite n) => (n <? 2 ^ 53)%N
  | SegNum Infinity => false
  end.

(** Every character of [s] is a scheme character. *)
Fixpoint allSchemeChars (s : string) : bool :=
  match s with
  | EmptyString => true
  | String c r => isSchemeChar c && allSchemeChars r
  end.

(** The property [p] sets one of the three fields. *)
Definition setsField (p : Node) : bool :=
  match setting "title" textOf p, setting "description" textOf p,
        setting "type" typeOf p with
  | None, None, None => false
  | _, _, _ => true
  end.

(** The node bears a reference: it is a [$ref] property whose value is a
    non-blank string. *)
Definition bearsReference (node : Node) : bool :=
  match referenceOf node with
  | Some _ => true
  | None => false
  end.


(** ** A presenter for the POSIX host

    [path.basename] as the last non-empty name of a path, [uri.with] as the
    update of the fragment, and [uri.toString(true)] for plain components
    that need no encoding. *)

Definition posixBasename (p : string) : string :=
  last (filter (fun seg => negb (Js.isEmpty seg)) (Js.split slash p)) EmptyString.

Definition posixToString (u : Uri) (skipEncoding : bool) : string :=
  scheme u ++ "://" ++ authority u ++ path u
  ++ (if Js.isEmpty (query u) then EmptyString else "?" ++ query u)
  ++ (if Js.isEmpty (fragment u) then EmptyString else "#" ++ fragment u).

Definition posixPresenter : Presenter := {|
  path_basename := posixBasename;
  Uri_with_fragment := fun u f =>
    mkUri (scheme u) (authority u) (path u) (query u) f;
  Uri_toString := posixToString
|}.


(** ** A workspace with a file that does not parse *)

(** An empty file: the parser gives no tree for the empty text. *)
Definition docBroken : TextDocument :=
  Fixture.docAt "/work/broken.json" EmptyString.

Definition workspaceWithBroken : Workspace := {|
  openTextDocument := fun u =>
    find (fun d => Fixture.Uri_eqb (uri d) u) (docBroken :: Fixture.files)
|}.


(** The number of occurrences of [c] in [s]. *)
Fixpoint countChar (c : ascii) (s : string) : nat :=
  match s with
  | EmptyString => 0
  | String d r => (if Ascii.eqb d c then 1 else 0) + countChar c r
  end.

(** [{"0":"zero","items":["a"]}]: an object with a key made of digits. *)
Definition treeDigitKey : Node :=
  Fixture.objNode 0 26
    [Fixture.propNode (Fixture.strNode 1 "0") (Fixture.strNode 5 "zero");
     Fixture.propNode (Fixture.strNode 12 "items")
       (Fixture.arrNode 20 5 [Fixture.strNode 21 "a"])].


(** ** Activation and the document events

    The diagnostic collection maps a document identity to the findings last
    set for it. Each handler is taken to run to its end, the scan it starts
    included, before the next event is handled. A scan that throws sets
    nothing. *)

Definition SUPPORTED_LANGUAGES : list string := ["json"; "jsonc"].

(** [list.includes(s)] *)
Definition includes (l : list string) (s : string) : bool :=
  existsb (String.eqb s) l.

(** Two identities name the same resource. *)
Definition sameUri (a b : Uri) : bool :=
  String.eqb (scheme a) (scheme b) && String.eqb (authority a) (authority b)
  && String.eqb (path a) (path b) && String.eqb (query a) (query b)
  && String.eqb (fragment a) (fragment b).

Definition DiagnosticCollection : Type := Uri -> option (list Diagnostic).

(** [collection.set(uri, diagnostics)] and [collection.delete(uri)] *)
Definition collectionSet (c : DiagnosticCollection) (u : Uri)
    (ds : list Diagnostic) : DiagnosticCollection :=
  fun v => if sameUri u v then Some ds else c v.

Definition collectionDelete (c : DiagnosticCollection) (u : Uri)
    : DiagnosticCollection :=
  fun v => if sameUri u v then None else c v.

Inductive WorkspaceEvent : Type :=
| DidOpenTextDocument (doc : TextDocument)
| DidChangeTextDocument (doc : TextDocument)
| DidCloseTextDocument (doc : TextDocument).

Section Activation.
Context {P : Platform} {E : Editor} {W : Workspace}.

(** [validateDocument] with its second argument, lines 76-90: the findings
    replace those of the document in the collection. *)
Definition publishDiagnostics (doc : TextDocument) (c : DiagnosticCollection)
    : DiagnosticCollection :=
  match validateDocument doc with
  | Normal diagnostics => collectionSet c (uri doc) diagnostics
  | Throw _ => c
  end.

(** The callback shared by activation, open and change, lines 40-62. *)
Definition validateIfSupported (doc : TextDocument) (c : DiagnosticCollection)
    : DiagnosticCollection :=
  if includes SUPPORTED_LANGUAGES (languageId doc) then publishDiagnostics doc c
  else c.

(** [activate], lines 29-70, as far as diagnostics go: the collection after
    the documents already open were validated. *)
Definition activate (textDocuments : list TextDocument) : DiagnosticCollection :=
  fold_left (fun c doc => validateIfSupported doc c) textDocuments (fun _ => None).

(** The three subscriptions, lines 46-69. *)
Definition onEvent (c : DiagnosticCollection) (e : WorkspaceEvent)
    : DiagnosticCollection :=
  match e with
  | DidOpenTextDocument doc => validateIfSupported doc c
  | DidChangeTextDocument doc => validateIfSupported doc c
  | DidCloseTextDocument doc => collectionDelete c (uri doc)
  end.

Definition runEvents (events : list WorkspaceEvent) (c : DiagnosticCollection)
    : DiagnosticCollection :=
  fold_left onEvent events c.

End Activation.

(** The document an event is about. *)
Definition eventDocument (e : WorkspaceEvent) : TextDocument :=
  match e with
  | DidOpenTextDocument doc | DidChangeTextDocument doc
  | DidCloseTextDocument doc => doc
  end.

(** [doc] was seen with a supported language: it was open at activation, or
    an open or change event carried it. *)
Definition seenSupported (docs : list TextDocument) (events : list WorkspaceEvent)
    (doc : TextDocument) : Prop :=
  includes SUPPORTED_LANGUAGES (languageId doc) = true
  /\ (In doc docs \/ In (DidOpenTextDocument doc) events
      \/ In (DidChangeTextDocument doc) events).

(** A document of another language, at the place of [a.json]. *)
Definition docPlain : TextDocument :=
  mkTextDocument (uri Fixture.docA) "plaintext" 1 Fixture.textA.

(** Every entry of [c] is the scan of a document of a supported language
    with that identity, among those [seen] holds of. *)
Definition backed {P : Platform} {E : Editor} {W : Workspace}
    (seen : TextDocument -> Prop) (c : DiagnosticCollection) : Prop :=
  forall u ds, c u = Some ds ->
    exists doc, seen doc /\ uri doc = u
                /\ includes SUPPORTED_LANGUAGES (languageId doc) = true
                /\ validateDocument doc = Normal ds.


(** The collection after [a.json] and [m.json] were open at activation,
    [n.json] was opened and a plain-text document at the place of [a.json]
    changed. *)
Definition sampleCollection : DiagnosticCollection :=
  runEvents (P := Fixture.platform) (E := Fixture.editor) (W := Fixture.workspace)
    [DidOpenTextDocument Fixture.docN; DidChangeTextDocument docPlain]
    (activate (P := Fixture.platform) (E := Fixture.editor)
       (W := Fixture.workspace) [Fixture.docA; Fixture.docM]).

(** [s] does not start with white space. *)
Definition startsPlain (s : string) : bool :=
  match s with
  | EmptyString => true
  | String c _ => negb (Js.isWhiteSpace c)
  end.


(** * Properties *)

(** ** Strings *)

Lemma ascii_eqb_true (a b : ascii) : Ascii.eqb a b = true -> a = b.
Proof. apply Ascii.eqb_eq. Qed.

(** A replacement leaves the first character alone unless it starts a match. *)
Lemma replace2_skip (a b r c : ascii) (x : string) :
  Ascii.eqb c a && Js.startsWith b x = false ->
  Js.replace2 a b r (String c x) = String c (Js.replace2 a b r x).
Proof.
  destruct x as [|d x']; intros H.
  - reflexivity.
  - cbn [Js.startsWith] in H. cbn [Js.replace2]. rewrite H. reflexivity.
Qed.

Lemma replace2_hit (a b r : ascii) (x : string) :
  Js.replace2 a b r (String a (String b x)) = String r (Js.replace2 a b r x).
Proof. cbn [Js.replace2]. rewrite !Ascii.eqb_refl. reflexivity. Qed.

(** After [~1] was replaced, a text starts with [0] only if it did before. *)
Lemma replace_tilde1_head (x : string) :
  Js.startsWith "0"%char (Js.replace2 tilde "1"%char slash x)
  = Js.startsWith "0"%char x.
Proof.
  destruct x as [|c [|d x']]; try reflexivity.
  cbn [Js.replace2].
  destruct (Ascii.eqb c tilde && Ascii.eqb d "1"%char) eqn:Hm.
  - apply andb_prop in Hm as [Hc _]. apply ascii_eqb_true in Hc. subst c.
    reflexivity.
  - reflexivity.
Qed.

Lemma unescape_pass_pair (s : string) :
  unescapeSegment s = unescapeOnePass s
  /\ forall c, unescapeSegment (String c s) = unescapeOnePass (String c s).
Proof.
  unfold unescapeSegment.
  induction s as [|d t [IHt IHc]].
  - split; reflexivity.
  - split; [apply IHc|]. intros c.
    cbn [unescapeOnePass].
    destruct (Ascii.eqb c tilde && Ascii.eqb d "1"%char) eqn:H1.
    + apply andb_prop in H1 as [Hc Hd].
      apply ascii_eqb_true in Hc, Hd. subst c d.
      rewrite replace2_hit, replace2_skip by reflexivity.
      now rewrite IHt.
    + destruct (Ascii.eqb c tilde && Ascii.eqb d "0"%char) eqn:H0.
      * apply andb_prop in H0 as [Hc Hd].
        apply ascii_eqb_true in Hc, Hd. subst c d.
        rewrite (replace2_skip tilde "1"%char slash tilde) by reflexivity.
        rewrite (replace2_skip tilde "1"%char slash "0"%char) by reflexivity.
        rewrite replace2_hit. now rewrite IHt.
      * rewrite (replace2_skip tilde "1"%char slash c (String d t)) by exact H1.
        rewrite replace2_skip.
        -- now rewrite IHc.
        -- rewrite replace_tilde1_head. exact H0.
Qed.

(** The two replacements in sequence read a segment as one pass does. *)
Lemma unescapeSegment_one_pass (s : string) :
  unescapeSegment s = unescapeOnePass s.
Proof. apply unescape_pass_pair. Qed.

Lemma unescapeOnePass_escape (s : string) :
  unescapeOnePass (escapeSegment s) = s.
Proof.
  assert (Hd : forall c x, Ascii.eqb c tilde = false ->
            unescapeOnePass (String c x) = String c (unescapeOnePass x)).
  { intros c [|d x] Hc; cbn [unescapeOnePass]; [reflexivity|].
    now rewrite Hc. }
  induction s as [|c s IH]; [reflexivity|].
  cbn [escapeSegment].
  destruct (Ascii.eqb c tilde) eqn:Ht.
  - apply ascii_eqb_true in Ht. subst c.
    cbn [unescapeOnePass]. cbn. fold unescapeOnePass. now rewrite IH.
  - destruct (Ascii.eqb c slash) eqn:Hs.
    + apply ascii_eqb_true in Hs. subst c.
      cbn [unescapeOnePass]. cbn. fold unescapeOnePass. now rewrite IH.
    + rewrite Hd by exact Ht. now rewrite IH.
Qed.

(** Unescaping undoes escaping: [~0] gives back [~] and [~1] gives back [/]. *)
Lemma unescapeSegment_escapeSegment (s : string) :
  unescapeSegment (escapeSegment s) = s.
Proof. rewrite unescapeSegment_one_pass. apply unescapeOnePass_escape. Qed.

(** With the replacements in the other order, [~01] would decode to [/]. *)
Example unescape_other_order :
  Js.replace2 tilde "1"%char slash (Js.replace2 tilde "0"%char tilde "~01") = "/".
Proof. reflexivity. Qed.

Lemma decodeSegment_toSegment (s : string) :
  decodeSegment s = toSegment (unescapeOnePass s).
Proof.
  unfold decodeSegment. rewrite unescapeSegment_one_pass.
  unfold toSegment, Js.testDigits.
  destruct (unescapeOnePass s); reflexivity.
Qed.

Lemma parseJsonPointer_decodeSpec (p : string) :
  parseJsonPointer p = decodeSpec p.
Proof.
  unfold parseJsonPointer, decodeSpec.
  destruct p as [|c r]; [reflexivity|].
  cbn [Js.isEmpty Js.startsWith stripLeadingSlash].
  assert (Hmap : forall l, map decodeSegment l
            = map (fun seg => toSegment (unescapeOnePass seg)) l).
  { intros l. apply map_ext. intros; apply decodeSegment_toSegment. }
  destruct (Ascii.eqb c slash).
  - change (Js.sliceFrom (String c r) 1) with r.
    destruct r; [reflexivity|]. cbn [Js.isEmpty]. apply Hmap.
  - cbn [Js.isEmpty]. apply Hmap.
Qed.

(** ** Pointer codec *)

Lemma roundToDouble_small (n : N) :
  (n < 2 ^ 53)%N -> Js.roundToDouble n = Finite n.
Proof.
  intros H. unfold Js.roundToDouble.
  apply N.ltb_lt in H. now rewrite H.
Qed.

(** An integer of 1025 bits or more has no finite double. *)
Lemma roundToDouble_huge (n : N) :
  (2 ^ 1024 <= n)%N -> Js.roundToDouble n = Infinity.
Proof.
  intros H. unfold Js.roundToDouble.
  assert (H53 : (2 ^ 53 <= 2 ^ 1024)%N) by (apply N.pow_le_mono_r; lia).
  destruct (N.ltb_spec n (2 ^ 53)) as [Hlt|_].
  { exfalso. apply (N.lt_irrefl n).
    eapply N.lt_le_trans; [exact Hlt|]. now transitivity (2 ^ 1024)%N. }
  cbv zeta.
  set (s := N.size n). set (e := (s - 53)%N).
  assert (Hs : (1025 <= s)%N).
  { destruct (N.le_gt_cases 1025 s) as [|Hc]; [assumption|exfalso].
    pose proof (N.size_gt n) as Hgt. fold s in Hgt.
    assert (Hp : (2 ^ s <= 2 ^ 1024)%N) by (apply N.pow_le_mono_r; lia).
    apply (N.lt_irrefl n).
    eapply N.lt_le_trans; [exact Hgt|]. now transitivity (2 ^ 1024)%N. }
  assert (Hn : (2 ^ (s - 1) <= n)%N).
  { pose proof (N.size_le n) as Hle. fold s in Hle.
    rewrite N.succ_double_spec in Hle.
    replace s with (N.succ (s - 1)) in Hle at 1 by lia.
    rewrite N.pow_succ_r' in Hle. lia. }
  assert (Hsplit : (2 ^ (s - 1) = 2 ^ 52 * 2 ^ e)%N).
  { rewrite <- N.pow_add_r. f_equal. unfold e. lia. }
  assert (Hq : (2 ^ 52 <= N.shiftr n e)%N).
  { rewrite N.shiftr_div_pow2.
    apply N.div_le_lower_bound; [apply N.pow_nonzero; lia|].
    rewrite N.mul_comm, <- Hsplit. exact Hn. }
  assert (Hbig : (2 ^ 1024 <= 2 ^ (s - 1))%N) by (apply N.pow_le_mono_r; lia).
  match goal with
  | |- (if (?a <=? ?v)%N then _ else _) = _ =>
      destruct (N.leb_spec a v) as [|Hc]; [reflexivity|exfalso]
  end.
  revert Hc. rewrite N.shiftl_mul_pow2.
  set (q := N.shiftr n e) in *.
  assert (Hlow : (2 ^ 52 * 2 ^ e <= q * 2 ^ e)%N)
    by (apply N.mul_le_mono_r; exact Hq).
  assert (Hup : (q * 2 ^ e <= (q + 1) * 2 ^ e)%N)
    by (apply N.mul_le_mono_r; lia).
  rewrite <- Hsplit in Hlow.
  match goal with
  | |- context [if ?c then _ else _] => destruct c
  end; intros Hc; apply (N.lt_irrefl (2 ^ 1024)%N).
  - eapply N.le_lt_trans; [|exact Hc].
    transitivity (2 ^ (s - 1))%N; [exact Hbig|].
    now transitivity (q * 2 ^ e)%N.
  - eapply N.le_lt_trans; [|exact Hc].
    now transitivity (2 ^ (s - 1))%N.
Qed.

(** C3, as the code has it. For every pointer string the decoder strips at
    most one leading slash, splits the rest on slashes, unescapes each piece
    ([~1] to [/], then [~0] to [~], so that [~01] gives [~1]) and turns the
    all-digit pieces into the numbers [Number] gives: the integer the digits
    denote while it is below 2^53, a rounded double above (9007199254740993
    becomes 9007199254740992) and [Infinity] from 2^1024 on; the four worked
    pointers decode as listed. *)
Theorem parseJsonPointer_decodes :
  (forall p, parseJsonPointer p = decodeSpec p)
  /\ (forall s, unescapeSegment s = unescapeOnePass s)
  /\ unescapeSegment "~01" = "~1"
  /\ (forall s, (digitsValue s < 2 ^ 53)%N -> Js.Number s = Finite (digitsValue s))
  /\ (forall s, (2 ^ 1024 <= digitsValue s)%N -> Js.Number s = Infinity)
  /\ parseJsonPointer "/9007199254740993" = [SegNum 9007199254740992]
  /\ parseJsonPointer "//a" = [SegStr EmptyString; SegStr "a"]
  /\ parseJsonPointer EmptyString = []
  /\ parseJsonPointer "/a/b" = [SegStr "a"; SegStr "b"]
  /\ parseJsonPointer "/0/1" = [SegNum 0; SegNum 1]
  /\ parseJsonPointer "/a~1b/c~0d" = [SegStr "a/b"; SegStr "c~d"].
Proof.
  split; [exact parseJsonPointer_decodeSpec|].
  split; [exact unescapeSegment_one_pass|].
  split; [reflexivity|].
  split; [intros s; apply roundToDouble_small|].
  split; [intros s; apply roundToDouble_huge|].
  split; [vm_compute; reflexivity|].
  repeat split; reflexivity.
Qed.

Lemma parseJsonPointer_decodes_witness :
  (digitsValue "12" < 2 ^ 53)%N /\ Js.Number "12" = Finite 12.
Proof.
  split; [reflexivity|].
  apply (proj1 (proj2 (proj2 (proj2 parseJsonPointer_decodes))) "12").
  reflexivity.
Defined.

(** C3, as the specification puts it, fails: the segment made of a one and
    309 zeros is all digits, and it decodes to [Infinity], which is no
    integer. *)
Lemma parseJsonPointer_huge_index :
  Js.testDigits ("1" ++ zeros 309) = true
  /\ parseJsonPointer ("/1" ++ zeros 309) = [SegNum Infinity]
  /\ forall n : N, parseJsonPointer ("/1" ++ zeros 309) <> [SegNum (Finite n)].
Proof.
  assert (H : parseJsonPointer ("/1" ++ zeros 309) = [SegNum Infinity])
    by (vm_compute; reflexivity).
  split; [vm_compute; reflexivity|]. split; [exact H|].
  intros n Hn. rewrite H in Hn. discriminate Hn.
Qed.

Lemma whiteSpace_plain (c : ascii) :
  Js.isWhiteSpace c = true ->
  Ascii.eqb c slash = false /\ Ascii.eqb c tilde = false /\ Js.isDigit c = false.
Proof.
  destruct c as [[] [] [] [] [] [] [] []]; cbv; intros H;
    solve [discriminate H | repeat split].
Qed.

Lemma split_lacks (sep : ascii) (s : string) :
  lacks sep s = true -> Js.split sep s = [s].
Proof.
  induction s as [|c r IH]; cbn [lacks Js.split]; intros H; [reflexivity|].
  apply andb_prop in H as [Hc Hr].
  apply negb_true_iff in Hc. rewrite Hc, (IH Hr). reflexivity.
Qed.

Lemma replace2_lacks (a b r : ascii) (s : string) :
  lacks a s = true -> Js.replace2 a b r s = s.
Proof.
  induction s as [|c t IH]; intros H; [reflexivity|].
  cbn [lacks] in H. apply andb_prop in H as [Hc Ht].
  apply negb_true_iff in Hc.
  rewrite replace2_skip by (now rewrite Hc).
  now rewrite (IH Ht).
Qed.

Lemma allWhiteSpace_lacks (s : string) :
  allWhiteSpace s = true -> lacks slash s = true /\ lacks tilde s = true.
Proof.
  induction s as [|c r IH]; cbn [allWhiteSpace lacks]; intros H; [now split|].
  apply andb_prop in H as [Hc Hr].
  destruct (whiteSpace_plain c Hc) as (Hs & Ht & _).
  destruct (IH Hr) as [IHs IHt].
  now rewrite Hs, Ht, IHs, IHt.
Qed.

(** C8, as the code has it. The empty pointer decodes to the empty path; a
    white-space-only pointer is not trimmed and decodes to the one segment
    holding that white space. *)
Theorem parseJsonPointer_blank :
  parseJsonPointer EmptyString = []
  /\ forall p, p <> EmptyString -> allWhiteSpace p = true ->
       parseJsonPointer p = [SegStr p].
Proof.
  split; [reflexivity|].
  intros p Hne Hws.
  destruct (allWhiteSpace_lacks p Hws) as [Hs Ht].
  destruct p as [|c r]; [congruence|].
  cbn [allWhiteSpace] in Hws. apply andb_prop in Hws as [Hc _].
  destruct (whiteSpace_plain c Hc) as (Hcs & _ & Hcd).
  unfold parseJsonPointer. cbn [Js.isEmpty Js.startsWith].
  rewrite Hcs. cbn [Js.isEmpty].
  rewrite (split_lacks _ _ Hs). cbn [map].
  unfold decodeSegment, unescapeSegment.
  rewrite (replace2_lacks tilde "1"%char slash _ Ht).
  rewrite (replace2_lacks tilde "0"%char tilde _ Ht).
  unfold Js.testDigits. cbn [Js.isEmpty Js.allDigits negb].
  rewrite Hcd. reflexivity.
Qed.

Lemma parseJsonPointer_blank_witness :
  " " <> EmptyString /\ allWhiteSpace " " = true
  /\ parseJsonPointer " " = [SegStr " "].
Proof.
  split; [discriminate|]. split; [reflexivity|].
  apply (proj2 parseJsonPointer_blank " "); [discriminate | reflexivity].
Defined.

(** C8, as the specification puts it, fails: the pointer made of one space
    does not decode to the empty path. *)
Lemma parseJsonPointer_space_not_empty :
  allWhiteSpace " " = true /\ parseJsonPointer " " <> [].
Proof. split; [reflexivity | discriminate]. Qed.

(** The decoder returns the empty path for the empty pointer and the lone
    slash only. *)
Lemma parseJsonPointer_nil_iff (p : string) :
  parseJsonPointer p = [] <-> p = EmptyString \/ p = "/".
Proof.
  split.
  - unfold parseJsonPointer.
    destruct p as [|c r]; [now left|].
    cbn [Js.isEmpty Js.startsWith].
    assert (Hsplit : forall s, map decodeSegment (Js.split slash s) <> []).
    { intros [|d s]; cbn [Js.split]; [discriminate|].
      destruct (Ascii.eqb d slash); [discriminate|].
      destruct (Js.split slash s); discriminate. }
    destruct (Ascii.eqb c slash) eqn:Hc.
    + apply ascii_eqb_true in Hc. subst c.
      change (Js.sliceFrom (String slash r) 1) with r.
      destruct r; [now right|]. cbn [Js.isEmpty].
      intros H. now apply Hsplit in H.
    + cbn [Js.isEmpty]. intros H. now apply Hsplit in H.
  - intros [-> | ->]; reflexivity.
Qed.
(** ** Completions *)

Lemma bind_Normal {A B : Type} (c : Completion A) (k : A -> Completion B)
    (b : B) :
  bind c k = Normal b <-> exists a, c = Normal a /\ k a = Normal b.
Proof.
  destruct c as [a|e]; cbn [bind].
  - split; [intros H; now exists a | intros (a' & Ha & Hk); congruence].
  - split; [discriminate | intros (a' & Ha & _); discriminate Ha].
Qed.

Lemma bind_Throw {A B : Type} (c : Completion A) (k : A -> Completion B)
    (e : string) :
  bind c k = Throw e
  <-> c = Throw e \/ exists a, c = Normal a /\ k a = Throw e.
Proof.
  destruct c as [a|e']; cbn [bind].
  - split; [intros H; right; exists a; split; [reflexivity | exact H]|].
    intros [H | (a' & Ha & Hk)]; [discriminate H | congruence].
  - split; [intros H; left; congruence|].
    intros [H | (a' & Ha & _)]; [congruence | discriminate Ha].
Qed.

Lemma found_Normal (c : Completion Uri) (r : option Uri) :
  found c = Normal r <-> exists target, c = Normal target /\ r = Some target.
Proof.
  unfold found. destruct c as [u|e]; cbn [bind].
  - split; [intros H; exists u; split; congruence|].
    intros (t & Ht & ->). congruence.
  - split; [discriminate | intros (t & Ht & _); discriminate Ht].
Qed.

Lemma found_Throw (c : Completion Uri) (e : string) :
  found c = Throw e <-> c = Throw e.
Proof.
  unfold found. destruct c as [u|e']; cbn [bind]; split;
    solve [discriminate | congruence].
Qed.

Lemma gather_app {A B : Type} (f : A -> Completion (list B)) (a b : list A) :
  gather f (a ++ b)%list
  = (x <- gather f a ;; y <- gather f b ;; Normal (x ++ y)%list).
Proof.
  induction a as [|h t IH]; cbn [gather app].
  - cbn [bind]. destruct (gather f b); reflexivity.
  - rewrite IH. destruct (f h) as [here|e]; cbn [bind]; [|reflexivity].
    destruct (gather f t) as [x|e]; cbn [bind]; [|reflexivity].
    destruct (gather f b) as [y|e]; cbn [bind]; [|reflexivity].
    now rewrite app_assoc.
Qed.

Lemma gather_ext {A B : Type} (f g : A -> Completion (list B)) (l : list A) :
  (forall a, f a = g a) -> gather f l = gather g l.
Proof.
  intros H. induction l as [|a l IH]; cbn [gather]; [reflexivity|].
  now rewrite H, IH.
Qed.

(** A run that returns is the concatenation of the findings of its nodes. *)
Lemma gather_Normal {A B : Type} (f : A -> Completion (list B)) (l : list A)
    (found : list B) :
  gather f l = Normal found ->
  forall b, In b found <-> exists a here, In a l /\ f a = Normal here /\ In b here.
Proof.
  revert found. induction l as [|a l IH]; cbn [gather]; intros found H b.
  - injection H as <-. split; [intros [] | intros (a & here & [] & _)].
  - destruct (f a) as [here|e] eqn:Hf; cbn [bind] in H; [|discriminate H].
    destruct (gather f l) as [there|e] eqn:Hg; cbn [bind] in H; [|discriminate H].
    injection H as <-. rewrite in_app_iff, (IH there eq_refl b). split.
    + intros [Hb | (a' & h' & Hin & Hfa & Hb)].
      * exists a, here. split; [now left | now split].
      * exists a', h'. split; [now right | now split].
    + intros (a' & h' & [<- | Hin] & Hfa & Hb).
      * left. congruence.
      * right. now exists a', h'.
Qed.

(** A run throws exactly when one of its nodes does. *)
Lemma gather_Throw {A B : Type} (f : A -> Completion (list B)) (l : list A) :
  (exists e, gather f l = Throw e) <-> exists a e, In a l /\ f a = Throw e.
Proof.
  induction l as [|a l IH]; cbn [gather].
  - split; [intros (e & H); discriminate H | intros (a & e & [] & _)].
  - destruct (f a) as [here|e] eqn:Hf; cbn [bind].
    + destruct (gather f l) as [there|e] eqn:Hg; cbn [bind].
      * split; [intros (e & H); discriminate H|].
        intros (a' & e & [<- | Hin] & Ha); [congruence|].
        destruct (proj2 IH) as (e' & He'); [now exists a', e | discriminate He'].
      * split; [|intros _; now exists e].
        intros _. destruct (proj1 IH) as (a' & e' & Hin & Ha); [now exists e|].
        exists a', e'. split; [now right | exact Ha].
    + split; [|intros _; now exists e].
      intros _. exists a, e. split; [now left | exact Hf].
Qed.

(** The findings of a run are no more than its references, when each node
    gives at most one. *)
Lemma gather_length {A B : Type} (f : A -> Completion (list B))
    (g : A -> bool) (l : list A) (found : list B) :
  (forall a here, f a = Normal here ->
     List.length here <= (if g a then 1 else 0)) ->
  gather f l = Normal found ->
  List.length found <= List.length (filter g l).
Proof.
  intros Hf. revert found.
  induction l as [|a l IH]; cbn [gather filter]; intros found H.
  - injection H as <-. cbn. lia.
  - destruct (f a) as [here|e] eqn:Ha; cbn [bind] in H; [|discriminate H].
    destruct (gather f l) as [there|e] eqn:Hg; cbn [bind] in H; [|discriminate H].
    injection H as <-. rewrite length_app.
    specialize (Hf a here Ha). specialize (IH there eq_refl).
    destruct (g a); cbn [List.length]; lia.
Qed.

(** ** Reference locator *)

Lemma indexOfFrom_lacks (c : ascii) (s : string) (i : Z) :
  lacks c s = true -> Js.indexOfFrom c s i = (-1)%Z.
Proof.
  revert i. induction s as [|d r IH]; intros i H; [reflexivity|].
  cbn [lacks] in H. apply andb_prop in H as [Hd Hr].
  apply negb_true_iff in Hd. cbn [Js.indexOfFrom]. rewrite Hd. now apply IH.
Qed.

Lemma indexOfFrom_first (c : ascii) (a b : string) (i : Z) :
  lacks c a = true ->
  Js.indexOfFrom c (a ++ String c b) i = (i + Z.of_nat (String.length a))%Z.
Proof.
  revert i. induction a as [|d r IH]; intros i H.
  - cbn. rewrite Ascii.eqb_refl. lia.
  - cbn [lacks] in H. apply andb_prop in H as [Hd Hr].
    apply negb_true_iff in Hd.
    cbn [append Js.indexOfFrom String.length]. rewrite Hd, (IH _ Hr). lia.
Qed.

Lemma take_append (a b : string) : Js.take (String.length a) (a ++ b) = a.
Proof. induction a as [|c r IH]; cbn; [now destruct b | now rewrite IH]. Qed.

Lemma drop_append (a b : string) : Js.drop (String.length a) (a ++ b) = b.
Proof. induction a as [|c r IH]; cbn; [reflexivity | exact IH]. Qed.

(** A reference is split at its first [#]. *)
Lemma split_at_first_hash (a b : string) :
  lacks "#"%char a = true ->
  filePartOf (a ++ "#" ++ b) = a /\ pointerPartOf (a ++ "#" ++ b) = b.
Proof.
  intros Ha. unfold filePartOf, pointerPartOf, hashIndexOf, Js.indexOf.
  change ("#" ++ b) with (String "#"%char b).
  rewrite (indexOfFrom_first _ _ _ _ Ha). cbn [Z.add].
  assert (Hge : (Z.of_nat (String.length a) >=? 0)%Z = true)
    by (apply Z.geb_le; lia).
  rewrite Hge. unfold Js.slice, Js.sliceFrom.
  rewrite Z.sub_0_r, Nat2Z.id. change (Z.to_nat 0) with 0%nat.
  cbn [Js.drop]. split; [apply take_append|].
  replace (Z.to_nat (Z.of_nat (String.length a) + 1)) with (S (String.length a)) by lia.
  change (S (String.length a)) with (String.length (String "#"%char a)).
  clear. induction a as [|c r IH]; [reflexivity | exact IH].
Qed.

(** Without a [#] the whole reference is the file part. *)
Lemma split_without_hash (t : string) :
  lacks "#"%char t = true -> filePartOf t = t /\ pointerPartOf t = EmptyString.
Proof.
  intros Ht. unfold filePartOf, pointerPartOf, hashIndexOf, Js.indexOf.
  rewrite (indexOfFrom_lacks _ _ _ Ht). now split.
Qed.

Lemma filePartOf_lacks_hash (t : string) : lacks "#"%char (filePartOf t) = true.
Proof.
  unfold filePartOf, hashIndexOf, Js.indexOf.
  assert (H : forall s i, (0 <= i)%Z ->
            let h := Js.indexOfFrom "#"%char s i in
            (h = (-1)%Z /\ lacks "#"%char s = true)
            \/ ((i <= h)%Z /\ lacks "#"%char (Js.take (Z.to_nat (h - i)) s) = true)).
  { induction s as [|d r IH]; intros i Hi; cbn [Js.indexOfFrom].
    - left. now split.
    - destruct (Ascii.eqb d "#"%char) eqn:Hd.
      + right. split; [lia|]. rewrite Z.sub_diag. reflexivity.
      + destruct (IH (i + 1)%Z ltac:(lia)) as [[Hh Hl] | [Hh Hl]].
        * left. split; [exact Hh|]. cbn [lacks]. now rewrite Hd, Hl.
        * right. split; [lia|].
          replace (Z.to_nat (Js.indexOfFrom "#"%char r (i + 1) - i))
            with (S (Z.to_nat (Js.indexOfFrom "#"%char r (i + 1) - (i + 1)))) by lia.
          cbn [Js.take lacks]. now rewrite Hd, Hl. }
  destruct (H t 0%Z ltac:(lia)) as [[Hh Hl] | [Hh Hl]].
  - rewrite Hh. exact Hl.
  - cbv zeta in Hh, Hl.
    assert (Hge : (Js.indexOfFrom "#"%char t 0 >=? 0)%Z = true)
      by (apply Z.geb_le; lia).
    rewrite Hge. unfold Js.slice. change (Z.to_nat 0) with 0%nat.
    cbn [Js.drop]. exact Hl.
Qed.

Section LocatorFacts.
Context {P : Platform}.

Lemma resolveUri_empty (document : TextDocument) :
  resolveUri document EmptyString = Normal (Some (uri document)).
Proof. reflexivity. Qed.

(** A [scheme://] text is parsed, and only the scheme [file] is taken. *)
Lemma resolveUri_scheme (document : TextDocument) (filePart : string) :
  matchesUriScheme filePart = true ->
  resolveUri document filePart
  = (parsed <- Uri_parse filePart ;;
     Normal (if String.eqb (scheme parsed) "file" then Some parsed else None)).
Proof.
  intros Hs. unfold resolveUri.
  destruct filePart; [discriminate Hs|]. cbn [Js.isEmpty]. now rewrite Hs.
Qed.

(** Any other file part is a path handed to [Uri.file]. *)
Lemma resolveUri_path (document : TextDocument) (filePart : string) :
  filePart <> EmptyString -> matchesUriScheme filePart = false ->
  resolveUri document filePart = found (Uri_file (pathTaken document filePart)).
Proof.
  intros Hne Hs. unfold resolveUri, pathTaken, found.
  destruct filePart; [congruence|]. cbn [Js.isEmpty]. rewrite Hs.
  destruct (path_isAbsolute _); [reflexivity|]. cbn [orb].
  destruct (matchesWindowsDrive _); reflexivity.
Qed.

Lemma resolveUri_None_iff (document : TextDocument) (filePart : string) :
  resolveUri document filePart = Normal None
  <-> matchesUriScheme filePart = true
      /\ exists parsed, Uri_parse filePart = Normal parsed
                        /\ scheme parsed <> "file".
Proof.
  destruct filePart as [|c r].
  - split; [discriminate | intros [H _]; discriminate H].
  - assert (Hne : String c r <> EmptyString) by discriminate.
    destruct (matchesUriScheme (String c r)) eqn:Hs.
    + rewrite (resolveUri_scheme _ _ Hs).
      destruct (Uri_parse (String c r)) as [parsed|e]; cbn [bind].
      * destruct (String.eqb_spec (scheme parsed) "file") as [He|Hn].
        -- split; [discriminate|]. intros (_ & p & Hp & Hn).
           injection Hp as <-. contradiction.
        -- split; [intros _; split; [reflexivity | now exists parsed]
                  | reflexivity].
      * split; [discriminate|]. intros (_ & p & Hp & _). discriminate Hp.
    + rewrite (resolveUri_path _ _ Hne Hs).
      split; [|intros [H _]; discriminate H].
      intros H. apply found_Normal in H as (t & _ & Ht). discriminate Ht.
Qed.

Lemma resolveUri_Throw_iff (document : TextDocument) (filePart e : string) :
  resolveUri document filePart = Throw e
  <-> filePart <> EmptyString
      /\ (if matchesUriScheme filePart then Uri_parse filePart
          else Uri_file (pathTaken document filePart)) = Throw e.
Proof.
  destruct filePart as [|c r].
  - split; [discriminate | intros [H _]; congruence].
  - assert (Hne : String c r <> EmptyString) by discriminate.
    destruct (matchesUriScheme (String c r)) eqn:Hs.
    + rewrite (resolveUri_scheme _ _ Hs).
      destruct (Uri_parse (String c r)) as [parsed|e']; cbn [bind].
      * split; [discriminate | intros [_ H]; discriminate H].
      * split; [intros H; split; [exact Hne | congruence] | intros [_ H]; congruence].
    + rewrite (resolveUri_path _ _ Hne Hs), found_Throw.
      split; [intros H; split; [exact Hne | exact H] | intros [_ H]; exact H].
Qed.

Lemma resolveUri_absolute (document : TextDocument) (filePart : string) :
  matchesUriScheme filePart = false -> path_isAbsolute filePart = true ->
  filePart <> EmptyString ->
  resolveUri document filePart = found (Uri_file filePart).
Proof.
  intros Hs Ha Hne. rewrite (resolveUri_path _ _ Hne Hs).
  unfold pathTaken. now rewrite Ha.
Qed.

Lemma drive_not_scheme (filePart : string) :
  matchesWindowsDrive filePart = true ->
  String.prefix "://" (Js.drop 1 filePart) = false ->
  matchesUriScheme filePart = false.
Proof.
  intros Hd Hp.
  destruct filePart as [|c [|d [|e r]]]; try discriminate Hd.
  cbn [matchesUriScheme matchesWindowsDrive] in *.
  apply andb_prop in Hd as [Hd _]. apply andb_prop in Hd as [Hc Hd].
  apply ascii_eqb_true in Hd. subst d.
  rewrite Hc. cbn [andb schemeTail]. exact Hp.
Qed.

Lemma resolveUri_drive (document : TextDocument) (filePart : string) :
  matchesWindowsDrive filePart = true ->
  String.prefix "://" (Js.drop 1 filePart) = false ->
  resolveUri document filePart = found (Uri_file filePart).
Proof.
  intros Hd Hp.
  rewrite (resolveUri_path document filePart).
  - unfold pathTaken. rewrite Hd. now rewrite orb_true_r.
  - destruct filePart; [discriminate Hd | discriminate].
  - now apply drive_not_scheme.
Qed.

Lemma resolveUri_relative (document : TextDocument) (filePart : string) :
  filePart <> EmptyString -> matchesUriScheme filePart = false ->
  path_isAbsolute filePart = false -> matchesWindowsDrive filePart = false ->
  resolveUri document filePart
  = found (Uri_file (path_resolve (path_dirname (fsPath (uri document))) filePart)).
Proof.
  intros Hne Hs Ha Hd. rewrite (resolveUri_path _ _ Hne Hs).
  unfold pathTaken. now rewrite Ha, Hd.
Qed.

End LocatorFacts.

Lemma posix_form_not_scheme (filePart : string) :
  Js.startsWith slash filePart = true -> matchesUriScheme filePart = false.
Proof.
  destruct filePart as [|c r]; [discriminate|]. cbn [Js.startsWith].
  intros H. apply ascii_eqb_true in H. subst c. reflexivity.
Qed.

(** On the POSIX host [Uri.file] takes every path that starts with one
    slash only as it is, and refuses one that starts with four. *)
Lemma posix_file_plain (p : string) :
  Js.startsWith slash p = true -> String.prefix "//" p = false ->
  Posix.file p = Normal (Posix.fileUri p).
Proof.
  intros Hs Hp. unfold Posix.file. rewrite Hp.
  unfold Posix.construct. cbn [Js.isEmpty].
  destruct p as [|c r]; [discriminate Hs|].
  cbn [Js.startsWith] in Hs. apply ascii_eqb_true in Hs. subst c.
  change (Posix.referenceResolution "file" (String slash r)) with (String slash r).
  change (negb (Posix.schemeLegal "file")) with false. cbv iota.
  cbn [negb]. rewrite Hp. reflexivity.
Qed.

Lemma posix_file_four_slashes (r : string) :
  Posix.file ("////" ++ r) = Throw Posix.doubleSlashError.
Proof. destruct r; reflexivity. Qed.

(** [Uri.parse] decodes the escapes of path and fragment, and the [Uri]
    constructor refuses a scheme with a character outside its class. *)
Example posix_parse_decodes :
  Posix.parse "file:///work/b%20c.json#/a%2Fb"
  = Normal (mkUri "file" EmptyString "/work/b c.json" EmptyString "/a/b").
Proof. reflexivity. Qed.

Example posix_parse_refuses_path :
  Posix.parse "file:////x.json" = Throw Posix.doubleSlashError.
Proof. reflexivity. Qed.

Example posix_construct_refuses_scheme :
  Posix.construct "a b" EmptyString "/x" EmptyString EmptyString
  = Throw Posix.illegalSchemeError.
Proof. reflexivity. Qed.

(** ** Trees *)

(** Induction on a tree, with the property available for every child. *)
Lemma Node_induction (Q : Node -> Prop) :
  (forall t v o l cs, Forall Q cs -> Q (mkNode t v o l cs)) ->
  forall n, Q n.
Proof.
  intros step.
  fix self 1. intros [t v o l cs]. apply step.
  induction cs as [|c cs IH]; constructor; [apply self | exact IH].
Qed.

(** ** Reference scanner *)

Section ScannerFacts.
Context {P : Platform} {E : Editor} {W : Workspace}.

(** [validateReference] appends the finding of the classification, if any,
    and throws when the classification does. *)
Lemma validateReference_classify (document : TextDocument) (node : Node)
    (raw : string) (diagnostics : list Diagnostic) :
  validateReference document node raw diagnostics
  = (message <- classify document raw ;;
     Normal (diagnostics
             ++ match message with
                | None => []
                | Some msg => [mkDiagnostic (nodeRange document node) msg Error]
                end)%list).
Proof.
  unfold validateReference, classify, filePartOf, pointerPartOf, hashIndexOf.
  cbv zeta.
  destruct (resolveUri document _) as [[target|]|e]; cbn [bind];
    [|reflexivity|reflexivity].
  destruct (openTextDocument target) as [targetDoc|].
  - destruct (if (Js.indexOf "#"%char (Js.trim raw) >=? 0)%Z
              then Js.sliceFrom (Js.trim raw) (Js.indexOf "#"%char (Js.trim raw) + 1)
              else EmptyString) as [|c r] eqn:Hp; cbn [Js.isEmpty negb].
    + now rewrite app_nil_r.
    + destruct (findTargetNode targetDoc _); [now rewrite app_nil_r | reflexivity].
  - unfold fileNotFoundMessage.
    destruct (if (Js.indexOf "#"%char (Js.trim raw) >=? 0)%Z
              then Js.slice (Js.trim raw) 0 (Js.indexOf "#"%char (Js.trim raw))
              else Js.trim raw); reflexivity.
Qed.

(** The check of one node appends the findings of that node. *)
Lemma checkNode_findingsAt (document : TextDocument) (node : Node)
    (diagnostics : list Diagnostic) :
  checkNode document node diagnostics
  = (here <- findingsAt document node ;; Normal (diagnostics ++ here)%list).
Proof.
  unfold checkNode, findingsAt, referenceOf.
  destruct (type node), (child node 0) as [keyNode|],
    (child node 1) as [valueNode|];
    cbn [NodeType_eqb andb valueIs bind]; try now rewrite app_nil_r.
  all: destruct (value keyNode) as [[k| | |]|]; cbn [valueIs bind];
    try now rewrite app_nil_r.
  all: destruct (String.eqb k "$ref"); cbn [andb bind];
    try now rewrite app_nil_r.
  all: destruct (type valueNode); cbn [NodeType_eqb bind];
    try now rewrite app_nil_r.
  destruct (Js.trim (stringOfValue (value valueNode))) eqn:Ht;
    cbn [Js.isEmpty negb String.eqb bind]; [now rewrite app_nil_r|].
  rewrite validateReference_classify.
  destruct (classify document _) as [[msg|]|e]; reflexivity.
Qed.

(** The recursive walk appends the findings of the nodes in pre-order, up
    to the first throw. *)
Lemma findAllRefs_preorder (document : TextDocument) (node : Node) :
  forall diagnostics,
    findAllRefs document node diagnostics
    = (rest <- gather (findingsAt document) (preorder node) ;;
       Normal (diagnostics ++ rest)%list).
Proof.
  induction node as [t v o l cs IH] using Node_induction.
  intros diagnostics.
  cbn [findAllRefs preorder gather].
  rewrite checkNode_findingsAt.
  destruct (findingsAt document (mkNode t v o l cs)) as [here|e];
    cbn [bind]; [|reflexivity].
  match goal with
  | |- _ = bind (bind ?g _) _ =>
      transitivity
        (bind g (fun there => Normal ((diagnostics ++ here) ++ there)%list))
  end.
  2: { destruct (gather _ _); cbn [bind]; [now rewrite app_assoc | reflexivity]. }
  generalize (diagnostics ++ here)%list as ds.
  induction IH as [|c cs' Hc _ IHcs]; intros ds.
  - cbn [gather bind]. now rewrite app_nil_r.
  - rewrite Hc, gather_app.
    destruct (gather (findingsAt document) (preorder c)) as [x|e];
      cbn [bind]; [|reflexivity].
    rewrite IHcs.
    destruct (gather (findingsAt document) _) as [y|e]; cbn [bind];
      [now rewrite app_assoc | reflexivity].
Qed.

(** The scan is the run over the tree in pre-order. *)
Lemma validateDocument_scanSpec (document : TextDocument) :
  validateDocument document = scanSpec document.
Proof.
  unfold validateDocument, scanSpec. cbv zeta.
  destruct (parseTree (getText document)) as [root|]; [|reflexivity].
  rewrite (findAllRefs_preorder document root []).
  destruct (gather _ _); reflexivity.
Qed.

Lemma findingsAt_length (document : TextDocument) (node : Node)
    (here : list Diagnostic) :
  findingsAt document node = Normal here -> List.length here <= 1.
Proof.
  unfold findingsAt.
  destruct (referenceOf node) as [[valueNode raw]|].
  - destruct (classify document raw) as [[msg|]|e]; cbn [bind]; intros H;
      try discriminate H; injection H as <-; cbn; lia.
  - intros H. injection H as <-. cbn. lia.
Qed.

End ScannerFacts.

(** C1. The scan of [{"$ref":"file:////x.json"}] on the POSIX host. The text
    parses and its one reference has the file part [file:////x.json], which
    matches the scheme pattern and which [Uri.parse] refuses with a
    [UriError]. [resolveUri] lets the error through and [validateReference]
    calls it outside its [try], so the scan throws where the specification
    has the finding [Cannot resolve reference], and no list is set for the
    document. *)
Theorem validateDocument_throws_on_refused_uri :
  parseTree (Editor := Fixture.editor) (getText Fixture.docU) = Some Fixture.treeU
  /\ filePartOf (Js.trim "file:////x.json") = "file:////x.json"
  /\ matchesUriScheme "file:////x.json" = true
  /\ Uri_parse (Platform := Fixture.platform) "file:////x.json"
     = Throw Posix.doubleSlashError
  /\ validateDocument (P := Fixture.platform) (E := Fixture.editor)
       (W := Fixture.workspace) Fixture.docU
     = Throw Posix.doubleSlashError
  /\ validateDocument (P := Fixture.platform) (E := Fixture.editor)
       (W := Fixture.workspace) Fixture.docU
     <> Normal [mkDiagnostic
                  (mkRange (mkPosition 0 8) (mkPosition 0 25))
                  ("Cannot resolve reference: " ++ Fixture.q "file:////x.json")
                  Error]
  /\ forall c,
       publishDiagnostics (P := Fixture.platform) (E := Fixture.editor)
         (W := Fixture.workspace) Fixture.docU c = c.
Proof.
  repeat split; try reflexivity. discriminate.
Qed.

Section ScanRuns.
#[local] Existing Instance Fixture.platform.
#[local] Existing Instance Fixture.editor.
#[local] Existing Instance Fixture.workspace.

(** The end-to-end scenarios: a missing file, a pointer that names nothing,
    and a reference that resolves. *)
Example scan_missing_file :
  validateDocument Fixture.docM
  = Normal [mkDiagnostic (mkRange (mkPosition 0 8) (mkPosition 0 24))
              ("File not found: " ++ Fixture.q "./missing.json") Error].
Proof. reflexivity. Qed.

Example scan_invalid_pointer :
  validateDocument Fixture.docN
  = Normal [mkDiagnostic (mkRange (mkPosition 0 8) (mkPosition 0 16))
              ("Invalid JSON pointer: " ++ Fixture.q "#/nope") Error].
Proof. reflexivity. Qed.

Example scan_valid_reference : validateDocument Fixture.docA = Normal [].
Proof. reflexivity. Qed.

(** A remote reference, and a fragment-only reference in a document that
    cannot be loaded. *)
Example scan_remote_reference :
  validateReference Fixture.docA Fixture.refA "http://example.com/s.json" []
  = Normal [mkDiagnostic (mkRange (mkPosition 0 8) (mkPosition 0 19))
              ("Cannot resolve reference: " ++ Fixture.q "http://example.com/s.json")
              Error].
Proof. reflexivity. Qed.

Example scan_current_file :
  validateReference docBroken Fixture.refA " #/x" []
  = Normal [mkDiagnostic (mkRange (mkPosition 0 0) (mkPosition 0 0))
              ("File not found: " ++ Fixture.q "current file") Error].
Proof. reflexivity. Qed.

End ScanRuns.

Section Determinism.
Context {P : Platform} {E : Editor}.
Variables W1 W2 : Workspace.
Hypothesis same_responses : forall u,
  option_map getText (openTextDocument (Workspace := W1) u)
  = option_map getText (openTextDocument (Workspace := W2) u).

Lemma resolveUri_same_uri (d1 d2 : TextDocument) (filePart : string) :
  uri d1 = uri d2 -> resolveUri d1 filePart = resolveUri d2 filePart.
Proof. intros H. unfold resolveUri. now rewrite H. Qed.

Lemma classify_same (d1 d2 : TextDocument) (raw : string) :
  uri d1 = uri d2 ->
  classify (W := W1) d1 raw = classify (W := W2) d2 raw.
Proof.
  intros Hu. unfold classify. cbv zeta.
  rewrite (resolveUri_same_uri d1 d2 _ Hu).
  destruct (resolveUri d2 _) as [[target|]|e]; cbn [bind];
    [|reflexivity|reflexivity].
  specialize (same_responses target).
  destruct (openTextDocument (Workspace := W1) target) as [t1|],
           (openTextDocument (Workspace := W2) target) as [t2|];
    cbn in same_responses; try discriminate; [|reflexivity].
  unfold findTargetNode. injection same_responses as ->. reflexivity.
Qed.

Lemma findingsAt_same (d1 d2 : TextDocument) (node : Node) :
  getText d1 = getText d2 -> uri d1 = uri d2 ->
  findingsAt (W := W1) d1 node = findingsAt (W := W2) d2 node.
Proof.
  intros Ht Hu. unfold findingsAt, nodeRange.
  destruct (referenceOf node) as [[valueNode raw]|]; [|reflexivity].
  now rewrite (classify_same d1 d2 raw Hu), Ht.
Qed.

End Determinism.

(** C9. Two runs of the scan over documents of the same text and identity,
    against loaders that answer every load alike (the same texts, the same
    failures), return the same list of findings: the same messages and
    ranges in the same order. *)
Theorem validateDocument_deterministic {P : Platform} {E : Editor}
    (W1 W2 : Workspace) (d1 d2 : TextDocument) :
  getText d1 = getText d2 -> uri d1 = uri d2 ->
  (forall u, option_map getText (openTextDocument (Workspace := W1) u)
             = option_map getText (openTextDocument (Workspace := W2) u)) ->
  validateDocument (W := W1) d1 = validateDocument (W := W2) d2.
Proof.
  intros Ht Hu Hw.
  rewrite !validateDocument_scanSpec. unfold scanSpec. rewrite <- Ht.
  destruct (parseTree (getText d1)) as [root|]; [|reflexivity].
  apply gather_ext. intros node.
  now apply findingsAt_same.
Qed.

Lemma validateDocument_deterministic_witness :
  validateDocument (P := Fixture.platform) (E := Fixture.editor)
    (W := Fixture.workspace) Fixture.docN
  = validateDocument (P := Fixture.platform) (E := Fixture.editor)
      (W := workspaceLater) (later Fixture.docN)
  /\ validateDocument (P := Fixture.platform) (E := Fixture.editor)
       (W := Fixture.workspace) Fixture.docN <> Normal [].
Proof.
  split; [|discriminate].
  apply (validateDocument_deterministic (P := Fixture.platform)
           (E := Fixture.editor) Fixture.workspace workspaceLater
           Fixture.docN (later Fixture.docN)).
  - reflexivity.
  - reflexivity.
  - intros u. cbn [openTextDocument workspaceLater].
    destruct (openTextDocument u); reflexivity.
Defined.

Section ScanThrows.
Context {P : Platform} {E : Editor} {W : Workspace}.

(** A node throws exactly when it bears a reference on whose file part the
    locator throws. *)
Lemma findingsAt_Throw (document : TextDocument) (node : Node) (e : string) :
  findingsAt document node = Throw e
  <-> exists valueNode raw,
        referenceOf node = Some (valueNode, raw)
        /\ resolveUri document (filePartOf (Js.trim raw)) = Throw e.
Proof.
  unfold findingsAt.
  destruct (referenceOf node) as [[valueNode raw]|].
  - unfold classify. cbv zeta.
    destruct (resolveUri document _) as [located|e'] eqn:Hr; cbn [bind].
    + split; [discriminate|].
      intros (v & r & [= <- <-] & H). congruence.
    + split.
      * intros [= ->]. now exists valueNode, raw.
      * intros (v & r & [= <- <-] & H). congruence.
  - split; [discriminate | intros (v & r & H & _); discriminate H].
Qed.

End ScanThrows.

(** X17. The scan as a whole. It returns no finding for a text that does not
    parse; otherwise it runs over the nodes of the tree in depth-first
    pre-order, where a node gives a finding only as a [$ref] property with a
    non-blank string value, and then at most one: the message of [classify]
    (cannot resolve, file not found, invalid pointer, or none) on the range
    of the value node. It throws exactly when the locator throws on the file
    part of one of these references. The messages read as in the four runs:
    a remote reference, a fragment in a file that cannot be loaded, a missing
    file and a pointer that names nothing. *)
Theorem validateDocument_findings {P : Platform} {E : Editor} {W : Workspace}
    (document : TextDocument) :
  validateDocument document
  = match parseTree (getText document) with
    | None => Normal []
    | Some root => gather (findingsAt document) (preorder root)
    end
  /\ (forall node here,
        findingsAt document node = Normal here -> List.length here <= 1)
  /\ ((exists e, validateDocument document = Throw e)
      <-> exists root node valueNode raw e,
            parseTree (getText document) = Some root
            /\ In node (preorder root)
            /\ referenceOf node = Some (valueNode, raw)
            /\ resolveUri document (filePartOf (Js.trim raw)) = Throw e)
  /\ validateReference (P := Fixture.platform) (E := Fixture.editor)
       (W := Fixture.workspace) Fixture.docA Fixture.refA
       "http://example.com/s.json" []
     = Normal [mkDiagnostic (mkRange (mkPosition 0 8) (mkPosition 0 19))
                 ("Cannot resolve reference: " ++ Fixture.q "http://example.com/s.json")
                 Error]
  /\ validateReference (P := Fixture.platform) (E := Fixture.editor)
       (W := Fixture.workspace) docBroken Fixture.refA " #/x" []
     = Normal [mkDiagnostic (mkRange (mkPosition 0 0) (mkPosition 0 0))
                 ("File not found: " ++ Fixture.q "current file") Error]
  /\ validateDocument (P := Fixture.platform) (E := Fixture.editor)
       (W := Fixture.workspace) Fixture.docM
     = Normal [mkDiagnostic (mkRange (mkPosition 0 8) (mkPosition 0 24))
                 ("File not found: " ++ Fixture.q "./missing.json") Error]
  /\ validateDocument (P := Fixture.platform) (E := Fixture.editor)
       (W := Fixture.workspace) Fixture.docN
     = Normal [mkDiagnostic (mkRange (mkPosition 0 8) (mkPosition 0 16))
                 ("Invalid JSON pointer: " ++ Fixture.q "#/nope") Error].
Proof.
  split; [apply validateDocument_scanSpec|].
  split; [intros node here; apply findingsAt_length|].
  split; [|repeat split; reflexivity].
  rewrite validateDocument_scanSpec. unfold scanSpec.
  destruct (parseTree (getText document)) as [root|].
  - rewrite gather_Throw. split.
    + intros (node & e & Hin & Hf).
      apply findingsAt_Throw in Hf as (valueNode & raw & Href & Hr).
      now exists root, node, valueNode, raw, e.
    + intros (root' & node & valueNode & raw & e & [= <-] & Hin & Href & Hr).
      exists node, e. split; [exact Hin|].
      apply findingsAt_Throw. now exists valueNode, raw.
  - split; [intros (e & H); discriminate H|].
    intros (root & node & valueNode & raw & e & H & _). discriminate H.
Qed.

Lemma validateDocument_findings_witness :
  (exists e,
     validateDocument (P := Fixture.platform) (E := Fixture.editor)
       (W := Fixture.workspace) Fixture.docU = Throw e)
  /\ exists here,
       findingsAt (P := Fixture.platform) (E := Fixture.editor)
         (W := Fixture.workspace) Fixture.docN
         (Fixture.propNode Fixture.keyA (Fixture.strNode 8 "#/nope"))
       = Normal here
       /\ List.length here <= 1.
Proof.
  split.
  - apply (proj1 (proj2 (proj2 (validateDocument_findings
             (P := Fixture.platform) (E := Fixture.editor)
             (W := Fixture.workspace) Fixture.docU)))).
    exists Fixture.treeU, (Fixture.propNode Fixture.keyA Fixture.refU),
      Fixture.refU, "file:////x.json", Posix.doubleSlashError.
    repeat split. right. now left.
  - eexists. split; [reflexivity|].
    apply (proj1 (proj2 (validateDocument_findings
             (P := Fixture.platform) (E := Fixture.editor)
             (W := Fixture.workspace) Fixture.docN))
             (Fixture.propNode Fixture.keyA (Fixture.strNode 8 "#/nope"))).
    reflexivity.
Defined.

(** ** The outcomes of the locator *)

(** C5. The locator on the POSIX host, for a base document at
    [/work/a.json]. The file part [file:////x.json] matches the scheme
    pattern and is a malformed URI: [Uri.parse] refuses it with a
    [UriError], and the locator throws where the specification has
    Unresolvable. The file part [////x.json] is an absolute path: [Uri.file]
    refuses it, and the locator throws where the specification has a
    target. *)
Theorem resolveUri_throws_on_refused_uri :
  matchesUriScheme "file:////x.json" = true
  /\ Uri_parse (Platform := Fixture.platform) "file:////x.json"
     = Throw Posix.doubleSlashError
  /\ resolveUri (P := Fixture.platform) Fixture.docA "file:////x.json"
     = Throw Posix.doubleSlashError
  /\ resolveUri (P := Fixture.platform) Fixture.docA "file:////x.json"
     <> Normal None
  /\ matchesUriScheme "////x.json" = false
  /\ resolveUri (P := Fixture.platform) Fixture.docA "////x.json"
     = Throw Posix.doubleSlashError
  /\ forall target,
       resolveUri (P := Fixture.platform) Fixture.docA "////x.json"
       <> Normal (Some target).
Proof.
  repeat split; try reflexivity; try discriminate.
Qed.

(** C6. The reference [////x.json#/x] on the POSIX host, for a base
    document at [/work/a.json]: split at its first [#], the file part
    [////x.json] is an absolute path of the POSIX form, which [Uri.file]
    refuses with a [UriError]; the locator throws where the specification
    has the identity of that path, and so it does on every path that starts
    with four slashes. The path [/x.json], which names the same file, has
    its identity. *)
Theorem resolveUri_absolute_path_refused :
  filePartOf (Js.trim "////x.json#/x") = "////x.json"
  /\ pointerPartOf (Js.trim "////x.json#/x") = "/x"
  /\ path_isAbsolute (Platform := Fixture.platform) "////x.json" = true
  /\ Uri_file (Platform := Fixture.platform) "////x.json"
     = Throw Posix.doubleSlashError
  /\ resolveUri (P := Fixture.platform) Fixture.docA
       (filePartOf (Js.trim "////x.json#/x"))
     = Throw Posix.doubleSlashError
  /\ (forall rest,
        resolveUri (P := Fixture.platform) Fixture.docA ("////" ++ rest)
        = Throw Posix.doubleSlashError)
  /\ resolveUri (P := Fixture.platform) Fixture.docA "/x.json"
     = Normal (Some (Posix.fileUri "/x.json")).
Proof.
  repeat split; try reflexivity.
  intros rest.
  rewrite (resolveUri_absolute (P := Fixture.platform));
    [|reflexivity|reflexivity|discriminate].
  cbn [Uri_file Fixture.platform Posix.platform].
  now rewrite posix_file_four_slashes.
Qed.

(** X19. The outcomes of the locator. It gives no target exactly when the file
    part matches the scheme pattern and parses to a scheme other than
    [file]; it throws exactly when the file part is not empty and the [Uri]
    call it makes throws; every other file part resolves to a target,
    whatever the workspace holds. A target that then fails to load is
    reported by the scan as a file not found, and gives no lookup result. *)
Theorem resolveUri_outcomes {P : Platform} {E : Editor} {W : Workspace}
    (document : TextDocument) (filePart : string) :
  (resolveUri document filePart = Normal None
   <-> matchesUriScheme filePart = true
       /\ exists parsed, Uri_parse filePart = Normal parsed
                         /\ scheme parsed <> "file")
  /\ (forall e,
        resolveUri document filePart = Throw e
        <-> filePart <> EmptyString
            /\ (if matchesUriScheme filePart then Uri_parse filePart
                else Uri_file (pathTaken document filePart)) = Throw e)
  /\ (forall target,
        resolveUri document filePart = Normal (Some target)
        <-> (filePart = EmptyString /\ target = uri document)
            \/ (matchesUriScheme filePart = true
                /\ Uri_parse filePart = Normal target
                /\ scheme target = "file")
            \/ (filePart <> EmptyString /\ matchesUriScheme filePart = false
                /\ Uri_file (pathTaken document filePart) = Normal target))
  /\ (forall target node raw diagnostics,
        filePart = filePartOf (Js.trim raw) ->
        resolveUri document filePart = Normal (Some target) ->
        openTextDocument target = None ->
        validateReference document node raw diagnostics
        = Normal (diagnostics
                  ++ [mkDiagnostic (nodeRange document node)
                        (fileNotFoundMessage filePart) Error])%list
        /\ resolveTargetDocument document raw = Normal None).
Proof.
  split; [apply resolveUri_None_iff|].
  split; [intros e; apply resolveUri_Throw_iff|].
  split.
  - intros target. destruct filePart as [|c r].
    + rewrite resolveUri_empty. split.
      * intros [= <-]. left. now split.
      * intros [[_ ->] | [(H & _) | (H & _)]];
          [reflexivity | discriminate H | congruence].
    + assert (Hne : String c r <> EmptyString) by discriminate.
      destruct (matchesUriScheme (String c r)) eqn:Hs.
      * rewrite (resolveUri_scheme _ _ Hs).
        destruct (Uri_parse (String c r)) as [parsed|e]; cbn [bind].
        -- destruct (String.eqb_spec (scheme parsed) "file") as [He|Hn]; split.
           ++ intros [= <-]. right. left. repeat split. exact He.
           ++ intros [[H _] | [(_ & H & _) | (_ & H & _)]];
                [discriminate H | congruence | discriminate H].
           ++ discriminate.
           ++ intros [[H _] | [(_ & H & Hf) | (_ & H & _)]];
                [discriminate H | | discriminate H].
              injection H as <-. contradiction.
        -- split; [discriminate|].
           intros [[H _] | [(_ & H & _) | (_ & H & _)]]; discriminate H.
      * rewrite (resolveUri_path _ _ Hne Hs), found_Normal. split.
        -- intros (t & Ht & [= ->]). right. right. now repeat split.
        -- intros [[H _] | [(H & _) | (_ & _ & H)]];
             [discriminate H | discriminate H |].
           now exists target.
  - intros target node raw diagnostics -> Hr Ho. split.
    + rewrite validateReference_classify. unfold classify. cbv zeta.
      rewrite Hr. cbn [bind]. now rewrite Ho.
    + unfold resolveTargetDocument. cbv zeta.
      unfold filePartOf, hashIndexOf in Hr. cbv zeta in Hr.
      rewrite Hr. cbn [bind]. now rewrite Ho.
Qed.

Lemma resolveUri_outcomes_witness :
  resolveUri (P := Fixture.platform) Fixture.docM "./missing.json"
  = Normal (Some (Posix.fileUri "/work/missing.json"))
  /\ resolveTargetDocument (P := Fixture.platform) (E := Fixture.editor)
       (W := Fixture.workspace) Fixture.docM "./missing.json" = Normal None.
Proof.
  pose proof (resolveUri_outcomes
                (P := Fixture.platform) (E := Fixture.editor)
                (W := Fixture.workspace) Fixture.docM "./missing.json") as H.
  split.
  - apply (proj1 (proj2 (proj2 H))). right. right.
    split; [discriminate | split; reflexivity].
  - apply (proj2 (proj2 (proj2 H)) (Posix.fileUri "/work/missing.json")
             Fixture.treeM "./missing.json" []); reflexivity.
Defined.

Example remote_reference_unresolvable :
  resolveUri (P := Fixture.platform) Fixture.docA "http://example.com/s.json"
  = Normal None.
Proof. reflexivity. Qed.

(** X20. The file parts. A trimmed reference is split at its first [#]. The
    empty file part yields the base document's own identity; a path the host
    takes as absolute, and a Windows drive-letter path that does not read as
    [X://], are handed to [Uri.file] as they are; any other file part that
    is no [scheme://] text is resolved against the directory of the base
    document first. On the POSIX host a path that starts with one slash only
    yields its identity. For the base document at [/work/a.json],
    [b.json#/x] gives [/work/b.json] with the path [x], and [#/x] gives the
    base document itself. *)
Theorem resolveUri_file_parts :
  (forall a b, lacks "#"%char a = true ->
     filePartOf (a ++ "#" ++ b) = a /\ pointerPartOf (a ++ "#" ++ b) = b)
  /\ (forall t, lacks "#"%char t = true ->
        filePartOf t = t /\ pointerPartOf t = EmptyString)
  /\ (forall (P : Platform) document,
        resolveUri document EmptyString = Normal (Some (uri document)))
  /\ (forall (P : Platform) document filePart,
        filePart <> EmptyString -> matchesUriScheme filePart = false ->
        path_isAbsolute filePart = true ->
        resolveUri document filePart = found (Uri_file filePart))
  /\ (forall cwd document filePart,
        Js.startsWith slash filePart = true ->
        String.prefix "//" filePart = false ->
        resolveUri (P := Posix.platform cwd) document filePart
        = Normal (Some (Posix.fileUri filePart)))
  /\ (forall (P : Platform) document filePart,
        matchesWindowsDrive filePart = true ->
        String.prefix "://" (Js.drop 1 filePart) = false ->
        resolveUri document filePart = found (Uri_file filePart))
  /\ (forall (P : Platform) document filePart,
        filePart <> EmptyString -> matchesUriScheme filePart = false ->
        path_isAbsolute filePart = false ->
        matchesWindowsDrive filePart = false ->
        resolveUri document filePart
        = found (Uri_file (path_resolve (path_dirname (fsPath (uri document)))
                                        filePart)))
  /\ (Posix.fsPathOf (uri Fixture.docA) = "/work/a.json"
      /\ resolveUri (P := Fixture.platform) Fixture.docA
           (filePartOf (Js.trim "b.json#/x"))
         = Normal (Some (Posix.fileUri "/work/b.json"))
      /\ parseJsonPointer (pointerPartOf (Js.trim "b.json#/x")) = [SegStr "x"]
      /\ resolveUri (P := Fixture.platform) Fixture.docA
           (filePartOf (Js.trim "#/x"))
         = Normal (Some (uri Fixture.docA))).
Proof.
  split; [exact split_at_first_hash|].
  split; [exact split_without_hash|].
  split; [intros; apply resolveUri_empty|].
  split; [intros; now apply resolveUri_absolute|].
  split.
  { intros cwd document filePart H Hp.
    rewrite (resolveUri_absolute (P := Posix.platform cwd)).
    - cbn [Uri_file Posix.platform]. now rewrite (posix_file_plain _ H Hp).
    - now apply posix_form_not_scheme.
    - exact H.
    - destruct filePart; [discriminate H | discriminate]. }
  split; [intros; now apply resolveUri_drive|].
  split; [intros; now apply resolveUri_relative|].
  repeat split; reflexivity.
Qed.

Lemma resolveUri_file_parts_witness :
  filePartOf ("b.json" ++ "#" ++ "/x") = "b.json"
  /\ filePartOf "b.json" = "b.json"
  /\ resolveUri (P := Fixture.platform) Fixture.docA "/etc/s.json"
     = Normal (Some (Posix.fileUri "/etc/s.json"))
  /\ resolveUri (P := Fixture.platform) Fixture.docA "C:\schemas\s.json"
     = found (Posix.file "C:\schemas\s.json")
  /\ resolveUri (P := Fixture.platform) Fixture.docA "C:/schemas/s.json"
     = found (Posix.file "C:/schemas/s.json")
  /\ resolveUri (P := Fixture.platform) Fixture.docA "sub/../b.json"
     = found (Posix.file "/work/b.json").
Proof.
  destruct resolveUri_file_parts
    as (Hsplit & Hwhole & _ & Habs & Hposix & Hdrive & Hrel & _).
  split; [apply (Hsplit "b.json" "/x"); reflexivity|].
  split; [apply (Hwhole "b.json"); reflexivity|].
  split; [apply (Hposix "/work" Fixture.docA "/etc/s.json"); reflexivity|].
  split; [apply (Hdrive Fixture.platform Fixture.docA "C:\schemas\s.json");
          reflexivity|].
  split; [apply (Hdrive Fixture.platform Fixture.docA "C:/schemas/s.json");
          reflexivity|].
  apply (Hrel Fixture.platform Fixture.docA "sub/../b.json");
    [discriminate | reflexivity | reflexivity | reflexivity].
Defined.

(** A drive-letter path on the POSIX host keeps its text behind a slash. *)
Example drive_path_identity :
  Posix.file "C:/schemas/s.json"
  = Normal (mkUri "file" EmptyString "/C:/schemas/s.json" EmptyString EmptyString).
Proof. reflexivity. Qed.

(** ** Navigator *)

Section NavigatorFacts.
Context {E : Editor}.

Lemma locateIn_empty (root : Node) : locateIn root [] = Some root.
Proof. reflexivity. Qed.


Lemma locateIn_other (root located : Node) (path : list Segment) :
  path <> [] ->
  findNodeAtLocation root path = Some located ->
  type located <> PropertyT \/ child located 1 = None ->
  locateIn root path = Some located.
Proof.
  intros Hne Hf H. unfold locateIn.
  destruct path; [congruence|]. rewrite Hf.
  destruct H as [H|H].
  - destruct (type located); try reflexivity. congruence.
  - rewrite H. now destruct (NodeType_eqb _ _).
Qed.


Lemma findTargetNode_unparsed (document : TextDocument) (path : list Segment) :
  parseTree (getText document) = None -> findTargetNode document path = None.
Proof. intros H. unfold findTargetNode. now rewrite H. Qed.

End NavigatorFacts.



(** ** Metadata extractor *)

(** One turn of the loop sets each field from the property if the property
    gives it, and keeps it otherwise. *)
Lemma extractStep_fields (m : SchemaMetadata) (p : Node) :
  extractStep m p
  = mkSchemaMetadata (orElse (setting "title" textOf p) (title m))
                     (orElse (setting "description" textOf p) (description m))
                     (orElse (setting "type" typeOf p) (type_ m)).
Proof.
  destruct m as [t d ty].
  unfold extractStep, setting, propertyNamed, textOf, typeOf.
  cbn [title description type_].
  destruct (type p), (child p 0) as [k|], (child p 1) as [v|];
    cbn [NodeType_eqb orElse]; try reflexivity.
  destruct (value k) as [[s| | |]|]; cbn [valueIs orElse]; try reflexivity.
  destruct (String.eqb_spec s "title") as [->|_].
  { cbn. destruct (type v); reflexivity. }
  destruct (String.eqb_spec s "description") as [->|_].
  { cbn. destruct (type v); reflexivity. }
  destruct (String.eqb_spec s "type") as [->|_]; [|reflexivity].
  cbn. destruct (type v); cbn [NodeType_eqb orElse]; try reflexivity.
  destruct (stringElements v); reflexivity.
Qed.

Lemma lastSetting_cons (key : string) (read : Node -> option string)
    (p : Node) (props : list Node) :
  lastSetting key read (p :: props)
  = orElse (lastSetting key read props) (setting key read p).
Proof. cbn [lastSetting]. unfold orElse, setting. now destruct (lastSetting _ _ _). Qed.

Lemma orElse_assoc (a b c : option string) :
  orElse a (orElse b c) = orElse (orElse a b) c.
Proof. now destruct a. Qed.

(** The loop ends with, for each field, the last setting among the
    properties, or the starting value. *)
Lemma fold_extractStep (props : list Node) :
  forall m,
    fold_left extractStep props m
    = mkSchemaMetadata
        (orElse (lastSetting "title" textOf props) (title m))
        (orElse (lastSetting "description" textOf props) (description m))
        (orElse (lastSetting "type" typeOf props) (type_ m)).
Proof.
  induction props as [|p props IH]; intros m.
  - now destruct m.
  - cbn [fold_left]. rewrite IH, extractStep_fields.
    cbn [title description type_].
    now rewrite !lastSetting_cons, !orElse_assoc.
Qed.

Lemma extractSchemaMetadata_extractSpec (node : Node) :
  extractSchemaMetadata node = extractSpec node.
Proof.
  unfold extractSchemaMetadata, extractSpec.
  destruct (type node); cbn [NodeType_eqb negb]; try reflexivity.
  rewrite fold_extractStep. cbn [emptyMetadata title description type_].
  f_equal; now destruct (lastSetting _ _ _).
Qed.



(** A later [type] array without string elements leaves an earlier setting
    in place, and a later string title replaces an earlier one. *)
Example extract_duplicates :
  extractSchemaMetadata
    (Fixture.objNode 0 60
       [Fixture.propNode (Fixture.strNode 1 "title") (Fixture.strNode 9 "A");
        Fixture.propNode (Fixture.strNode 13 "type") (Fixture.strNode 20 "string");
        Fixture.propNode (Fixture.strNode 29 "title") (Fixture.strNode 37 "B");
        Fixture.propNode (Fixture.strNode 41 "type") (Fixture.arrNode 48 3
                                                        [Fixture.numNode 49 1])])
  = mkSchemaMetadata (Some "B") None (Some "string").
Proof. reflexivity. Qed.

(** ** Reference lookup *)

Section LookupFacts.
Context {P : Platform} {E : Editor} {W : Workspace}.

(** The guard accepts exactly a string node whose parent is a property with
    the key [$ref]. *)
Lemma getRefNodeAtPosition_Some_iff (document : TextDocument)
    (position : Position) (node : Node) :
  getRefNodeAtPosition document position = Some node
  <-> exists root propertyNode keyNode,
        parseTree (getText document) = Some root
        /\ findNodeAtOffset root (offsetAt (getText document) position) true
           = Some (node, Some propertyNode)
        /\ type node = StringT
        /\ type propertyNode = PropertyT
        /\ child propertyNode 0 = Some keyNode
        /\ value keyNode = Some (JString "$ref").
Proof.
  unfold getRefNodeAtPosition. cbv zeta. split.
  - destruct (parseTree (getText document)) as [root|]; [|discriminate].
    destruct (findNodeAtOffset root _ true) as [[found parent]|] eqn:Hf;
      [|discriminate].
    destruct (type found) eqn:Htf; cbn [NodeType_eqb negb]; try discriminate.
    destruct parent as [propertyNode|]; [|discriminate].
    destruct (type propertyNode) eqn:Htp; cbn [NodeType_eqb negb]; try discriminate.
    destruct (child propertyNode 0) as [keyNode|] eqn:Hk; [|discriminate].
    destruct (value keyNode) as [[k| | |]|] eqn:Hv; cbn [valueIs negb];
      try discriminate.
    destruct (String.eqb_spec k "$ref") as [->|]; cbn [negb]; [|discriminate].
    intros [= <-]. now exists root, propertyNode, keyNode.
  - intros (root & propertyNode & keyNode & Hp & Hf & Htn & Htp & Hk & Hv).
    rewrite Hp, Hf, Htn, Htp, Hk, Hv. reflexivity.
Qed.

(** What a successful [resolveTargetDocument] holds. *)
Lemma resolveTargetDocument_Some (document : TextDocument) (raw : string)
    (info : TargetInfo) :
  resolveTargetDocument document raw = Normal (Some info) ->
  let pointerPart := pointerPartOf (Js.trim raw) in
  pointerDisplay info
  = (if Js.isEmpty pointerPart then EmptyString else "#" ++ pointerPart)
  /\ resolveUri document (filePartOf (Js.trim raw)) = Normal (Some (targetUri info))
  /\ openTextDocument (targetUri info) = Some (targetDocument info)
  /\ exists targetNode,
       findTargetNode (targetDocument info) (parseJsonPointer pointerPart)
       = Some targetNode
       /\ targetRange info = nodeRange (targetDocument info) targetNode
       /\ metadata info = extractSchemaMetadata targetNode.
Proof.
  unfold resolveTargetDocument, filePartOf, pointerPartOf, hashIndexOf.
  cbv zeta.
  destruct (resolveUri document _) as [[target|]|e]; cbn [bind];
    [|discriminate|discriminate].
  destruct (openTextDocument target) as [targetDoc|] eqn:Ho; [|discriminate].
  destruct (findTargetNode targetDoc _) as [targetNode|] eqn:Hf; [|discriminate].
  intros [= <-]. cbn [pointerDisplay targetUri targetDocument targetRange metadata].
  split; [now destruct (Js.isEmpty _)|].
  split; [reflexivity|]. split; [exact Ho|].
  now exists targetNode.
Qed.

Lemma resolveTargetDocument_None (document : TextDocument) (raw : string) :
  (resolveUri document (filePartOf (Js.trim raw)) = Normal None
   \/ exists target,
        resolveUri document (filePartOf (Js.trim raw)) = Normal (Some target)
        /\ (openTextDocument target = None
            \/ exists targetDoc,
                 openTextDocument target = Some targetDoc
                 /\ findTargetNode targetDoc
                      (parseJsonPointer (pointerPartOf (Js.trim raw))) = None)) ->
  resolveTargetDocument document raw = Normal None.
Proof.
  unfold resolveTargetDocument, filePartOf, pointerPartOf, hashIndexOf.
  cbv zeta.
  intros [H | (target & H & [Ho | (targetDoc & Ho & Hf)])]; rewrite H;
    cbn [bind]; [reflexivity | now rewrite Ho | now rewrite Ho, Hf].
Qed.

(** [resolveTargetDocument] throws exactly when the locator does. *)
Lemma resolveTargetDocument_Throw (document : TextDocument) (raw e : string) :
  resolveTargetDocument document raw = Throw e
  <-> resolveUri document (filePartOf (Js.trim raw)) = Throw e.
Proof.
  unfold resolveTargetDocument, filePartOf, pointerPartOf, hashIndexOf.
  cbv zeta.
  destruct (resolveUri document _) as [located|e']; cbn [bind];
    split; solve [discriminate | congruence].
Qed.

Lemma resolveReference_Some (document : TextDocument) (position : Position)
    (r : ResolvedReference) :
  resolveReference document position = Normal (Some r) ->
  exists node,
    getRefNodeAtPosition document position = Some node
    /\ refValue r = stringOfValue (value node)
    /\ Js.trim (refValue r) <> EmptyString
    /\ sourceRange r = nodeRange document node
    /\ resolveTargetDocument document (refValue r) = Normal (Some (resolved r)).
Proof.
  unfold resolveReference.
  destruct (getRefNodeAtPosition document position) as [node|]; [|discriminate].
  cbv zeta.
  destruct (Js.trim (stringOfValue (value node))) eqn:Ht; cbn [Js.isEmpty];
    [discriminate|].
  destruct (resolveTargetDocument document _) as [[info|]|e] eqn:Hr;
    cbn [bind]; [|discriminate|discriminate].
  intros [= <-]. exists node. cbn [refValue sourceRange resolved].
  rewrite Ht. repeat split; [discriminate | exact Hr].
Qed.

(** The lookup on a reference string that is not blank is the lookup of
    its target. *)
Lemma resolveReference_at (document : TextDocument) (position : Position)
    (node : Node) :
  getRefNodeAtPosition document position = Some node ->
  Js.trim (stringOfValue (value node)) <> EmptyString ->
  resolveReference document position
  = (resolvedTarget <- resolveTargetDocument document (stringOfValue (value node)) ;;
     Normal (option_map
               (mkResolvedReference (stringOfValue (value node))
                  (nodeRange document node))
               resolvedTarget)).
Proof.
  intros Hg Ht. unfold resolveReference. rewrite Hg. cbv zeta.
  destruct (Js.trim (stringOfValue (value node))); [congruence|].
  cbn [Js.isEmpty].
  destruct (resolveTargetDocument document _) as [[info|]|e]; reflexivity.
Qed.

Lemma resolveReference_Throw (document : TextDocument) (position : Position)
    (e : string) :
  resolveReference document position = Throw e
  <-> exists node,
        getRefNodeAtPosition document position = Some node
        /\ Js.trim (stringOfValue (value node)) <> EmptyString
        /\ resolveUri document (filePartOf (Js.trim (stringOfValue (value node))))
           = Throw e.
Proof.
  split.
  - unfold resolveReference.
    destruct (getRefNodeAtPosition document position) as [node|] eqn:Hg;
      [|discriminate].
    cbv zeta.
    destruct (Js.trim (stringOfValue (value node))) eqn:Ht; cbn [Js.isEmpty];
      [discriminate|].
    destruct (resolveTargetDocument document _) as [info|e'] eqn:Hr;
      cbn [bind]; [discriminate|].
    intros [= ->]. exists node. split; [reflexivity|].
    split; [rewrite Ht; discriminate|].
    now apply resolveTargetDocument_Throw.
  - intros (node & Hg & Ht & Hr).
    rewrite (resolveReference_at _ _ _ Hg Ht).
    apply resolveTargetDocument_Throw in Hr. now rewrite Hr.
Qed.

End LookupFacts.

(** C2. The lookup in [{"$ref":"file:////x.json"}] on the POSIX host, at a
    position inside the reference string. The guard accepts the node, the
    file part is what [Uri.parse] refuses with a [UriError],
    [resolveTargetDocument] calls [resolveUri] outside its [try], and the
    lookup throws where the specification has no result; hover and
    go-to-definition throw with it. *)
Theorem resolveReference_throws_on_refused_uri :
  getRefNodeAtPosition (E := Fixture.editor) Fixture.docU (mkPosition 0 10)
  = Some Fixture.refU
  /\ Js.trim (stringOfValue (value Fixture.refU)) = "file:////x.json"
  /\ resolveUri (P := Fixture.platform) Fixture.docU
       (filePartOf (Js.trim "file:////x.json"))
     = Throw Posix.doubleSlashError
  /\ resolveTargetDocument (P := Fixture.platform) (E := Fixture.editor)
       (W := Fixture.workspace) Fixture.docU "file:////x.json"
     = Throw Posix.doubleSlashError
  /\ resolveReference (P := Fixture.platform) (E := Fixture.editor)
       (W := Fixture.workspace) Fixture.docU (mkPosition 0 10)
     = Throw Posix.doubleSlashError
  /\ resolveReference (P := Fixture.platform) (E := Fixture.editor)
       (W := Fixture.workspace) Fixture.docU (mkPosition 0 10)
     <> Normal None
  /\ provideHover (P := Fixture.platform) (E := Fixture.editor)
       (W := Fixture.workspace) (V := posixPresenter)
       Fixture.docU (mkPosition 0 10)
     = Throw Posix.doubleSlashError
  /\ provideDefinition (P := Fixture.platform) (E := Fixture.editor)
       (W := Fixture.workspace) Fixture.docU (mkPosition 0 10)
     = Throw Posix.doubleSlashError.
Proof.
  repeat split; try reflexivity. discriminate.
Qed.

(** X18. The outcomes of the lookup. It gives nothing when no string inside a
    [$ref] property is found at the position; and for such a string, when
    its trimmed text is empty, when the locator gives no target, when the
    target does not load, when the target text does not parse, or when the
    pointer path finds no node. It throws exactly when such a string is not
    blank and the locator throws on its file part. A result carries as
    [pointerDisplay] the pointer text of the reference behind a [#], or the
    empty string when there is no pointer text. *)
Theorem resolveReference_outcomes {P : Platform} {E : Editor} {W : Workspace}
    (document : TextDocument) (position : Position) :
  ((forall node, ~ refStringAt document position node) ->
   resolveReference document position = Normal None)
  /\ (forall node, refStringAt document position node ->
        let trimmed := Js.trim (stringOfValue (value node)) in
        let path := parseJsonPointer (pointerPartOf trimmed) in
        (trimmed = EmptyString -> resolveReference document position = Normal None)
        /\ (resolveUri document (filePartOf trimmed) = Normal None ->
            resolveReference document position = Normal None)
        /\ (forall target,
              resolveUri document (filePartOf trimmed) = Normal (Some target) ->
              (openTextDocument target = None ->
               resolveReference document position = Normal None)
              /\ (forall targetDoc,
                    openTextDocument target = Some targetDoc ->
                    (parseTree (getText targetDoc) = None ->
                     resolveReference document position = Normal None)
                    /\ (findTargetNode targetDoc path = None ->
                        resolveReference document position = Normal None))))
  /\ (forall e,
        resolveReference document position = Throw e
        <-> exists node,
              refStringAt document position node
              /\ Js.trim (stringOfValue (value node)) <> EmptyString
              /\ resolveUri document
                   (filePartOf (Js.trim (stringOfValue (value node))))
                 = Throw e)
  /\ (forall r, resolveReference document position = Normal (Some r) ->
        let trimmed := Js.trim (refValue r) in
        pointerDisplay r
        = (if Js.isEmpty (pointerPartOf trimmed) then EmptyString
           else "#" ++ pointerPartOf trimmed)
        /\ (forall a b, trimmed = a ++ "#" ++ b -> lacks "#"%char a = true ->
              b <> EmptyString -> pointerDisplay r = "#" ++ b)
        /\ (forall a, trimmed = a ++ "#" -> lacks "#"%char a = true ->
              pointerDisplay r = EmptyString)
        /\ (lacks "#"%char trimmed = true -> pointerDisplay r = EmptyString)).
Proof.
  split.
  { intros Hno. unfold resolveReference.
    destruct (getRefNodeAtPosition document position) as [node|] eqn:Hg;
      [|reflexivity].
    apply getRefNodeAtPosition_Some_iff in Hg. now apply Hno in Hg. }
  split.
  { intros node Hat. apply getRefNodeAtPosition_Some_iff in Hat.
    cbv zeta.
    assert (Hnone : resolveTargetDocument document (stringOfValue (value node))
                    = Normal None ->
                    resolveReference document position = Normal None).
    { intros Hr. unfold resolveReference. rewrite Hat. cbv zeta.
      rewrite Hr. now destruct (Js.isEmpty _). }
    split.
    { intros Ht. unfold resolveReference. rewrite Hat. cbv zeta.
      now rewrite Ht. }
    split.
    { intros Hr. apply Hnone, resolveTargetDocument_None. now left. }
    intros target Hr. split.
    { intros Ho. apply Hnone, resolveTargetDocument_None.
      right. exists target. split; [exact Hr | now left]. }
    intros targetDoc Ho. split.
    - intros Hp. apply Hnone, resolveTargetDocument_None.
      right. exists target. split; [exact Hr|]. right. exists targetDoc.
      split; [exact Ho | now apply findTargetNode_unparsed].
    - intros Hf. apply Hnone, resolveTargetDocument_None.
      right. exists target. split; [exact Hr|]. right. now exists targetDoc. }
  split.
  { intros e. rewrite resolveReference_Throw. split.
    - intros (node & Hg & Ht & Hr). exists node.
      split; [now apply getRefNodeAtPosition_Some_iff | now split].
    - intros (node & Hg & Ht & Hr). exists node.
      split; [now apply getRefNodeAtPosition_Some_iff | now split]. }
  intros r Hr.
  apply resolveReference_Some in Hr as (node & _ & _ & _ & _ & Hr).
  apply resolveTargetDocument_Some in Hr as (Hd & _). cbv zeta in *.
  split; [exact Hd|]. rewrite Hd. split; [|split].
  - intros a b -> Ha Hb.
    destruct (split_at_first_hash a b Ha) as [_ ->].
    destruct b; [congruence | reflexivity].
  - intros a -> Ha.
    destruct (split_at_first_hash a EmptyString Ha) as [_ Hp].
    change ("#" ++ EmptyString) with "#" in Hp. now rewrite Hp.
  - intros Hl. destruct (split_without_hash _ Hl) as [_ ->]. reflexivity.
Qed.

Lemma resolveReference_outcomes_witness :
  resolveReference (P := Fixture.platform) (E := Fixture.editor)
    (W := Fixture.workspace) Fixture.docA (mkPosition 0 0) = Normal None
  /\ resolveReference (P := Fixture.platform) (E := Fixture.editor)
       (W := Fixture.workspaceWithoutB) Fixture.docA (mkPosition 0 10)
     = Normal None
  /\ exists r,
       resolveReference (P := Fixture.platform) (E := Fixture.editor)
         (W := Fixture.workspace) Fixture.docA (mkPosition 0 10)
       = Normal (Some r)
       /\ pointerDisplay r = "#/x".
Proof.
  split; [|split].
  - apply (resolveReference_outcomes (P := Fixture.platform)
             (E := Fixture.editor) (W := Fixture.workspace)
             Fixture.docA (mkPosition 0 0)).
    intros node (root & propertyNode & keyNode & Hp & Hf & _).
    vm_compute in Hp. injection Hp as <-.
    vm_compute in Hf. discriminate Hf.
  - destruct (resolveReference_outcomes (P := Fixture.platform)
                (E := Fixture.editor) (W := Fixture.workspaceWithoutB)
                Fixture.docA (mkPosition 0 10)) as (_ & Hfail & _).
    assert (Hat : refStringAt (E := Fixture.editor) Fixture.docA
                    (mkPosition 0 10) Fixture.refA).
    { exists Fixture.treeA, (Fixture.propNode Fixture.keyA Fixture.refA),
        Fixture.keyA. repeat split. }
    destruct (Hfail _ Hat) as (_ & _ & Hload).
    apply (Hload (Posix.fileUri "/work/b.json")); reflexivity.
  - destruct (resolveReference (P := Fixture.platform) (E := Fixture.editor)
                (W := Fixture.workspace) Fixture.docA (mkPosition 0 10))
      as [[r|]|e] eqn:Hr;
      [|vm_compute in Hr; discriminate Hr|vm_compute in Hr; discriminate Hr].
    exists r. split; [reflexivity|].
    destruct (resolveReference_outcomes (P := Fixture.platform)
                (E := Fixture.editor) (W := Fixture.workspace)
                Fixture.docA (mkPosition 0 10)) as (_ & _ & _ & Hshow).
    destruct (Hshow r Hr) as (_ & Hlit & _).
    apply resolveReference_Some in Hr as (node & Hg & Hv & _).
    vm_compute in Hg. injection Hg as <-.
    apply (Hlit "b.json" "/x");
      [rewrite Hv; reflexivity | reflexivity | discriminate].
Defined.

(** C10. When the node found at the position is the key string of a [$ref]
    property, the guard accepts it: the lookup goes on with the text [$ref]
    as its reference, resolves it as a path relative to the directory of the
    document, and returns a result when a document loads from there and
    parses. *)
Theorem resolveReference_on_ref_key {P : Platform} {E : Editor} {W : Workspace}
    (document : TextDocument) (position : Position)
    (root propertyNode keyNode : Node) :
  parseTree (getText document) = Some root ->
  findNodeAtOffset root (offsetAt (getText document) position) true
  = Some (keyNode, Some propertyNode) ->
  type propertyNode = PropertyT ->
  child propertyNode 0 = Some keyNode ->
  type keyNode = StringT ->
  value keyNode = Some (JString "$ref") ->
  path_isAbsolute "$ref" = false ->
  let located :=
    Uri_file (path_resolve (path_dirname (fsPath (uri document))) "$ref") in
  getRefNodeAtPosition document position = Some keyNode
  /\ resolveUri document "$ref" = found located
  /\ resolveReference document position
     = (target <- located ;;
        Normal
          match openTextDocument target with
          | None => None
          | Some targetDoc =>
              match parseTree (getText targetDoc) with
              | None => None
              | Some targetRoot =>
                  Some (mkResolvedReference "$ref" (nodeRange document keyNode)
                          (mkTargetInfo target targetDoc
                             (nodeRange targetDoc targetRoot)
                             (extractSchemaMetadata targetRoot)
                             EmptyString None))
              end
          end).
Proof.
  intros Hp Hf Htp Hk Htk Hv Habs located.
  assert (Hg : getRefNodeAtPosition document position = Some keyNode).
  { apply getRefNodeAtPosition_Some_iff.
    now exists root, propertyNode, keyNode. }
  assert (Hu : resolveUri document "$ref" = found located).
  { apply resolveUri_relative; [discriminate | reflexivity | exact Habs | reflexivity]. }
  split; [exact Hg|]. split; [exact Hu|].
  unfold resolveReference. rewrite Hg, Hv. cbv zeta.
  change (stringOfValue (Some (JString "$ref"))) with "$ref".
  change (Js.isEmpty (Js.trim "$ref")) with false. cbv iota.
  unfold resolveTargetDocument.
  change (Js.trim "$ref") with "$ref".
  change (Js.indexOf "#"%char "$ref") with (-1)%Z.
  cbv zeta. change ((-1 >=? 0)%Z) with false. cbv iota.
  rewrite Hu. unfold found.
  destruct located as [target|e]; cbn [bind]; [|reflexivity].
  destruct (openTextDocument target) as [targetDoc|]; [|reflexivity].
  change (parseJsonPointer EmptyString) with (@nil Segment).
  unfold findTargetNode.
  destruct (parseTree (getText targetDoc)) as [targetRoot|]; reflexivity.
Qed.

Lemma resolveReference_on_ref_key_witness :
  exists r,
    resolveReference (P := Fixture.platform) (E := Fixture.editor)
      (W := Fixture.workspace) Fixture.docA (mkPosition 0 3) = Normal (Some r)
    /\ refValue r = "$ref"
    /\ targetUri r = Posix.fileUri "/work/$ref"
    /\ pointerDisplay r = EmptyString.
Proof.
  destruct (resolveReference_on_ref_key (P := Fixture.platform)
              (E := Fixture.editor) (W := Fixture.workspace)
              Fixture.docA (mkPosition 0 3) Fixture.treeA
              (Fixture.propNode Fixture.keyA Fixture.refA) Fixture.keyA
              eq_refl eq_refl eq_refl eq_refl eq_refl eq_refl eq_refl)
    as (_ & _ & Hr).
  eexists. split; [exact Hr|]. repeat split.
Defined.

(** * Further properties *)

(** ** Markdown escaping *)

Lemma backslash_special : isMarkdownSpecial backslash = true.
Proof. reflexivity. Qed.

Lemma escapeMarkdown_app (a b : Text) :
  escapeMarkdown (a ++ b)%list = (escapeMarkdown a ++ escapeMarkdown b)%list.
Proof.
  induction a as [|c a IH]; [reflexivity|].
  cbn [app escapeMarkdown]. rewrite IH. now destruct (isMarkdownSpecial c).
Qed.

Lemma unescapeMarkdown_plain (c : N) (r : Text) :
  isMarkdownSpecial c = false ->
  unescapeMarkdown (c :: r) = c :: unescapeMarkdown r.
Proof.
  intros Hc. destruct r as [|d r']; [reflexivity|].
  cbn [unescapeMarkdown].
  destruct (N.eqb_spec c backslash) as [->|_]; [|reflexivity].
  rewrite backslash_special in Hc. discriminate Hc.
Qed.

Lemma unescapeMarkdown_escapeMarkdown (text : Text) :
  unescapeMarkdown (escapeMarkdown text) = text.
Proof.
  induction text as [|c r IH]; [reflexivity|].
  cbn [escapeMarkdown]. destruct (isMarkdownSpecial c) eqn:Hc.
  - cbn [unescapeMarkdown]. rewrite N.eqb_refl, Hc. cbn [andb]. now rewrite IH.
  - rewrite (unescapeMarkdown_plain c _ Hc). now rewrite IH.
Qed.

Lemma escapeMarkdown_inj (a b : Text) :
  escapeMarkdown a = escapeMarkdown b -> a = b.
Proof.
  intros H.
  rewrite <- (unescapeMarkdown_escapeMarkdown a), H.
  apply unescapeMarkdown_escapeMarkdown.
Qed.

(** X1. Escaping loses nothing: reading the backslash escapes of an escaped
    text gives the text back, so two different texts never escape to the
    same Markdown. *)
Theorem escapeMarkdown_injective :
  (forall text, unescapeMarkdown (escapeMarkdown text) = text)
  /\ (forall a b, escapeMarkdown a = escapeMarkdown b -> a = b).
Proof.
  split; [exact unescapeMarkdown_escapeMarkdown | exact escapeMarkdown_inj].
Qed.

Lemma escapeMarkdown_injective_witness :
  units "a_b" = unescapeMarkdown (units "a\_b").
Proof.
  apply (proj2 escapeMarkdown_injective (units "a_b")
           (unescapeMarkdown (units "a\_b"))).
  reflexivity.
Defined.

Lemma escapeMarkdown_length (text : Text) :
  List.length (escapeMarkdown text) = List.length text + specialCount text.
Proof.
  unfold specialCount.
  induction text as [|c r IH]; [reflexivity|].
  cbn [escapeMarkdown filter]. destruct (isMarkdownSpecial c); cbn [List.length];
    rewrite IH; lia.
Qed.

Lemma specialCount_le (text : Text) : specialCount text <= List.length text.
Proof. apply filter_length_le. Qed.

(** X2. The escaped text is the text with one backslash added per character
    of the class: its length is the length of the text plus the number of
    such characters, hence at most twice the length; escaping works piece by
    piece; and it returns the text unchanged exactly when the text holds no
    character of the class, so escaping an escaped text changes it again
    whenever the first escaping did. *)
Theorem escapeMarkdown_shape (text : Text) :
  List.length (escapeMarkdown text) = List.length text + specialCount text
  /\ List.length text <= List.length (escapeMarkdown text) <= 2 * List.length text
  /\ (forall rest, escapeMarkdown (text ++ rest)%list
                   = (escapeMarkdown text ++ escapeMarkdown rest)%list)
  /\ (escapeMarkdown text = text <-> specialCount text = 0)
  /\ (escapeMarkdown (escapeMarkdown text) = escapeMarkdown text
      <-> specialCount text = 0).
Proof.
  pose proof (escapeMarkdown_length text) as Hlen.
  pose proof (specialCount_le text) as Hle.
  assert (Hid : forall t, escapeMarkdown t = t <-> specialCount t = 0).
  { intros t. split.
    - intros H. pose proof (escapeMarkdown_length t) as Hl. rewrite H in Hl. lia.
    - unfold specialCount. induction t as [|c r IH]; [reflexivity|].
      cbn [filter escapeMarkdown]. destruct (isMarkdownSpecial c);
        cbn [List.length]; [discriminate|].
      intros H. now rewrite (IH H). }
  split; [exact Hlen|]. split; [lia|].
  split; [intros rest; apply escapeMarkdown_app|].
  split; [apply Hid|].
  split.
  - intros H. apply escapeMarkdown_inj in H. now apply Hid.
  - intros H. apply Hid in H. now rewrite !H.
Qed.

Lemma escapeMarkdown_shape_witness :
  escapeMarkdown (units "plain text") = units "plain text"
  /\ escapeMarkdown (units "a.b") <> units "a.b".
Proof.
  split.
  - apply (proj1 (proj2 (proj2 (proj2 (escapeMarkdown_shape (units "plain text")))))).
    reflexivity.
  - intros H.
    apply (proj1 (proj2 (proj2 (proj2 (escapeMarkdown_shape (units "a.b")))))) in H.
    discriminate H.
Defined.

(** ** Truncation *)

Lemma sliceTo_nonneg (text : Text) (stop : Z) :
  (0 <= stop)%Z -> sliceTo text stop = firstn (Z.to_nat stop) text.
Proof.
  intros H. unfold sliceTo. cbv zeta.
  destruct (Z.ltb_spec stop 0) as [Hlt|_]; [lia|].
  destruct (Z.le_ge_cases stop (Z.of_nat (List.length text))) as [Hle|Hge].
  - now rewrite Z.min_l.
  - rewrite Z.min_r by exact Hge. rewrite Nat2Z.id.
    rewrite !firstn_all2; [reflexivity | lia | lia].
Qed.

Lemma truncateText_short (text : Text) (max : Z) :
  (Z.of_nat (List.length text) <= max)%Z -> truncateText text max = text.
Proof.
  intros H. unfold truncateText.
  destruct (Z.gtb_spec (Z.of_nat (List.length text)) max); [lia | reflexivity].
Qed.

Lemma truncateText_long (text : Text) (max : Z) :
  (1 <= max < Z.of_nat (List.length text))%Z ->
  truncateText text max = (firstn (Z.to_nat (max - 1)) text ++ [ellipsis])%list
  /\ Z.of_nat (List.length (truncateText text max)) = max.
Proof.
  intros H. unfold truncateText.
  destruct (Z.gtb_spec (Z.of_nat (List.length text)) max); [|lia].
  rewrite sliceTo_nonneg by lia. split; [reflexivity|].
  rewrite length_app, length_firstn. cbn [List.length]. lia.
Qed.

Lemma truncateText_length (text : Text) (max : Z) :
  (1 <= max)%Z -> (Z.of_nat (List.length (truncateText text max)) <= max)%Z.
Proof.
  intros H.
  destruct (Z.le_gt_cases (Z.of_nat (List.length text)) max) as [Hs|Hl].
  - now rewrite truncateText_short.
  - destruct (truncateText_long text max) as [_ ->]; lia.
Qed.

(** X3. A text no longer than [max] is returned as it is. For [max] at least
    1 a longer text is cut to its first [max - 1] units followed by the
    ellipsis, so the result has exactly [max] units: the result never exceeds
    [max], and truncating again changes nothing. With [max] equal to 0 the
    bound fails: a non-empty text keeps its length. *)
Theorem truncateText_bound (text : Text) (max : Z) :
  ((Z.of_nat (List.length text) <= max)%Z -> truncateText text max = text)
  /\ ((1 <= max < Z.of_nat (List.length text))%Z ->
      truncateText text max
      = (firstn (Z.to_nat (max - 1)) text ++ [ellipsis])%list
      /\ Z.of_nat (List.length (truncateText text max)) = max)
  /\ ((1 <= max)%Z ->
      (Z.of_nat (List.length (truncateText text max)) <= max)%Z
      /\ truncateText (truncateText text max) max = truncateText text max)
  /\ (text <> [] ->
      truncateText text 0 = (removelast text ++ [ellipsis])%list
      /\ List.length (truncateText text 0) = List.length text).
Proof.
  split; [apply truncateText_short|].
  split; [apply truncateText_long|].
  split.
  { intros H. split; [now apply truncateText_length|].
    apply truncateText_short. now apply truncateText_length. }
  intros Hne. unfold truncateText.
  destruct (Z.gtb_spec (Z.of_nat (List.length text)) 0) as [_|Hle].
  2: { destruct text; [congruence | cbn [List.length] in Hle; lia]. }
  unfold sliceTo. cbv zeta. change (0 - 1 <? 0)%Z with true. cbv iota.
  assert (Hn : Z.to_nat (Z.max (Z.of_nat (List.length text) + (0 - 1)) 0)
               = List.length text - 1) by lia.
  rewrite Hn.
  assert (Hf : firstn (List.length text - 1) text = removelast text).
  { clear -Hne. destruct (exists_last Hne) as (front & lst & ->).
    rewrite removelast_last, length_app. cbn [List.length].
    replace (List.length front + 1 - 1) with (List.length front) by lia.
    now rewrite firstn_app, Nat.sub_diag, firstn_all, app_nil_r. }
  rewrite Hf. split; [reflexivity|].
  destruct (exists_last Hne) as (front & lst & ->).
  rewrite removelast_last, !length_app. reflexivity.
Qed.

Lemma truncateText_bound_witness :
  truncateText (units "short") 280 = units "short"
  /\ truncateText (units "abcdefgh") 4 = (units "abc" ++ [ellipsis])%list
  /\ (Z.of_nat (List.length (truncateText (units "abcdefgh") 4)) <= 4)%Z
  /\ List.length (truncateText (units "abc") 0) = 3.
Proof.
  split; [apply (proj1 (truncateText_bound (units "short") 280));
          vm_compute; discriminate|].
  split; [apply (proj1 (proj2 (truncateText_bound (units "abcdefgh") 4)));
          split; vm_compute; [discriminate | reflexivity]|].
  split; [apply (proj1 (proj2 (proj2 (truncateText_bound (units "abcdefgh") 4))));
          vm_compute; discriminate|].
  apply (proj2 (proj2 (proj2 (truncateText_bound (units "abc") 0)))).
  discriminate.
Defined.

(** ** Hover and go-to-definition *)

Lemma units_length (s : string) : List.length (units s) = String.length s.
Proof.
  unfold units. rewrite length_map.
  induction s as [|c r IH]; [reflexivity | cbn; now rewrite IH].
Qed.

(** A detail text is truncated, then escaped: at most 560 units. *)
Lemma detail_text_bound (text : Text) :
  List.length (escapeMarkdown (truncateText text defaultMax)) <= 560.
Proof.
  rewrite escapeMarkdown_length.
  pose proof (specialCount_le (truncateText text defaultMax)).
  pose proof (truncateText_length text defaultMax ltac:(discriminate)).
  unfold defaultMax in *. lia.
Qed.

Lemma detailLine_bound (label : Text) (field : option string) :
  List.length (joinLines (detailLine label field)) <= List.length label + 560
  /\ List.length (detailLine label field) <= 1.
Proof.
  unfold detailLine. destruct field as [[|c s]|]; cbn [joinLines List.length];
    try lia.
  rewrite length_app. pose proof (detail_text_bound (units (String c s))). lia.
Qed.

Lemma joinLines_app_length (a b : list Text) :
  List.length (joinLines (a ++ b))
  <= List.length (joinLines a) + List.length (joinLines b) + 1.
Proof.
  induction a as [|l a IH]; [cbn; lia|].
  destruct a as [|l2 a].
  - destruct b as [|l3 b]; cbn [app joinLines List.length]; [lia|].
    rewrite length_app. cbn [List.length]. lia.
  - change (joinLines ((l :: l2 :: a) ++ b))
      with (l ++ newline :: joinLines ((l2 :: a) ++ b))%list.
    change (joinLines (l :: l2 :: a))
      with (l ++ newline :: joinLines (l2 :: a))%list.
    rewrite !length_app. cbn [List.length]. lia.
Qed.

Lemma detailLines_bound (m : SchemaMetadata) :
  List.length (joinLines (detailLines m)) <= 1726
  /\ List.length (detailLines m) <= 3.
Proof.
  unfold detailLines.
  destruct (detailLine_bound titleLabel (title m)) as [Ht Ht'].
  destruct (detailLine_bound descriptionLabel (description m)) as [Hd Hd'].
  destruct (detailLine_bound typeLabel (type_ m)) as [Hy Hy'].
  change (List.length titleLabel) with 13 in Ht.
  change (List.length descriptionLabel) with 19 in Hd.
  change (List.length typeLabel) with 12 in Hy.
  split; [|rewrite !length_app; lia].
  pose proof (joinLines_app_length (detailLine titleLabel (title m))
                (detailLine descriptionLabel (description m)
                 ++ detailLine typeLabel (type_ m))).
  pose proof (joinLines_app_length (detailLine descriptionLabel (description m))
                (detailLine typeLabel (type_ m))).
  lia.
Qed.

(** X4. The hover text is trusted Markdown whose size is bounded by the
    header and the link alone: at most twice the length of the header, plus
    the length of the link, plus 1774 units, however long the title, the
    description and the type of the target are; it shows at most three detail
    lines. *)
Theorem hoverMarkdown_bounded {P : Platform} {V : Presenter}
    (info : ResolvedReference) :
  List.length (mdValue (hoverMarkdown info))
  <= 2 * String.length (hoverHeader info)
     + String.length (Uri_toString (hoverLinkUri info) true) + 1774
  /\ List.length (detailLines (metadata info)) <= 3
  /\ isTrusted (hoverMarkdown info) = true.
Proof.
  destruct (detailLines_bound (metadata info)) as [Hbody Hcount].
  split; [|split; [exact Hcount|]].
  - unfold hoverMarkdown. cbv zeta.
    pose proof (escapeMarkdown_length (units (hoverHeader info))) as He.
    pose proof (specialCount_le (units (hoverHeader info))) as Hs.
    rewrite units_length in He, Hs.
    destruct (detailLines (metadata info)) as [|l ls];
      cbn [appendMarkdown mdValue app];
      rewrite !length_app, !units_length; cbn [List.length String.length];
      change (List.length hoverFooter) with 42.
    + change (List.length noMetadataNotice) with 31. lia.
    + lia.
  - unfold hoverMarkdown. cbv zeta.
    destruct (detailLines (metadata info)); reflexivity.
Qed.

(** X5. Hover and go-to-definition are offered at exactly the positions
    where the lookup resolves, and throw exactly where it throws. Where they
    are offered the definition is a single link from the same range as the
    hover, the extent of the string found at the position, to the target
    range of the lookup, which is also the link's selection range. *)
Theorem hover_and_definition_agree
    {P : Platform} {E : Editor} {W : Workspace} {V : Presenter}
    (document : TextDocument) (position : Position) :
  (provideHover document position = Normal None
   <-> resolveReference document position = Normal None)
  /\ (provideDefinition document position = Normal None
      <-> resolveReference document position = Normal None)
  /\ (forall e, provideHover document position = Throw e
                <-> resolveReference document position = Throw e)
  /\ (forall e, provideDefinition document position = Throw e
                <-> resolveReference document position = Throw e)
  /\ (forall h, provideHover document position = Normal (Some h) ->
        exists info node,
          resolveReference document position = Normal (Some info)
          /\ provideDefinition document position
             = Normal (Some [DefinitionLink.make (hoverRange h) (targetUri info)
                               (targetRange info) (targetRange info)])
          /\ refStringAt document position node
          /\ hoverRange h = nodeRange document node).
Proof.
  unfold provideHover, provideDefinition.
  destruct (resolveReference document position) as [[info|]|e0] eqn:Hr;
    cbn [bind].
  - split; [split; discriminate|]. split; [split; discriminate|].
    split; [intros e; split; discriminate|].
    split; [intros e; split; discriminate|].
    intros h [= <-]. cbn [hoverRange].
    apply resolveReference_Some in Hr as (node & Hg & _ & _ & Hs & _).
    exists info, node. split; [reflexivity|]. split; [reflexivity|].
    split; [now apply getRefNodeAtPosition_Some_iff | exact Hs].
  - split; [now split|]. split; [now split|].
    split; [intros e; split; discriminate|].
    split; [intros e; split; discriminate|]. discriminate.
  - split; [split; discriminate|]. split; [split; discriminate|].
    split; [intros e; split; congruence|].
    split; [intros e; split; congruence|]. discriminate.
Qed.

Lemma hover_and_definition_agree_witness :
  exists h node,
    provideHover (P := Fixture.platform) (E := Fixture.editor)
      (W := Fixture.workspace) (V := posixPresenter)
      Fixture.docA (mkPosition 0 10) = Normal (Some h)
    /\ refStringAt (E := Fixture.editor) Fixture.docA (mkPosition 0 10) node
    /\ hoverRange h = nodeRange (E := Fixture.editor) Fixture.docA node.
Proof.
  destruct (provideHover (P := Fixture.platform) (E := Fixture.editor)
              (W := Fixture.workspace) (V := posixPresenter)
              Fixture.docA (mkPosition 0 10))
    as [[h|]|e] eqn:Hh;
    [|vm_compute in Hh; discriminate Hh|vm_compute in Hh; discriminate Hh].
  destruct (proj2 (proj2 (proj2 (proj2 (hover_and_definition_agree
              (P := Fixture.platform) (E := Fixture.editor)
              (W := Fixture.workspace) (V := posixPresenter)
              Fixture.docA (mkPosition 0 10))))) h Hh)
    as (info & node & _ & _ & Hat & Hrange).
  exists h, node. split; [reflexivity|]. split; [exact Hat | exact Hrange].
Defined.

(** The hover over the reference of [a.json]: a link to [b.json#/x], the
    title and the type of the target, and the hint. *)
Example hover_text_of_docA :
  match provideHover (P := Fixture.platform) (E := Fixture.editor)
          (W := Fixture.workspace) (V := posixPresenter)
          Fixture.docA (mkPosition 0 10) with
  | Normal (Some h) => Some (mdValue (contents h))
  | _ => None
  end
  = Some (units "[b\.json\#/x](file:///work/b.json#/x)"
          ++ [newline; newline]
          ++ units "- **Title:** Foo" ++ [newline]
          ++ units "- **Type:** string | null"
          ++ [newline; newline]
          ++ units "Cmd+Click to open the referenced schema.")%list.
Proof. vm_compute. reflexivity. Qed.

(** ** More on the scan *)

Section ScanInvariants.
Context {P : Platform} {E : Editor} {W : Workspace}.

Lemma findingsAt_shape (document : TextDocument) (node : Node)
    (here : list Diagnostic) (d : Diagnostic) :
  findingsAt document node = Normal here -> In d here ->
  severity d = Error
  /\ exists valueNode raw,
       referenceOf node = Some (valueNode, raw)
       /\ range d = nodeRange document valueNode.
Proof.
  unfold findingsAt.
  destruct (referenceOf node) as [[valueNode raw]|];
    [|intros [= <-] []].
  destruct (classify document raw) as [[msg|]|e]; cbn [bind];
    [|intros [= <-] []|discriminate].
  intros [= <-] [<-|[]]. split; [reflexivity|]. now exists valueNode, raw.
Qed.

Lemma referenceOf_shape (node valueNode : Node) (raw : string) :
  referenceOf node = Some (valueNode, raw) ->
  type node = PropertyT
  /\ child node 1 = Some valueNode
  /\ type valueNode = StringT
  /\ raw = stringOfValue (value valueNode)
  /\ Js.trim raw <> EmptyString
  /\ exists keyNode,
       child node 0 = Some keyNode /\ value keyNode = Some (JString "$ref").
Proof.
  unfold referenceOf.
  destruct (type node) eqn:Ht; try discriminate.
  destruct (child node 0) as [keyNode|] eqn:Hk; [|discriminate].
  destruct (child node 1) as [v|] eqn:Hv; [|discriminate].
  destruct (value keyNode) as [[k| | |]|] eqn:Hkv; try discriminate.
  destruct (type v) eqn:Htv; try discriminate.
  destruct (String.eqb_spec k "$ref") as [->|]; cbn [andb]; [|discriminate].
  destruct (String.eqb_spec (Js.trim (stringOfValue (value v))) EmptyString)
    as [|Hne]; cbn [negb]; [discriminate|].
  intros [= <- <-]. repeat split; try assumption.
  now exists keyNode.
Qed.

(** Nodes without reference give an empty run. *)
Lemma gather_no_reference (document : TextDocument) (l : list Node) :
  (forall node, In node l -> bearsReference node = false) ->
  gather (findingsAt document) l = Normal [].
Proof.
  induction l as [|n l IH]; intros H; [reflexivity|].
  cbn [gather]. rewrite IH by (intros node Hin; apply H; now right).
  specialize (H n (or_introl eq_refl)).
  unfold findingsAt. unfold bearsReference in H.
  destruct (referenceOf n); [discriminate H | reflexivity].
Qed.

End ScanInvariants.

(** X6. Every finding of a scan is an error placed on the extent of a
    string node that is the value of a [$ref] property of the parsed tree,
    the raw text of that node being non-blank. There are at most as many
    findings as the tree has such properties: a document without one has no
    finding. *)
Theorem validateDocument_points_at_references
    {P : Platform} {E : Editor} {W : Workspace} (document : TextDocument) :
  (forall ds d, validateDocument document = Normal ds -> In d ds ->
     severity d = Error
     /\ exists root node valueNode,
          parseTree (getText document) = Some root
          /\ In node (preorder root)
          /\ type node = PropertyT
          /\ child node 1 = Some valueNode
          /\ type valueNode = StringT
          /\ Js.trim (stringOfValue (value valueNode)) <> EmptyString
          /\ range d = nodeRange document valueNode)
  /\ (forall root ds, parseTree (getText document) = Some root ->
        validateDocument document = Normal ds ->
        List.length ds <= List.length (filter bearsReference (preorder root)))
  /\ (forall root, parseTree (getText document) = Some root ->
        (forall node, In node (preorder root) -> bearsReference node = false) ->
        validateDocument document = Normal []).
Proof.
  assert (Hscan : forall root, parseTree (getText document) = Some root ->
            validateDocument document
            = gather (findingsAt document) (preorder root)).
  { intros root Hp. rewrite validateDocument_scanSpec. unfold scanSpec.
    now rewrite Hp. }
  split; [|split].
  - intros ds d Hds Hd.
    destruct (parseTree (getText document)) as [root|] eqn:Hp.
    + rewrite (Hscan root eq_refl) in Hds.
      apply (gather_Normal _ _ _ Hds) in Hd as (node & here & Hin & Hf & Hd).
      destruct (findingsAt_shape _ _ _ _ Hf Hd)
        as (Hsev & v & raw & Href & Hrange).
      apply referenceOf_shape in Href as (Ht & Hc & Htv & -> & Hne & _).
      split; [exact Hsev|]. now exists root, node, v.
    + unfold validateDocument in Hds. cbv zeta in Hds. rewrite Hp in Hds.
      injection Hds as <-. destruct Hd.
  - intros root ds Hp Hds. rewrite (Hscan root Hp) in Hds.
    apply (gather_length (findingsAt document) bearsReference _ _) in Hds;
      [exact Hds|].
    intros node here Hf. pose proof (findingsAt_length _ _ _ Hf) as Hle.
    unfold bearsReference. unfold findingsAt in Hf.
    destruct (referenceOf node) as [[v raw]|]; [exact Hle|].
    injection Hf as <-. cbn. lia.
  - intros root Hp Hnone. rewrite (Hscan root Hp).
    now apply gather_no_reference.
Qed.

Lemma validateDocument_points_at_references_witness :
  (exists ds,
     validateDocument (P := Fixture.platform) (E := Fixture.editor)
       (W := Fixture.workspace) Fixture.docN = Normal ds
     /\ List.length ds <= 1)
  /\ validateDocument (P := Fixture.platform) (E := Fixture.editor)
       (W := Fixture.workspace) Fixture.docT = Normal [].
Proof.
  split.
  - eexists. split; [reflexivity|].
    apply (proj1 (proj2 (validateDocument_points_at_references
             (P := Fixture.platform) (E := Fixture.editor)
             (W := Fixture.workspace) Fixture.docN)) Fixture.treeN _
             eq_refl eq_refl).
  - apply (proj2 (proj2 (validateDocument_points_at_references
             (P := Fixture.platform) (E := Fixture.editor)
             (W := Fixture.workspace) Fixture.docT)) Fixture.treeT eq_refl).
    intros node Hin. cbn in Hin.
    repeat (destruct Hin as [<-|Hin]; [reflexivity|]). destruct Hin.
Defined.

(** ** Lookup and scan side by side *)

Section LookupAndScan.
Context {P : Platform} {E : Editor} {W : Workspace}.

Lemma validateReference_silent_iff (document : TextDocument) (node : Node)
    (raw : string) (diagnostics : list Diagnostic) :
  validateReference document node raw diagnostics = Normal diagnostics
  <-> classify document raw = Normal None.
Proof.
  rewrite validateReference_classify.
  destruct (classify document raw) as [[msg|]|e]; cbn [bind].
  - split; [|discriminate]. intros [= H].
    apply (f_equal (@List.length _)) in H. rewrite length_app in H.
    cbn [List.length] in H. lia.
  - now rewrite app_nil_r.
  - split; discriminate.
Qed.

Lemma classify_Throw (document : TextDocument) (raw e : string) :
  classify document raw = Throw e
  <-> resolveUri document (filePartOf (Js.trim raw)) = Throw e.
Proof.
  unfold classify. cbv zeta.
  destruct (resolveUri document _) as [located|e']; cbn [bind];
    split; solve [discriminate | congruence].
Qed.

Lemma validateReference_Throw (document : TextDocument) (node : Node)
    (raw : string) (diagnostics : list Diagnostic) (e : string) :
  validateReference document node raw diagnostics = Throw e
  <-> resolveUri document (filePartOf (Js.trim raw)) = Throw e.
Proof.
  rewrite validateReference_classify, <- classify_Throw.
  destruct (classify document raw) as [m|e']; cbn [bind];
    split; solve [discriminate | congruence].
Qed.

Lemma findTargetNode_root (targetDoc : TextDocument) :
  findTargetNode targetDoc [] = parseTree (getText targetDoc).
Proof. unfold findTargetNode. now destruct (parseTree _). Qed.

Lemma resolveTargetDocument_fragment (document : TextDocument) (raw : string)
    (info : TargetInfo) :
  resolveTargetDocument document raw = Normal (Some info) ->
  pointerFragment info
  = (if Js.isEmpty (pointerPartOf (Js.trim raw)) then None
     else Some (pointerPartOf (Js.trim raw))).
Proof.
  unfold resolveTargetDocument, pointerPartOf, hashIndexOf. cbv zeta.
  destruct (resolveUri document _) as [[target|]|e]; cbn [bind];
    [|discriminate|discriminate].
  destruct (openTextDocument target) as [targetDoc|]; [|discriminate].
  destruct (findTargetNode targetDoc _) as [targetNode|]; [|discriminate].
  now intros [= <-].
Qed.

End LookupAndScan.

(** X7. The two resolution paths agree: a reference the lookup resolves
    gets no finding from the scan; a reference without finding is resolved
    by the lookup, except when it has no pointer part and its target loads
    but does not parse, which the scan does not check; and the two throw on
    the same references. *)
Theorem lookup_and_scan_agree {P : Platform} {E : Editor} {W : Workspace}
    (document : TextDocument) (node : Node) (raw : string)
    (diagnostics : list Diagnostic) :
  ((exists info, resolveTargetDocument document raw = Normal (Some info)) ->
   validateReference document node raw diagnostics = Normal diagnostics)
  /\ (validateReference document node raw diagnostics = Normal diagnostics ->
      resolveTargetDocument document raw = Normal None ->
      pointerPartOf (Js.trim raw) = EmptyString
      /\ exists target targetDoc,
           resolveUri document (filePartOf (Js.trim raw)) = Normal (Some target)
           /\ openTextDocument target = Some targetDoc
           /\ parseTree (getText targetDoc) = None)
  /\ (forall e,
        validateReference document node raw diagnostics = Throw e
        <-> resolveTargetDocument document raw = Throw e).
Proof.
  split; [|split].
  - intros (info & Hr). apply validateReference_silent_iff.
    apply resolveTargetDocument_Some in Hr
      as (_ & Hu & Ho & targetNode & Hf & _).
    unfold classify. cbv zeta. rewrite Hu. cbn [bind]. rewrite Ho.
    destruct (pointerPartOf (Js.trim raw)); [reflexivity|]. now rewrite Hf.
  - intros Hs Hl. apply validateReference_silent_iff in Hs.
    revert Hs Hl.
    unfold classify, resolveTargetDocument, filePartOf, pointerPartOf,
      hashIndexOf. cbv zeta.
    destruct (resolveUri document _) as [[target|]|e]; cbn [bind];
      [|discriminate|discriminate].
    destruct (openTextDocument target) as [targetDoc|] eqn:Ho; [|discriminate].
    destruct (if (Js.indexOf "#"%char (Js.trim raw) >=? 0)%Z
              then Js.sliceFrom (Js.trim raw) (Js.indexOf "#"%char (Js.trim raw) + 1)
              else EmptyString) as [|c r].
    + intros _. change (parseJsonPointer EmptyString) with (@nil Segment).
      rewrite findTargetNode_root.
      destruct (parseTree (getText targetDoc)) eqn:Hp; [discriminate|].
      intros _. split; [reflexivity|]. now exists target, targetDoc.
    + destruct (findTargetNode targetDoc _); discriminate.
  - intros e. now rewrite validateReference_Throw, resolveTargetDocument_Throw.
Qed.

Lemma lookup_and_scan_agree_witness :
  validateReference (P := Fixture.platform) (E := Fixture.editor)
    (W := Fixture.workspace) Fixture.docA Fixture.refA "b.json#/x" []
  = Normal []
  /\ exists target targetDoc,
       resolveUri (P := Fixture.platform) Fixture.docA
         (filePartOf (Js.trim "broken.json")) = Normal (Some target)
       /\ openTextDocument (Workspace := workspaceWithBroken) target = Some targetDoc
       /\ parseTree (Editor := Fixture.editor) (getText targetDoc) = None.
Proof.
  split.
  - apply (proj1 (lookup_and_scan_agree (P := Fixture.platform)
             (E := Fixture.editor) (W := Fixture.workspace)
             Fixture.docA Fixture.refA "b.json#/x" [])).
    eexists. reflexivity.
  - apply (proj1 (proj2 (lookup_and_scan_agree (P := Fixture.platform)
             (E := Fixture.editor) (W := workspaceWithBroken)
             Fixture.docA Fixture.refA "broken.json" []))); reflexivity.
Defined.

(** X8. Every result of the lookup is backed by what it names: its
    reference text is the non-blank value of the string found at the
    position, whose extent is the source range; the target identity is what
    the locator gives for the file part; the target document is what the
    workspace loads for it; the target range and the metadata are those of
    the node the pointer path finds in that document; the pointer fragment is
    the non-empty pointer part, absent when there is none, and the pointer
    display is the fragment behind [#]. *)
Theorem resolveReference_result {P : Platform} {E : Editor} {W : Workspace}
    (document : TextDocument) (position : Position) (r : ResolvedReference) :
  resolveReference document position = Normal (Some r) ->
  let trimmed := Js.trim (refValue r) in
  exists node targetNode,
    refStringAt document position node
    /\ refValue r = stringOfValue (value node)
    /\ trimmed <> EmptyString
    /\ sourceRange r = nodeRange document node
    /\ resolveUri document (filePartOf trimmed) = Normal (Some (targetUri r))
    /\ openTextDocument (targetUri r) = Some (targetDocument r)
    /\ findTargetNode (targetDocument r) (parseJsonPointer (pointerPartOf trimmed))
       = Some targetNode
    /\ targetRange r = nodeRange (targetDocument r) targetNode
    /\ metadata r = extractSchemaMetadata targetNode
    /\ pointerFragment r
       = (if Js.isEmpty (pointerPartOf trimmed) then None
          else Some (pointerPartOf trimmed))
    /\ pointerDisplay r
       = match pointerFragment r with
         | Some f => "#" ++ f
         | None => EmptyString
         end.
Proof.
  intros Hr. cbv zeta.
  apply resolveReference_Some in Hr as (node & Hg & Hv & Hne & Hs & Ht).
  pose proof (resolveTargetDocument_fragment _ _ _ Ht) as Hfrag.
  apply resolveTargetDocument_Some in Ht
    as (Hd & Hu & Ho & targetNode & Hf & Hrange & Hm).
  cbv zeta in Hd, Hf.
  exists node, targetNode.
  split; [now apply getRefNodeAtPosition_Some_iff|].
  repeat (split; [assumption|]).
  rewrite Hd, Hfrag. now destruct (Js.isEmpty _).
Qed.

Lemma resolveReference_result_witness :
  exists r,
    resolveReference (P := Fixture.platform) (E := Fixture.editor)
      (W := Fixture.workspace) Fixture.docA (mkPosition 0 10) = Normal (Some r)
    /\ openTextDocument (Workspace := Fixture.workspace) (targetUri r)
       = Some (targetDocument r)
    /\ pointerFragment r = Some "/x".
Proof.
  destruct (resolveReference (P := Fixture.platform) (E := Fixture.editor)
              (W := Fixture.workspace) Fixture.docA (mkPosition 0 10))
    as [[r|]|e] eqn:Hr;
    [|vm_compute in Hr; discriminate Hr|vm_compute in Hr; discriminate Hr].
  exists r. split; [reflexivity|].
  destruct (resolveReference_result (P := Fixture.platform)
              (E := Fixture.editor) (W := Fixture.workspace)
              Fixture.docA (mkPosition 0 10) r Hr)
    as (node & targetNode & _ & Hv & _ & _ & _ & Ho & _ & _ & _ & Hfrag & _).
  split; [exact Ho|].
  apply resolveReference_Some in Hr as (node' & Hg & Hv' & _).
  vm_compute in Hg. injection Hg as <-.
  rewrite Hfrag, Hv'. reflexivity.
Defined.

(** ** More on the pointer codec *)

Lemma digit_char (k : N) :
  (k < 10)%N ->
  Js.isDigit (ascii_of_N (48 + k)) = true
  /\ (N_of_ascii (ascii_of_N (48 + k)) - 48 = k)%N.
Proof.
  intros H. rewrite <- (N2Nat.id k).
  assert (Hm : N.to_nat k < 10) by lia.
  remember (N.to_nat k) as m eqn:Em. clear Em H.
  do 10 (destruct m as [|m]; [vm_compute; split; reflexivity|]). lia.
Qed.

Lemma numberFrom_app (x y : string) :
  forall a, Js.numberFrom a (x ++ y) = Js.numberFrom (Js.numberFrom a x) y.
Proof. induction x as [|c x IH]; intros a; [reflexivity | apply IH]. Qed.

Lemma allDigits_app (x y : string) :
  Js.allDigits (x ++ y) = Js.allDigits x && Js.allDigits y.
Proof.
  induction x as [|c x IH]; [reflexivity|].
  cbn [append Js.allDigits]. now rewrite IH, andb_assoc.
Qed.

Lemma append_snoc (x : string) (c : ascii) (y : string) :
  (x ++ String c EmptyString) ++ y = x ++ String c y.
Proof. induction x as [|d x IH]; [reflexivity | cbn; now rewrite IH]. Qed.

Lemma append_empty (x : string) : x ++ EmptyString = x.
Proof. induction x as [|d x IH]; [reflexivity | cbn; now rewrite IH]. Qed.

(** With enough fuel the digits of [n] are written in front of [acc], and
    read back as [n]. *)
Lemma digitsOf_spec (f : nat) :
  forall n acc, (n < 2 ^ N.of_nat (S f))%N ->
    exists ds,
      digitsOf (S f) n acc = ds ++ acc
      /\ ds <> EmptyString
      /\ Js.allDigits ds = true
      /\ forall a, Js.numberFrom a ds
                   = (a * 10 ^ N.of_nat (String.length ds) + n)%N.
Proof.
  induction f as [|f IH]; intros n acc Hn.
  - assert (Hlt : (n < 10)%N) by (change (2 ^ N.of_nat 1)%N with 2%N in Hn; lia).
    destruct (digit_char (n mod 10) ltac:(apply N.mod_lt; lia)) as [Hd Hv].
    rewrite N.mod_small in Hd, Hv by lia.
    exists (String (ascii_of_N (48 + n)) EmptyString).
    cbn [digitsOf]. rewrite N.mod_small by lia.
    apply N.ltb_lt in Hlt as Hb. rewrite Hb.
    split; [reflexivity|]. split; [discriminate|].
    split; [cbn [Js.allDigits]; now rewrite Hd|].
    intros a. cbn [Js.numberFrom String.length]. rewrite Hv.
    change (10 ^ N.of_nat 1)%N with 10%N. lia.
  - destruct (digit_char (n mod 10) ltac:(apply N.mod_lt; lia)) as [Hd Hv].
    change (digitsOf (S (S f)) n acc)
      with (if (n <? 10)%N then String (ascii_of_N (48 + n mod 10)) acc
            else digitsOf (S f) (n / 10) (String (ascii_of_N (48 + n mod 10)) acc)).
    destruct (N.ltb_spec n 10) as [Hlt|Hge].
    + exists (String (ascii_of_N (48 + n mod 10)) EmptyString).
      split; [reflexivity|]. split; [discriminate|].
      split; [cbn [Js.allDigits]; now rewrite Hd|].
      intros a. cbn [Js.numberFrom String.length]. rewrite Hv.
      rewrite N.mod_small by lia.
      change (10 ^ N.of_nat 1)%N with 10%N. lia.
    + assert (Hq : (n / 10 < 2 ^ N.of_nat (S f))%N).
      { apply N.Div0.div_lt_upper_bound.
        replace (N.of_nat (S (S f))) with (N.succ (N.of_nat (S f))) in Hn by lia.
        rewrite N.pow_succ_r' in Hn. lia. }
      destruct (IH (n / 10)%N (String (ascii_of_N (48 + n mod 10)) acc) Hq)
        as (ds & Heq & Hne & Hall & Hnum).
      exists (ds ++ String (ascii_of_N (48 + n mod 10)) EmptyString).
      split; [now rewrite append_snoc|].
      split; [destruct ds; [congruence | discriminate]|].
      split; [rewrite allDigits_app, Hall; cbn [Js.allDigits]; now rewrite Hd|].
      intros a. rewrite numberFrom_app, Hnum.
      cbn [Js.numberFrom]. rewrite Hv.
      assert (Hl : String.length (ds ++ String (ascii_of_N (48 + n mod 10)) EmptyString)
                   = S (String.length ds)).
      { clear. induction ds as [|c ds IHd]; [reflexivity|].
        cbn [append String.length]. now rewrite IHd. }
      rewrite Hl.
      replace (N.of_nat (S (String.length ds)))
        with (N.succ (N.of_nat (String.length ds))) by lia.
      rewrite N.pow_succ_r'.
      pose proof (N.div_mod n 10 ltac:(lia)) as Hdm. nia.
Qed.

(** The decimal text of an index: non-empty, all digits, denoting the
    index. *)
Lemma decimalOf_index (n : N) :
  let ds := decimalOf (Z.of_N n) in
  ds <> EmptyString /\ Js.allDigits ds = true /\ digitsValue ds = n.
Proof.
  cbv zeta. unfold decimalOf. cbv zeta.
  destruct (Z.ltb_spec (Z.of_N n) 0) as [Hneg|_]; [lia|].
  rewrite Zabs2N.id.
  assert (Hn : (n < 2 ^ N.of_nat (S (N.to_nat (N.log2 n))))%N).
  { replace (N.of_nat (S (N.to_nat (N.log2 n)))) with (N.succ (N.log2 n)) by lia.
    destruct n as [|p]; [reflexivity|].
    apply N.log2_spec. lia. }
  destruct (digitsOf_spec _ n EmptyString Hn) as (ds & Heq & Hne & Hall & Hnum).
  rewrite Heq, append_empty. split; [exact Hne|]. split; [exact Hall|].
  unfold digitsValue. rewrite Hnum. lia.
Qed.

Lemma digit_plain (c : ascii) :
  Js.isDigit c = true -> Ascii.eqb c slash = false /\ Ascii.eqb c tilde = false.
Proof.
  destruct c as [[] [] [] [] [] [] [] []]; cbv; intros H;
    solve [discriminate H | split; reflexivity].
Qed.

Lemma allDigits_lacks (s : string) :
  Js.allDigits s = true -> lacks slash s = true /\ lacks tilde s = true.
Proof.
  induction s as [|c r IH]; cbn [Js.allDigits lacks]; intros H; [now split|].
  apply andb_prop in H as [Hc Hr].
  destruct (digit_plain c Hc) as [Hs Ht]. destruct (IH Hr) as [IHs IHt].
  now rewrite Hs, Ht, IHs, IHt.
Qed.

Lemma unescapeSegment_lacks (s : string) :
  lacks tilde s = true -> unescapeSegment s = s.
Proof.
  intros H. unfold unescapeSegment.
  now rewrite (replace2_lacks tilde "1"%char slash s H), (replace2_lacks _ _ _ s H).
Qed.

Lemma decodeSegment_digits (s : string) :
  Js.testDigits s = true -> decodeSegment s = SegNum (Js.Number s).
Proof.
  intros H. unfold decodeSegment.
  assert (Ha : Js.allDigits s = true).
  { unfold Js.testDigits in H. now apply andb_prop in H as [_ H]. }
  rewrite (unescapeSegment_lacks s (proj2 (allDigits_lacks s Ha))).
  now rewrite H.
Qed.

Lemma escapeSegment_lacks_slash (s : string) :
  lacks slash (escapeSegment s) = true.
Proof.
  induction s as [|c r IH]; [reflexivity|].
  cbn [escapeSegment].
  destruct (Ascii.eqb c tilde); [cbn [lacks]; now rewrite IH|].
  destruct (Ascii.eqb c slash) eqn:Hs; cbn [lacks]; [now rewrite IH|].
  now rewrite Hs, IH.
Qed.

Lemma encodeSegment_lacks_slash (seg : Segment) :
  lacks slash (encodeSegment seg) = true.
Proof.
  destruct seg as [s|[n|]]; cbn [encodeSegment];
    [apply escapeSegment_lacks_slash| |reflexivity].
  destruct (decimalOf_index n) as (_ & Hall & _).
  now apply allDigits_lacks.
Qed.

Lemma decodeSegment_encodeSegment (seg : Segment) :
  plainSegment seg = true -> decodeSegment (encodeSegment seg) = seg.
Proof.
  destruct seg as [s|[n|]]; cbn [plainSegment encodeSegment]; intros H.
  - unfold decodeSegment. rewrite unescapeSegment_escapeSegment.
    apply negb_true_iff in H. now rewrite H.
  - destruct (decimalOf_index n) as (Hne & Hall & Hnum).
    apply N.ltb_lt in H.
    rewrite decodeSegment_digits.
    + unfold Js.Number. fold (digitsValue (decimalOf (Z.of_N n))).
      rewrite Hnum. now rewrite roundToDouble_small.
    + unfold Js.testDigits. rewrite Hall.
      destruct (decimalOf (Z.of_N n)); [congruence | reflexivity].
  - discriminate H.
Qed.

Lemma split_first (a b : string) :
  lacks slash a = true ->
  Js.split slash (a ++ String slash b) = a :: Js.split slash b.
Proof.
  induction a as [|c r IH]; intros H.
  - cbn [append Js.split]. now rewrite Ascii.eqb_refl.
  - cbn [lacks] in H. apply andb_prop in H as [Hc Hr].
    apply negb_true_iff in Hc.
    cbn [append Js.split]. now rewrite Hc, (IH Hr).
Qed.

Lemma split_encodePointer (seg : Segment) (rest : list Segment) :
  Js.split slash (encodeSegment seg ++ encodePointer rest)
  = map encodeSegment (seg :: rest).
Proof.
  revert seg. induction rest as [|seg2 rest IH]; intros seg.
  - cbn [encodePointer map]. rewrite append_empty.
    apply split_lacks, encodeSegment_lacks_slash.
  - change (encodePointer (seg2 :: rest))
      with (String slash (encodeSegment seg2 ++ encodePointer rest)).
    rewrite split_first by apply encodeSegment_lacks_slash.
    now rewrite IH.
Qed.

Lemma parseJsonPointer_slash (x : string) :
  parseJsonPointer (String slash x)
  = if Js.isEmpty x then [] else map decodeSegment (Js.split slash x).
Proof. reflexivity. Qed.

Lemma escapeSegment_plain (s : string) :
  lacks slash s = true -> lacks tilde s = true -> escapeSegment s = s.
Proof.
  induction s as [|c r IH]; [reflexivity|].
  cbn [lacks escapeSegment]. intros Hs Ht.
  apply andb_prop in Hs as [Hcs Hrs]. apply andb_prop in Ht as [Hct Hrt].
  apply negb_true_iff in Hcs, Hct. now rewrite Hct, Hcs, (IH Hrs Hrt).
Qed.

Lemma encode_decode_segments (p : list Segment) :
  forallb plainSegment p = true ->
  map decodeSegment (map encodeSegment p) = p.
Proof.
  induction p as [|seg p IH]; [reflexivity|].
  cbn [forallb map]. intros H. apply andb_prop in H as [Hs Hp].
  now rewrite (decodeSegment_encodeSegment seg Hs), (IH Hp).
Qed.

(** X9. Decoding undoes the encoding the specification pairs with it
    (escape [~] as [~0] and [/] as [~1], write indices in decimal, put a
    slash before each segment) on every path whose indices are below 2^53
    and whose string segments are not all digits, the one-segment path of
    the empty string apart. That path encodes to [/] and decodes to the
    empty path; a string segment made of digits comes back as a number; and
    the index 9007199254740993, which no double holds, comes back as
    9007199254740992. *)
Theorem parseJsonPointer_encodePointer :
  (forall p, forallb plainSegment p = true -> p <> [SegStr EmptyString] ->
     parseJsonPointer (encodePointer p) = p)
  /\ parseJsonPointer (encodePointer [SegStr EmptyString]) = []
  /\ (forall s, Js.testDigits s = true ->
        parseJsonPointer (encodePointer [SegStr s]) = [SegNum (Js.Number s)])
  /\ parseJsonPointer (encodePointer [SegNum 9007199254740993])
     = [SegNum 9007199254740992].
Proof.
  split; [|split; [reflexivity|split; [|vm_compute; reflexivity]]].
  - intros [|seg rest] Hplain Hne; [reflexivity|].
    change (encodePointer (seg :: rest))
      with (String slash (encodeSegment seg ++ encodePointer rest)).
    rewrite parseJsonPointer_slash, split_encodePointer.
    destruct (encodeSegment seg ++ encodePointer rest) eqn:Hx; cbn [Js.isEmpty].
    + exfalso. apply Hne.
      destruct rest as [|seg2 rest].
      * destruct seg as [s|[n|]]; cbn [encodeSegment encodePointer] in Hx.
        -- rewrite append_empty in Hx.
           destruct s as [|c s]; [reflexivity|]. cbn [escapeSegment] in Hx.
           destruct (Ascii.eqb c tilde); [discriminate|].
           destruct (Ascii.eqb c slash); discriminate.
        -- rewrite append_empty in Hx.
           destruct (decimalOf_index n) as (Hd & _). congruence.
        -- discriminate Hx.
      * change (encodePointer (seg2 :: rest))
          with (String slash (encodeSegment seg2 ++ encodePointer rest)) in Hx.
        destruct (encodeSegment seg); discriminate.
    + now apply encode_decode_segments.
  - intros s Hd.
    assert (Ha : Js.allDigits s = true).
    { unfold Js.testDigits in Hd. now apply andb_prop in Hd as [_ H]. }
    destruct (allDigits_lacks s Ha) as [Hs Ht].
    cbn [encodePointer encodeSegment]. rewrite append_empty.
    rewrite (escapeSegment_plain s Hs Ht).
    change ("/" ++ s) with (String slash s).
    rewrite parseJsonPointer_slash.
    destruct s as [|c s]; [discriminate Hd|]. cbn [Js.isEmpty].
    rewrite (split_lacks _ _ Hs). cbn [map].
    now rewrite decodeSegment_digits.
Qed.

Lemma parseJsonPointer_encodePointer_witness :
  parseJsonPointer
    (encodePointer [SegStr "definitions"; SegStr "a/b~c"; SegNum 12; SegStr EmptyString])
  = [SegStr "definitions"; SegStr "a/b~c"; SegNum 12; SegStr EmptyString]
  /\ parseJsonPointer (encodePointer [SegStr "007"]) = [SegNum 7].
Proof.
  split.
  - apply (proj1 parseJsonPointer_encodePointer); [reflexivity | discriminate].
  - apply (proj1 (proj2 (proj2 parseJsonPointer_encodePointer)) "007").
    reflexivity.
Defined.

Lemma split_length (s : string) :
  List.length (Js.split slash s) = S (countChar slash s).
Proof.
  induction s as [|c r IH]; [reflexivity|].
  cbn [Js.split countChar]. destruct (Ascii.eqb c slash).
  - cbn [List.length]. now rewrite IH.
  - destruct (Js.split slash r) as [|h t]; [discriminate IH|].
    cbn [List.length] in *. lia.
Qed.

(** X10. The decoder does not insist on the leading slash: a pointer
    without it decodes like the same pointer with it. Only one leading slash
    is dropped, and the path has one segment more than the rest of the
    pointer has slashes, so a doubled or a trailing slash gives an empty
    segment. *)
Theorem parseJsonPointer_leading_slash :
  (forall s, Js.startsWith slash s = false ->
     parseJsonPointer (String slash s) = parseJsonPointer s)
  /\ (forall p,
        List.length (parseJsonPointer p)
        = match stripLeadingSlash p with
          | EmptyString => 0
          | rest => S (countChar slash rest)
          end).
Proof.
  split.
  - intros [|c r] H; [reflexivity|].
    cbn [Js.startsWith] in H. unfold parseJsonPointer.
    cbn [Js.isEmpty Js.startsWith]. rewrite Ascii.eqb_refl, H. reflexivity.
  - intros p. rewrite parseJsonPointer_decodeSpec. unfold decodeSpec.
    destruct (stripLeadingSlash p) as [|c r]; [reflexivity|].
    now rewrite length_map, split_length.
Qed.

Lemma parseJsonPointer_leading_slash_witness :
  parseJsonPointer "/definitions/Foo" = parseJsonPointer "definitions/Foo"
  /\ List.length (parseJsonPointer "//a/") = 3.
Proof.
  split.
  - apply (proj1 parseJsonPointer_leading_slash "definitions/Foo"). reflexivity.
  - rewrite (proj2 parseJsonPointer_leading_slash "//a/"). reflexivity.
Defined.

(** ** Pointers into objects and arrays *)

Lemma findNodeAtLocation_index (root : Node) (n : JsNumber)
    (rest : list Segment) :
  type root <> ArrayT ->
  Jsonc.findNodeAtLocation root (SegNum n :: rest) = None.
Proof.
  intros H. cbn [Jsonc.findNodeAtLocation].
  destruct n, (type root); try reflexivity; congruence.
Qed.

Lemma findNodeAtLocation_key (root : Node) (k : string) (rest : list Segment) :
  type root <> ObjectT ->
  Jsonc.findNodeAtLocation root (SegStr k :: rest) = None.
Proof.
  intros H. cbn [Jsonc.findNodeAtLocation].
  destruct (type root); try reflexivity. congruence.
Qed.

(** X11. A pointer segment made of digits is always decoded as an index,
    never as a key. With the locate-by-path primitive of section 4.3 such a
    pointer therefore finds nothing in an object, even one that has a
    property of that name; and a key finds nothing in an array. *)
Theorem digit_segments_miss_object_keys (E : Editor) :
  (forall n p, findNodeAtLocation n p = Jsonc.findNodeAtLocation n p) ->
  (forall d, Js.testDigits d = true ->
     parseJsonPointer (String slash d) = [SegNum (Js.Number d)])
  /\ (forall root d, Js.testDigits d = true -> type root <> ArrayT ->
        locateIn root (parseJsonPointer (String slash d)) = None)
  /\ (forall root k, Js.testDigits k = false -> lacks slash k = true ->
        lacks tilde k = true -> k <> EmptyString -> type root <> ObjectT ->
        locateIn root (parseJsonPointer (String slash k)) = None).
Proof.
  intros Hprim.
  assert (Hdig : forall d, Js.testDigits d = true ->
            parseJsonPointer (String slash d) = [SegNum (Js.Number d)]).
  { intros d Hd.
    assert (Ha : Js.allDigits d = true).
    { unfold Js.testDigits in Hd. now apply andb_prop in Hd as [_ H]. }
    rewrite parseJsonPointer_slash.
    destruct d as [|c d]; [discriminate Hd|]. cbn [Js.isEmpty].
    rewrite (split_lacks _ _ (proj1 (allDigits_lacks _ Ha))). cbn [map].
    now rewrite decodeSegment_digits. }
  split; [exact Hdig|]. split.
  - intros root d Hd Ht. rewrite (Hdig d Hd). unfold locateIn.
    now rewrite Hprim, findNodeAtLocation_index.
  - intros root k Hk Hs Hl Hne Ht. rewrite parseJsonPointer_slash.
    destruct k as [|c k]; [congruence|]. cbn [Js.isEmpty].
    rewrite (split_lacks _ _ Hs). cbn [map].
    unfold decodeSegment. rewrite (unescapeSegment_lacks _ Hl), Hk.
    unfold locateIn. now rewrite Hprim, findNodeAtLocation_key.
Qed.

Lemma digit_segments_miss_object_keys_witness :
  child treeDigitKey 0
  = Some (Fixture.propNode (Fixture.strNode 1 "0") (Fixture.strNode 5 "zero"))
  /\ locateIn (E := Fixture.editor) treeDigitKey (parseJsonPointer "/0") = None
  /\ locateIn (E := Fixture.editor) (Fixture.arrNode 20 5 [Fixture.strNode 21 "a"])
       (parseJsonPointer "/length") = None.
Proof.
  destruct (digit_segments_miss_object_keys Fixture.editor
              (fun n p => eq_refl)) as (_ & Hobj & Harr).
  split; [reflexivity|]. split.
  - apply (Hobj treeDigitKey "0"); [reflexivity | discriminate].
  - apply (Harr _ "length"); [reflexivity | reflexivity | reflexivity
                              | discriminate | discriminate].
Defined.

(** ** More on the locator *)

Lemma prefix_scheme_mark (s : string) :
  String.prefix "://" s = true -> exists rest, s = "://" ++ rest.
Proof.
  destruct s as [|a [|b [|c rest]]]; cbn [String.prefix]; try discriminate;
    try (destruct (ascii_dec _ _); discriminate);
    try (destruct (ascii_dec _ _); [destruct (ascii_dec _ _)|]; discriminate).
  destruct (ascii_dec ":" a) as [<-|]; [|discriminate].
  destruct (ascii_dec "/" b) as [<-|]; [|discriminate].
  destruct (ascii_dec "/" c) as [<-|]; [|discriminate].
  intros _. now exists rest.
Qed.

Lemma schemeTail_true (r : string) :
  schemeTail r = true ->
  exists sch rest, r = sch ++ "://" ++ rest /\ allSchemeChars sch = true.
Proof.
  induction r as [|c r IH]; [discriminate|].
  cbn [schemeTail]. destruct (isSchemeChar c) eqn:Hc.
  - intros H. destruct (IH H) as (sch & rest & -> & Hall).
    exists (String c sch), rest. split; [reflexivity|].
    cbn [allSchemeChars]. now rewrite Hc, Hall.
  - intros H. destruct (prefix_scheme_mark _ H) as (rest & ->).
    now exists EmptyString, rest.
Qed.

Lemma schemeTail_built (sch rest : string) :
  allSchemeChars sch = true -> schemeTail (sch ++ "://" ++ rest) = true.
Proof.
  induction sch as [|c sch IH]; cbn [allSchemeChars]; intros H.
  - cbn. destruct rest; reflexivity.
  - apply andb_prop in H as [Hc Hs].
    cbn [append schemeTail]. rewrite Hc. now apply IH.
Qed.

(** X12. The scheme test of the locator accepts exactly the texts that
    start with a letter, go on with letters, [+], [-] or [.], and then read
    [://]. A digit is not accepted in the scheme, so a text such as
    [s3://bucket/x] is not taken as a URI but as a relative path. *)
Theorem matchesUriScheme_iff (s : string) :
  (matchesUriScheme s = true
   <-> exists c sch rest,
         s = String c sch ++ "://" ++ rest
         /\ Js.isAlpha c = true /\ allSchemeChars sch = true)
  /\ (forall (P : Platform) document c d rest,
        Js.isAlpha c = true -> Js.isDigit d = true ->
        path_isAbsolute (String c (String d rest)) = false ->
        resolveUri document (String c (String d rest))
        = found (Uri_file (path_resolve (path_dirname (fsPath (uri document)))
                                        (String c (String d rest))))).
Proof.
  split.
  - split.
    + destruct s as [|c r]; [discriminate|]. cbn [matchesUriScheme].
      intros H. apply andb_prop in H as [Hc Hr].
      destruct (schemeTail_true r Hr) as (sch & rest & -> & Hall).
      now exists c, sch, rest.
    + intros (c & sch & rest & -> & Hc & Hall).
      cbn [append matchesUriScheme]. rewrite Hc. now apply schemeTail_built.
  - intros P document c d rest Hc Hd Habs.
    assert (Hnd : isSchemeChar d = false).
    { clear -Hd. revert Hd.
      destruct d as [[] [] [] [] [] [] [] []]; cbv; intros H;
        solve [discriminate H | reflexivity]. }
    assert (Hnc : Ascii.eqb d ":"%char = false).
    { clear -Hd. revert Hd.
      destruct d as [[] [] [] [] [] [] [] []]; cbv; intros H;
        solve [discriminate H | reflexivity]. }
    apply resolveUri_relative; [discriminate | | exact Habs |].
    + cbn [matchesUriScheme schemeTail]. rewrite Hc, Hnd. cbn [andb].
      cbn [String.prefix]. destruct (ascii_dec ":" d) as [<-|]; [|reflexivity].
      discriminate Hnc.
    + cbn [matchesWindowsDrive]. destruct rest; [reflexivity|].
      now rewrite Hnc, andb_false_r.
Qed.

Lemma matchesUriScheme_iff_witness :
  matchesUriScheme "git+ssh://host/repo.json" = true
  /\ resolveUri (P := Fixture.platform) Fixture.docA "s3://bucket/x.json"
     = Normal (Some (Posix.fileUri "/work/s3:/bucket/x.json")).
Proof.
  split.
  - apply (proj1 (matchesUriScheme_iff "git+ssh://host/repo.json")).
    exists "g"%char, "it+ssh", "host/repo.json". repeat split.
  - apply (proj2 (matchesUriScheme_iff "s3://bucket/x.json")
             Fixture.platform Fixture.docA "s"%char "3"%char "://bucket/x.json");
      reflexivity.
Defined.

Lemma first_occurrence (c : ascii) (t : string) :
  lacks c t = true
  \/ exists a b, t = a ++ String c b /\ lacks c a = true.
Proof.
  induction t as [|d r IH]; [now left|].
  cbn [lacks]. destruct (Ascii.eqb d c) eqn:Hd.
  - right. apply ascii_eqb_true in Hd. subst d.
    now exists EmptyString, r.
  - destruct IH as [Hl | (a & b & -> & Ha)].
    + left. now rewrite Hl.
    + right. exists (String d a), b. split; [reflexivity|].
      cbn [lacks]. now rewrite Hd, Ha.
Qed.

(** X13. Splitting a trimmed reference loses nothing: the file part never
    holds a [#]; when the reference holds a [#] it is the file part, the
    [#] and the pointer part put together again, and otherwise it is the file
    part alone, with an empty pointer part. *)
Theorem reference_parts_rejoin (trimmed : string) :
  lacks "#"%char (filePartOf trimmed) = true
  /\ (lacks "#"%char trimmed = false ->
      trimmed = filePartOf trimmed ++ "#" ++ pointerPartOf trimmed)
  /\ (lacks "#"%char trimmed = true ->
      filePartOf trimmed = trimmed /\ pointerPartOf trimmed = EmptyString).
Proof.
  split; [apply filePartOf_lacks_hash|]. split.
  - intros Hh.
    destruct (first_occurrence "#"%char trimmed) as [Hl | (a & b & -> & Ha)];
      [congruence|].
    change (a ++ String "#"%char b) with (a ++ "#" ++ b).
    destruct (split_at_first_hash a b Ha) as [-> ->]. reflexivity.
  - apply split_without_hash.
Qed.

Lemma reference_parts_rejoin_witness :
  "../defs/common.json#/definitions/id#x"
  = filePartOf "../defs/common.json#/definitions/id#x" ++ "#"
    ++ pointerPartOf "../defs/common.json#/definitions/id#x"
  /\ pointerPartOf "../defs/common.json#/definitions/id#x" = "/definitions/id#x"
  /\ pointerPartOf "common.json" = EmptyString.
Proof.
  split; [apply (proj1 (proj2 (reference_parts_rejoin _))); reflexivity|].
  split; [reflexivity|].
  apply (proj2 (proj2 (reference_parts_rejoin "common.json"))). reflexivity.
Defined.

(** ** More on the metadata extractor *)

Lemma lastSetting_filter (key : string) (read : Node -> option string)
    (keep : Node -> bool) (props : list Node) :
  (forall p, keep p = false -> setting key read p = None) ->
  lastSetting key read (filter keep props) = lastSetting key read props.
Proof.
  intros H. induction props as [|p props IH]; [reflexivity|].
  cbn [filter]. destruct (keep p) eqn:Hk.
  - now rewrite !lastSetting_cons, IH.
  - rewrite lastSetting_cons, IH, (H p Hk).
    now destruct (lastSetting key read props).
Qed.

(** X14. The record of an object depends only on those of its direct
    children that are properties named [title], [description] or [type]
    with a value that sets the field: every other child (another key, a
    value of another shape, a [type] array without strings) can be removed
    without changing the record, and so can the extent and value of the
    object itself. *)
Theorem extractSchemaMetadata_relevant (node : Node) :
  type node = ObjectT ->
  forall v o l,
    extractSchemaMetadata node
    = extractSchemaMetadata
        (mkNode ObjectT v o l (filter setsField (children node))).
Proof.
  intros Ht v o l.
  rewrite !extractSchemaMetadata_extractSpec. unfold extractSpec.
  rewrite Ht. cbn [type children].
  assert (Hdrop : forall p, setsField p = false ->
            setting "title" textOf p = None
            /\ setting "description" textOf p = None
            /\ setting "type" typeOf p = None).
  { intros p. unfold setsField.
    destruct (setting "title" textOf p), (setting "description" textOf p),
      (setting "type" typeOf p); try discriminate. now repeat split. }
  rewrite !lastSetting_filter; [reflexivity | | |]; intros p Hp;
    now destruct (Hdrop p Hp) as (? & ? & ?).
Qed.

Lemma extractSchemaMetadata_relevant_witness :
  extractSchemaMetadata Fixture.treeB
  = extractSchemaMetadata (mkNode ObjectT None 0 0 []).
Proof.
  apply (extractSchemaMetadata_relevant Fixture.treeB eq_refl None 0 0).
Defined.

(** ** Activation and the document events *)

Lemma sameUri_eq (a b : Uri) : sameUri a b = true <-> a = b.
Proof.
  unfold sameUri. split.
  - intros H. repeat (apply andb_prop in H as [H ?]).
    destruct a, b. cbn in *.
    repeat match goal with
           | Hx : String.eqb _ _ = true |- _ => apply String.eqb_eq in Hx
           end.
    now subst.
  - intros ->. now rewrite !String.eqb_refl.
Qed.

Section ActivationFacts.
Context {P : Platform} {E : Editor} {W : Workspace}.

Lemma backed_weaken (seen seen' : TextDocument -> Prop) (c : DiagnosticCollection) :
  (forall d, seen d -> seen' d) -> backed seen c -> backed seen' c.
Proof.
  intros Hs Hb u ds Hc. destruct (Hb u ds Hc) as (doc & Hd & Hrest).
  exists doc. split; [now apply Hs | exact Hrest].
Qed.

Lemma backed_validate (seen : TextDocument -> Prop) (c : DiagnosticCollection)
    (doc : TextDocument) :
  (includes SUPPORTED_LANGUAGES (languageId doc) = true -> seen doc) ->
  backed seen c -> backed seen (validateIfSupported doc c).
Proof.
  intros Hs Hb u ds. unfold validateIfSupported.
  destruct (includes SUPPORTED_LANGUAGES (languageId doc)) eqn:Hl; [|apply Hb].
  unfold publishDiagnostics, collectionSet.
  destruct (validateDocument doc) as [found|e] eqn:Hv; [|apply Hb].
  destruct (sameUri (uri doc) u) eqn:Hu; [|apply Hb].
  intros [= <-]. apply sameUri_eq in Hu. exists doc. now repeat split; auto.
Qed.

Lemma backed_delete (seen : TextDocument -> Prop) (c : DiagnosticCollection)
    (u : Uri) :
  backed seen c -> backed seen (collectionDelete c u).
Proof.
  intros Hb v ds. unfold collectionDelete.
  destruct (sameUri u v); [discriminate | apply Hb].
Qed.

Lemma activate_backed (docs : list TextDocument) :
  backed (fun d => In d docs) (activate docs).
Proof.
  unfold activate.
  assert (H : forall c (seen : TextDocument -> Prop),
            backed seen c ->
            backed (fun d => seen d \/ In d docs)
                   (fold_left (fun c doc => validateIfSupported doc c) docs c)).
  { induction docs as [|doc docs IH]; intros c seen Hb.
    - cbn. eapply backed_weaken; [|exact Hb]. now left.
    - cbn [fold_left].
      eapply backed_weaken;
        [|apply (IH _ (fun d => seen d \/ d = doc))].
      + intros d [[Hd| ->]|Hd]; [now left | right; now left | right; now right].
      + apply backed_validate; [now right|].
        eapply backed_weaken; [|exact Hb]. now left. }
  eapply backed_weaken; [|apply (H _ (fun _ => False))].
  - now intros d [[]|Hd].
  - intros u ds [=].
Qed.

Lemma runEvents_backed (docs : list TextDocument) (events : list WorkspaceEvent) :
  backed (seenSupported docs events) (runEvents events (activate docs)).
Proof.
  induction events as [|e events IH] using rev_ind.
  - cbn. intros u ds Hc.
    destruct (activate_backed docs u ds Hc) as (doc & Hin & Hu & Hl & Hds).
    exists doc. split; [split; [exact Hl | now left]|]. now repeat split.
  - unfold runEvents in *. rewrite fold_left_app. cbn [fold_left].
    assert (Hmono : forall d, seenSupported docs events d ->
              seenSupported docs (events ++ [e]) d).
    { intros d (Hl & [Hd|[Hd|Hd]]); split; try exact Hl;
        [now left | right; left | right; right]; apply in_or_app; now left. }
    destruct e as [doc|doc|doc]; cbn [onEvent].
    + apply backed_validate; [|now apply (backed_weaken _ _ _ Hmono)].
      intros Hl. split; [exact Hl|]. right. left. apply in_or_app. right. now left.
    + apply backed_validate; [|now apply (backed_weaken _ _ _ Hmono)].
      intros Hl. split; [exact Hl|]. right. right. apply in_or_app. right. now left.
    + apply backed_delete. now apply (backed_weaken _ _ _ Hmono).
Qed.

End ActivationFacts.

(** X15. With the handlers run one at a time, each scan finishing before
    the next event: whatever documents were open at activation and whatever
    events followed, every entry of the diagnostic collection is the list a
    scan returned for a document of language [json] or [jsonc] that was
    seen with that identity. An open or change event of such a document sets
    its entry to the list its scan returns, and changes nothing when its
    scan throws, so that the entry set before stays; one of a document of
    another language changes nothing, a close event removes the entry of the
    document whatever its language, and no event touches the entry of
    another identity. *)
Theorem diagnostics_follow_events {P : Platform} {E : Editor} {W : Workspace}
    (docs : list TextDocument) (events : list WorkspaceEvent) :
  let c := runEvents events (activate docs) in
  (forall u ds, c u = Some ds ->
     exists doc, seenSupported docs events doc /\ uri doc = u
                 /\ validateDocument doc = Normal ds)
  /\ (forall doc ds, includes SUPPORTED_LANGUAGES (languageId doc) = true ->
        validateDocument doc = Normal ds ->
        onEvent c (DidOpenTextDocument doc) (uri doc) = Some ds
        /\ onEvent c (DidChangeTextDocument doc) (uri doc) = Some ds)
  /\ (forall doc e, includes SUPPORTED_LANGUAGES (languageId doc) = true ->
        validateDocument doc = Throw e ->
        onEvent c (DidOpenTextDocument doc) = c
        /\ onEvent c (DidChangeTextDocument doc) = c)
  /\ (forall doc u, includes SUPPORTED_LANGUAGES (languageId doc) = false ->
        onEvent c (DidOpenTextDocument doc) u = c u
        /\ onEvent c (DidChangeTextDocument doc) u = c u)
  /\ (forall doc, onEvent c (DidCloseTextDocument doc) (uri doc) = None)
  /\ (forall e u, uri (eventDocument e) <> u -> onEvent c e u = c u).
Proof.
  cbv zeta. split; [|split; [|split; [|split; [|split]]]].
  - intros u ds Hc.
    destruct (runEvents_backed docs events u ds Hc) as (doc & Hs & Hu & _ & Hds).
    now exists doc.
  - intros doc ds Hl Hv. cbn [onEvent]. unfold validateIfSupported. rewrite Hl.
    unfold publishDiagnostics, collectionSet. rewrite Hv.
    now rewrite (proj2 (sameUri_eq (uri doc) (uri doc)) eq_refl).
  - intros doc e Hl Hv. cbn [onEvent]. unfold validateIfSupported. rewrite Hl.
    unfold publishDiagnostics. now rewrite Hv.
  - intros doc u Hl. cbn [onEvent]. unfold validateIfSupported. now rewrite Hl.
  - intros doc. cbn [onEvent]. unfold collectionDelete.
    now rewrite (proj2 (sameUri_eq (uri doc) (uri doc)) eq_refl).
  - intros e u Hne.
    assert (Hu : sameUri (uri (eventDocument e)) u = false).
    { destruct (sameUri (uri (eventDocument e)) u) eqn:Hs; [|reflexivity].
      apply sameUri_eq in Hs. contradiction. }
    destruct e as [doc|doc|doc]; cbn [onEvent eventDocument] in *;
      unfold validateIfSupported, publishDiagnostics, collectionSet,
        collectionDelete;
      try destruct (includes SUPPORTED_LANGUAGES (languageId doc));
      try destruct (validateDocument doc);
      try reflexivity; now rewrite Hu.
Qed.

Lemma diagnostics_follow_events_witness :
  sampleCollection (uri Fixture.docA) = Some []
  /\ option_map (map message) (sampleCollection (uri Fixture.docN))
     = Some ["Invalid JSON pointer: " ++ Fixture.q "#/nope"]
  /\ onEvent (P := Fixture.platform) (E := Fixture.editor)
       (W := Fixture.workspace) sampleCollection
       (DidChangeTextDocument Fixture.docU)
     = sampleCollection
  /\ onEvent (P := Fixture.platform) (E := Fixture.editor)
       (W := Fixture.workspace) sampleCollection
       (DidOpenTextDocument Fixture.docM) (uri Fixture.docM)
     = Some [mkDiagnostic (mkRange (mkPosition 0 8) (mkPosition 0 24))
               ("File not found: " ++ Fixture.q "./missing.json") Error]
  /\ onEvent (P := Fixture.platform) (E := Fixture.editor)
       (W := Fixture.workspace) sampleCollection
       (DidChangeTextDocument docPlain) (uri Fixture.docA)
     = sampleCollection (uri Fixture.docA)
  /\ onEvent (P := Fixture.platform) (E := Fixture.editor)
       (W := Fixture.workspace) sampleCollection
       (DidCloseTextDocument docPlain) (uri Fixture.docA) = None.
Proof.
  destruct (diagnostics_follow_events (P := Fixture.platform)
              (E := Fixture.editor) (W := Fixture.workspace)
              [Fixture.docA; Fixture.docM]
              [DidOpenTextDocument Fixture.docN; DidChangeTextDocument docPlain])
    as (_ & Hset & Hthrow & Hplain & Hclose & _).
  split; [reflexivity|]. split; [reflexivity|]. split; [|split; [|split]].
  - apply (Hthrow Fixture.docU Posix.doubleSlashError); reflexivity.
  - apply (Hset Fixture.docM); reflexivity.
  - apply (Hplain docPlain (uri Fixture.docA)). reflexivity.
  - apply (Hclose docPlain).
Defined.

(** After [u.json] was opened with the text of [a.json] and then changed to
    [{"$ref":"file:////x.json"}], its entry is still the empty list of the
    first scan. *)
Example stale_entry_after_throw :
  runEvents (P := Fixture.platform) (E := Fixture.editor) (W := Fixture.workspace)
    [DidOpenTextDocument (Fixture.docAt "/work/u.json" Fixture.textA);
     DidChangeTextDocument Fixture.docU]
    (fun _ => None) (uri Fixture.docU)
  = Some [].
Proof. reflexivity. Qed.

(** ** White space around a reference *)

Lemma trimStart_plain (s : string) : startsPlain s = true -> Js.trimStart s = s.
Proof.
  destruct s as [|c r]; [reflexivity|]. cbn [startsPlain Js.trimStart].
  intros H. apply negb_true_iff in H. now rewrite H.
Qed.

Lemma trimStart_startsPlain (s : string) : startsPlain (Js.trimStart s) = true.
Proof.
  induction s as [|c r IH]; [reflexivity|]. cbn [Js.trimStart].
  destruct (Js.isWhiteSpace c) eqn:Hc; [exact IH|].
  cbn [startsPlain]. now rewrite Hc.
Qed.

Lemma trimEnd_startsPlain (s : string) :
  startsPlain s = true -> startsPlain (Js.trimEnd s) = true.
Proof.
  destruct s as [|c r]; [reflexivity|]. cbn [startsPlain Js.trimEnd].
  intros H. apply negb_true_iff in H.
  destruct (Js.trimEnd r); [rewrite H|]; cbn [startsPlain]; now rewrite H.
Qed.

Lemma trimEnd_idempotent (s : string) : Js.trimEnd (Js.trimEnd s) = Js.trimEnd s.
Proof.
  induction s as [|c r IH]; [reflexivity|]. cbn [Js.trimEnd].
  destruct (Js.trimEnd r) as [|d t] eqn:Ht.
  - destruct (Js.isWhiteSpace c) eqn:Hc; [reflexivity|].
    cbn [Js.trimEnd]. now rewrite Hc.
  - change (Js.trimEnd (String c (String d t)))
      with (match Js.trimEnd (String d t) with
            | EmptyString =>
                if Js.isWhiteSpace c then EmptyString else String c EmptyString
            | r' => String c r'
            end).
    now rewrite IH.
Qed.

Lemma trim_idempotent (s : string) : Js.trim (Js.trim s) = Js.trim s.
Proof.
  unfold Js.trim.
  rewrite (trimStart_plain (Js.trimEnd (Js.trimStart s))).
  - apply trimEnd_idempotent.
  - apply trimEnd_startsPlain, trimStart_startsPlain.
Qed.

(** X16. White space around a reference does not change what it resolves
    to: the lookup gives the same result for a reference and for the
    reference trimmed, the scan reports on the one exactly when it reports
    on the other, and throws on the one exactly when it throws on the
    other. *)
Theorem reference_white_space_ignored {P : Platform} {E : Editor} {W : Workspace}
    (document : TextDocument) (node : Node) (raw : string)
    (diagnostics : list Diagnostic) :
  resolveTargetDocument document (Js.trim raw) = resolveTargetDocument document raw
  /\ (validateReference document node (Js.trim raw) diagnostics = Normal diagnostics
      <-> validateReference document node raw diagnostics = Normal diagnostics)
  /\ (forall e,
        validateReference document node (Js.trim raw) diagnostics = Throw e
        <-> validateReference document node raw diagnostics = Throw e).
Proof.
  split; [|split].
  - unfold resolveTargetDocument. now rewrite trim_idempotent.
  - rewrite !validateReference_silent_iff. unfold classify. cbv zeta.
    rewrite trim_idempotent.
    destruct (resolveUri document _) as [[target|]|e]; cbn [bind];
      [|split; discriminate|reflexivity].
    destruct (openTextDocument target) as [targetDoc|]; [|split; discriminate].
    reflexivity.
  - intros e. rewrite !validateReference_Throw. now rewrite trim_idempotent.
Qed.

Lemma reference_white_space_ignored_witness :
  resolveTargetDocument (P := Fixture.platform) (E := Fixture.editor)
    (W := Fixture.workspace) Fixture.docA "  b.json#/x "
  = resolveTargetDocument (P := Fixture.platform) (E := Fixture.editor)
      (W := Fixture.workspace) Fixture.docA "b.json#/x"
  /\ validateReference (P := Fixture.platform) (E := Fixture.editor)
       (W := Fixture.workspace) Fixture.docA Fixture.refA "  b.json#/x " []
     = Normal [].
Proof.
  destruct (reference_white_space_ignored (P := Fixture.platform)
              (E := Fixture.editor) (W := Fixture.workspace)
              Fixture.docA Fixture.refA "  b.json#/x " []) as (Hl & Hs & _).
  split; [symmetry; exact Hl|].
  apply (proj1 Hs). reflexivity.
Defined.
